(** * ActivityPredictor: signal conditioning and feature extraction

    A shallow embedding of the TypeScript sources

      - [components/Signal_Processor.ts]   (class [SignalProcessor])
      - [components/featureExtraction.ts]  (class [FeatureExtractor])
      - [app/(tabs)/index.tsx]             ([normalizeFeatures],
                                            [feature_list], [processSignalWindow])

    together with the properties the specification states about them.

    Numbers.  A JavaScript [number] is modelled by the type [num]: a real
    number, [+Infinity], [-Infinity] or [NaN].  Arithmetic on finite values
    is exact real arithmetic (rounding and overflow of binary64 are not
    modelled); the special values follow IEEE 754 as JavaScript exposes
    them: [x / 0] is an infinity or [NaN], [NaN] propagates, every
    comparison with [NaN] is false.  Zero carries no sign; a zero divisor
    counts as [+0].
    Where a property turns on rounding or overflow, the module [Binary64]
    holds the same source expression over binary64 numbers and is
    evaluated on the input in question.

    Limits of the model.  Besides rounding, overflow and underflow, three
    things are idealised: [fft] returns the transform itself, not its
    rounding to a [Float32Array]; [Math.tan] is infinite where the cosine
    is exactly 0, an argument no binary64 number reaches; and [sort] is an
    insertion sort by the comparator, whose order can differ from an
    engine's on an array that holds [NaN].  The properties below are
    stated so that they do not depend on these; the one bound that holds
    in exact arithmetic only, that of [calculateCorrelation], says so.

    Arrays.  A JavaScript array of numbers is a [list num]; reading past
    the end yields [undefined], which every arithmetic use coerces to
    [NaN], so an out-of-range read is modelled as [NaN]. *)

From Stdlib Require Import Reals Lra Lia ZArith String Ascii Bool DecimalString.
From Stdlib Require Import List Permutation.
From Stdlib Require PrimFloat Uint63.
Import ListNotations.

Local Open Scope R_scope.

(** ** JavaScript numbers *)

Inductive num : Type :=
| Fin (r : R)
| PInf
| NInf
| NaN.

Inductive sign : Type := Neg | Zero | Pos.

Definition sgn (r : R) : sign :=
  if Rlt_dec 0 r then Pos else if Rlt_dec r 0 then Neg else Zero.

Definition isFinite (x : num) : bool :=
  match x with Fin _ => true | _ => false end.

Definition nneg (x : num) : num :=
  match x with
  | Fin r => Fin (- r)
  | PInf => NInf
  | NInf => PInf
  | NaN => NaN
  end.

Definition nadd (x y : num) : num :=
  match x, y with
  | NaN, _ | _, NaN => NaN
  | Fin a, Fin b => Fin (a + b)
  | PInf, NInf | NInf, PInf => NaN
  | PInf, _ | _, PInf => PInf
  | NInf, _ | _, NInf => NInf
  end.

Definition nsub (x y : num) : num := nadd x (nneg y).

(** An infinity scaled by a real of the given sign. *)
Definition inf_scaled (positive : bool) (s : sign) : num :=
  match s with
  | Zero => NaN
  | Pos => if positive then PInf else NInf
  | Neg => if positive then NInf else PInf
  end.

Definition nmul (x y : num) : num :=
  match x, y with
  | NaN, _ | _, NaN => NaN
  | Fin a, Fin b => Fin (a * b)
  | PInf, Fin b => inf_scaled true (sgn b)
  | NInf, Fin b => inf_scaled false (sgn b)
  | Fin a, PInf => inf_scaled true (sgn a)
  | Fin a, NInf => inf_scaled false (sgn a)
  | PInf, PInf | NInf, NInf => PInf
  | PInf, NInf | NInf, PInf => NInf
  end.

Definition ndiv (x y : num) : num :=
  match x, y with
  | NaN, _ | _, NaN => NaN
  | Fin a, Fin b =>
      if Req_dec_T b 0 then inf_scaled true (sgn a) else Fin (a / b)
  | Fin _, _ => Fin 0
  | PInf, Fin b => if Rlt_dec b 0 then NInf else PInf
  | NInf, Fin b => if Rlt_dec b 0 then PInf else NInf
  | _, _ => NaN
  end.

(** [x ** n] for a literal exponent [n]. *)
Fixpoint npow (x : num) (n : nat) : num :=
  match n with
  | O => Fin 1
  | S k => nmul x (npow x k)
  end.

(** [Math.abs], [Math.sqrt], [Math.floor], [Math.log2], [Math.acos],
    [Math.tan]. *)
Definition nabs (x : num) : num :=
  match x with
  | Fin r => Fin (Rabs r)
  | PInf | NInf => PInf
  | NaN => NaN
  end.

Definition nsqrt (x : num) : num :=
  match x with
  | Fin r => if Rlt_dec r 0 then NaN else Fin (sqrt r)
  | PInf => PInf
  | NInf | NaN => NaN
  end.

Definition nfloor (x : num) : num :=
  match x with
  | Fin r => Fin (IZR (Int_part r))
  | _ => x
  end.

Definition nlog2 (x : num) : num :=
  match x with
  | Fin r =>
      match sgn r with
      | Pos => Fin (ln r / ln 2)
      | Zero => NInf
      | Neg => NaN
      end
  | PInf => PInf
  | NInf | NaN => NaN
  end.

Definition nacos (x : num) : num :=
  match x with
  | Fin r =>
      if Rle_dec (-1) r then if Rle_dec r 1 then Fin (acos r) else NaN
      else NaN
  | _ => NaN
  end.

Definition ntan (x : num) : num :=
  match x with
  | Fin r => if Req_dec_T (cos r) 0 then PInf else Fin (tan r)
  | _ => NaN
  end.

(** [x < y], [x > y] and [x === y] on numbers. *)
Definition nlt (x y : num) : bool :=
  match x, y with
  | NaN, _ | _, NaN => false
  | Fin a, Fin b => if Rlt_dec a b then true else false
  | NInf, NInf | PInf, _ | _, NInf => false
  | NInf, _ | _, PInf => true
  end.

Definition ngt (x y : num) : bool := nlt y x.

Definition nstrict_eq (x y : num) : bool :=
  match x, y with
  | Fin a, Fin b => if Req_dec_T a b then true else false
  | PInf, PInf | NInf, NInf => true
  | _, _ => false
  end.

(** [Math.min(a, b)] and [Math.max(a, b)]: [NaN] if either is [NaN]. *)
Definition nmin2 (x y : num) : num :=
  match x, y with
  | NaN, _ | _, NaN => NaN
  | _, _ => if nlt y x then y else x
  end.

Definition nmax2 (x y : num) : num :=
  match x, y with
  | NaN, _ | _, NaN => NaN
  | _, _ => if nlt x y then y else x
  end.

(** [Math.min(...values)] and [Math.max(...values)]; with no argument they
    are [+Infinity] and [-Infinity]. *)
Definition Math_min (values : list num) : num := fold_left nmin2 values PInf.
Definition Math_max (values : list num) : num := fold_left nmax2 values NInf.

(** A number literal or an array length used as a number. *)
Definition ofZ (z : Z) : num := Fin (IZR z).
Definition ofNat (n : nat) : num := Fin (INR n).

(** [a[i]] used as a number. *)
Definition at_ (a : list num) (i : nat) : num := nth i a NaN.

(** [a.reduce((s, v) => s + v, 0)]. *)
Definition sum (a : list num) : num := fold_left nadd a (Fin 0).

(** ** Exceptions

    The sources throw in three places: [new Array(n)] with a negative or
    fractional [n] ([RangeError]), the constructor of the [fft.js]
    transform for a size that is not a power of two above 1, and a
    property read on [undefined] ([TypeError]). *)

Inductive error : Type := RangeError | FFTSizeError | TypeError.

Inductive result (A : Type) : Type :=
| Ok (a : A)
| Err (e : error).

Arguments Ok {A} a.
Arguments Err {A} e.

Definition bind {A B : Type} (m : result A) (k : A -> result B) : result B :=
  match m with
  | Ok a => k a
  | Err e => Err e
  end.

Notation "x <- m ;; k" := (bind m (fun x => k))
  (at level 61, m at next level, right associativity).

Notation "' pat <- m ;; k" :=
  (bind m (fun x => match x with pat => k end))
  (at level 61, pat pattern, m at next level, right associativity).

(** ** JavaScript arrays *)

(** [a.slice(i, j)] for [0 <= i]. *)
Definition slice {A : Type} (a : list A) (i j : Z) : list A :=
  firstn (Z.to_nat (j - i)) (skipn (Z.to_nat i) a).

(** [a.map((v, i) => f v i)]. *)
Fixpoint mapi_from {A B : Type} (f : A -> nat -> B) (i : nat) (a : list A)
  : list B :=
  match a with
  | [] => []
  | v :: rest => f v i :: mapi_from f (S i) rest
  end.

Definition mapi {A B : Type} (f : A -> nat -> B) (a : list A) : list B :=
  mapi_from f 0 a.

(** [a.sort((a, b) => a - b)]: a stable insertion sort driven by the
    comparator.  On arrays without [NaN] every conforming engine returns
    this same array; with [NaN] the comparator is inconsistent and the
    standard leaves the order to the engine. *)
Definition compareFn (a b : num) : num := nsub a b.

Fixpoint sort_insert (v : num) (sorted : list num) : list num :=
  match sorted with
  | [] => [v]
  | w :: rest =>
      if ngt (compareFn v w) (Fin 0) then w :: sort_insert v rest
      else v :: sorted
  end.

Definition sort (a : list num) : list num := fold_right sort_insert [] a.

(** ** Data model of [Signal_Processor.ts] *)

Module SensorReading.
Record t : Type := mk { x : num; y : num; z : num; timestamp : num }.
End SensorReading.

(** [{ x, y, z, magnitude }]; the frequency-domain [Float32Array]s are
    number arrays as well (their rounding to single precision is not
    modelled). *)
Module Axes.
Record t : Type :=
  mk { x : list num; y : list num; z : list num; magnitude : list num }.
End Axes.

Record TimeDomain : Type :=
  { body : Axes.t; gravity : Axes.t; bodyJerk : Axes.t }.

Record FrequencyDomain : Type :=
  { fbody : Axes.t; fbodyJerk : Axes.t }.

(** [ProcessedSignals] of [Signal_Processor.ts]. *)
Record ProcessedSignals : Type :=
  { time : TimeDomain; frequency : FrequencyDomain }.

Record AxisResult : Type :=
  { bodyComponent : list num;
    gravityComponent : list num;
    jerk : list num;
    frequencyDomain : list num }.

(** ** Class [SignalProcessor] *)

Module SignalProcessor.

Definition samplingRate : Z := 50.
Definition windowSize : Z := 128.
Definition overlap : Z := 64.

Definition medianFilter (data : list num) (windowSize : nat) : list num :=
  let n := length data in
  map (fun i =>
         let lo := (i - windowSize / 2)%nat in
         let hi := Nat.min n (i + windowSize / 2 + 1) in
         let window := map (at_ data) (seq lo (hi - lo)) in
         let window := sort window in
         at_ window (length window / 2))
      (seq 0 n).

Record ButterworthCoefficients : Type :=
  { b0 : num; b1 : num; b2 : num; a1 : num; a2 : num }.

Definition butterworthCoefficients (cutoffFreq : num)
  : ButterworthCoefficients :=
  let wc := ntan (ndiv (nmul (Fin PI) cutoffFreq) (ofZ samplingRate)) in
  let k1 := nmul (nsqrt (Fin 2)) wc in
  let k2 := nmul wc wc in
  let a := nadd (nadd (Fin 1) k1) k2 in
  let b0 := ndiv k2 a in
  let b1 := nmul (Fin 2) b0 in
  let b2 := b0 in
  let a1 := ndiv (nmul (Fin 2) (nsub k2 (Fin 1))) a in
  let a2 := ndiv (nadd (nsub (Fin 1) k1) k2) a in
  {| b0 := b0; b1 := b1; b2 := b2; a1 := a1; a2 := a2 |}.

(** The filter loop: [x1 x2 y1 y2] are the two previous inputs and
    outputs. *)
Fixpoint butterworthLoop (c : ButterworthCoefficients) (data : list num)
  (x1 x2 y1 y2 : num) : list num :=
  match data with
  | [] => []
  | x0 :: rest =>
      let y0 :=
        nsub (nsub (nadd (nadd (nmul (b0 c) x0) (nmul (b1 c) x1))
                         (nmul (b2 c) x2))
                   (nmul (a1 c) y1))
             (nmul (a2 c) y2) in
      y0 :: butterworthLoop c rest x0 x1 y0 y1
  end.

Definition butterworthFilter (data : list num) (cutoffFreq : num) : list num :=
  butterworthLoop (butterworthCoefficients cutoffFreq) data
    (Fin 0) (Fin 0) (Fin 0) (Fin 0).

(** [new Array(data.length - 1)] throws on the empty array. *)
Definition calculateJerk (data timestamps : list num) : result (list num) :=
  match data with
  | [] => Err RangeError
  | _ :: _ =>
      Ok (map (fun i =>
                 let dt :=
                   ndiv (nsub (at_ timestamps i) (at_ timestamps (i - 1)))
                        (Fin 1000) in
                 ndiv (nsub (at_ data i) (at_ data (i - 1))) dt)
              (seq 1 (length data - 1)))
  end.

Definition calculateMagnitude (x y z : list num) : list num :=
  mapi (fun _ i =>
          nsqrt (nadd (nadd (npow (at_ x i) 2) (npow (at_ y i) 2))
                      (npow (at_ z i) 2)))
       x.

(** [Math.pow(2, Math.ceil(Math.log2(n)))] for an array length [n]; it is
    [0] for the empty array ([2 ** -Infinity]). *)
Definition fftSizeOf (n : nat) : Z :=
  match n with
  | O => 0
  | S _ => 2 ^ Z.log2_up (Z.of_nat n)
  end.

Definition isPowerOfTwo (size : Z) : bool :=
  (Z.land size (size - 1) =? 0)%Z.

(** The forward transform of the external library [fft.js], given by its
    contract: the discrete Fourier transform of [size] complex points,
    stored as interleaved real and imaginary parts.  The input built by
    [fft] has zero imaginary parts, so bin [k] is
    [sum_j x_j * (cos (2 pi j k / size), - sin (2 pi j k / size))]. *)
Definition dftBin (size : nat) (padded : list num) (k : nat) : list num :=
  let angle (j : nat) : R := 2 * PI * INR j * INR k / INR size in
  [ sum (map (fun j => nmul (at_ padded j) (Fin (cos (angle j))))
             (seq 0 size));
    sum (map (fun j => nmul (at_ padded j) (Fin (- sin (angle j))))
             (seq 0 size)) ].

Definition transform (size : nat) (padded : list num) : list num :=
  flat_map (dftBin size padded) (seq 0 size).

Definition fft (data : list num) : result (list num) :=
  let fftSize := fftSizeOf (length data) in
  if (fftSize <=? 1)%Z || negb (isPowerOfTwo fftSize) then Err FFTSizeError
  else
    let padded :=
      data ++ repeat (Fin 0) (Z.to_nat fftSize - length data) in
    Ok (transform (Z.to_nat fftSize) padded).

Definition processAxis (data timestamps : list num) (cutoffFreq : num)
  : result AxisResult :=
  let medianFiltered := medianFilter data 3 in
  let noiseFiltered := butterworthFilter medianFiltered cutoffFreq in
  let gravityComponent := butterworthFilter noiseFiltered (Fin (3 / 10)) in
  let bodyComponent :=
    mapi (fun val i => nsub val (at_ gravityComponent i)) noiseFiltered in
  jerk <- calculateJerk bodyComponent timestamps ;;
  frequencyDomain <- fft bodyComponent ;;
  Ok {| bodyComponent := bodyComponent;
        gravityComponent := gravityComponent;
        jerk := jerk;
        frequencyDomain := frequencyDomain |}.

(** The windowing loop at the head of [processSensorData]:
    [for (i = 0; i < readings.length - windowSize; i += windowSize / 2)].
    Every round advances [i] by 64, so [fuel] rounds with
    [fuel = readings.length] always reach the exit test. *)
Fixpoint windowingLoop (fuel : nat) (readings : list SensorReading.t)
  (i : Z) (windows : list (list SensorReading.t))
  : list (list SensorReading.t) :=
  match fuel with
  | O => windows
  | S fuel' =>
      if (i <? Z.of_nat (length readings) - windowSize)%Z then
        windowingLoop fuel' readings (i + windowSize / 2)%Z
          (windows ++ [slice readings i (i + windowSize)])
      else windows
  end.

Definition windowing (readings : list SensorReading.t)
  : list (list SensorReading.t) :=
  windowingLoop (length readings) readings 0 [].

(** The body of [processSensorData] after the windowing loop, with the
    local [windows] in scope. *)
Definition processSensorDataFrom (windows : list (list SensorReading.t))
  (readings : list SensorReading.t) (cutoffFreq : num)
  : result ProcessedSignals :=
  let timestamps := map SensorReading.timestamp readings in
  let xData := map SensorReading.x readings in
  let yData := map SensorReading.y readings in
  let zData := map SensorReading.z readings in
  xProcessed <- processAxis xData timestamps cutoffFreq ;;
  yProcessed <- processAxis yData timestamps cutoffFreq ;;
  zProcessed <- processAxis zData timestamps cutoffFreq ;;
  let bodyMag :=
    calculateMagnitude (bodyComponent xProcessed) (bodyComponent yProcessed)
      (bodyComponent zProcessed) in
  let gravityMag :=
    calculateMagnitude (gravityComponent xProcessed)
      (gravityComponent yProcessed) (gravityComponent zProcessed) in
  let bodyJerkMag :=
    calculateMagnitude (jerk xProcessed) (jerk yProcessed) (jerk zProcessed) in
  let bodyFreqMag :=
    calculateMagnitude (frequencyDomain xProcessed)
      (frequencyDomain yProcessed) (frequencyDomain zProcessed) in
  Ok {| time :=
          {| body :=
               Axes.mk (bodyComponent xProcessed) (bodyComponent yProcessed)
                 (bodyComponent zProcessed) bodyMag;
             gravity :=
               Axes.mk (gravityComponent xProcessed)
                 (gravityComponent yProcessed) (gravityComponent zProcessed)
                 gravityMag;
             bodyJerk :=
               Axes.mk (jerk xProcessed) (jerk yProcessed) (jerk zProcessed)
                 bodyJerkMag |};
        frequency :=
          {| fbody :=
               Axes.mk (frequencyDomain xProcessed)
                 (frequencyDomain yProcessed) (frequencyDomain zProcessed)
                 bodyFreqMag;
             fbodyJerk :=
               Axes.mk (frequencyDomain xProcessed)
                 (frequencyDomain yProcessed) (frequencyDomain zProcessed)
                 bodyFreqMag |} |}.

Definition processSensorData (readings : list SensorReading.t)
  (cutoffFreq : num) : result ProcessedSignals :=
  processSensorDataFrom (windowing readings) readings cutoffFreq.

End SignalProcessor.

(** ** JavaScript objects

    An object with string keys is an association list in insertion order,
    one entry per key: an assignment to a key that is present replaces
    its value in place, an assignment to a new key appends it.  (No key
    used by the sources is an array index, so [Object.keys] and
    [Object.entries] list the entries in this order.) *)

Definition object (V : Type) : Type := list (string * V).

Fixpoint obj_get {V : Type} (key : string) (o : object V) : option V :=
  match o with
  | [] => None
  | (k, v) :: rest => if String.eqb key k then Some v else obj_get key rest
  end.

Fixpoint obj_set {V : Type} (key : string) (value : V) (o : object V)
  : object V :=
  match o with
  | [] => [(key, value)]
  | (k, v) :: rest =>
      if String.eqb key k then (k, value) :: rest
      else (k, v) :: obj_set key value rest
  end.

Definition Object_keys {V : Type} (o : object V) : list string := map fst o.

(** [entries.forEach(([k, v]) => { o[k] = v })], also [{ ...o, ...entries }]. *)
Definition obj_assign {V : Type} (entries : object V) (o : object V)
  : object V :=
  fold_left (fun o kv => obj_set (fst kv) (snd kv) o) entries o.

(** A value read for use as a number: [undefined] counts as [NaN]. *)
Definition obj_num (key : string) (o : object num) : num :=
  match obj_get key o with
  | Some v => v
  | None => NaN
  end.

(** [a[i] = v] for an index inside the array. *)
Fixpoint update {A : Type} (i : nat) (v : A) (a : list A) : list A :=
  match a, i with
  | [], _ => []
  | _ :: rest, O => v :: rest
  | w :: rest, S j => w :: update j v rest
  end.

(** Decimal rendering of an index inside a template string. *)
Definition toString (n : nat) : string :=
  NilEmpty.string_of_uint (Nat.to_uint n).

(** A loop over an array whose body may throw. *)
Fixpoint foldM {A S : Type} (f : S -> A -> result S) (a : list A) (s : S)
  : result S :=
  match a with
  | [] => Ok s
  | v :: rest => s' <- f s v ;; foldM f rest s'
  end.

(** [a.map(f)] for a callback that may throw. *)
Fixpoint mapM {A B : Type} (f : A -> result B) (a : list A)
  : result (list B) :=
  match a with
  | [] => Ok []
  | v :: rest => w <- f v ;; ws <- mapM f rest ;; Ok (w :: ws)
  end.

Local Open Scope string_scope.

(** ** Class [FeatureExtractor] *)

Module FeatureExtractor.

(** [ProcessedSignals] of [featureExtraction.ts]: signal type, then axis,
    then the samples. *)
Definition ProcessedSignals : Type := object (object (list num)).

(** [processedSignals[signalType][axis]]: a [TypeError] when the signal
    type is absent, [undefined] when only the axis is. *)
Definition signalAxis (processedSignals : ProcessedSignals)
  (signalType axis : string) : result (option (list num)) :=
  match obj_get signalType processedSignals with
  | None => Err TypeError
  | Some group => Ok (obj_get axis group)
  end.

(** The same read where the code goes on to use the array ([.length],
    [.reduce], an index). *)
Definition signalArray (processedSignals : ProcessedSignals)
  (signalType axis : string) : result (list num) :=
  a <- signalAxis processedSignals signalType axis ;;
  match a with
  | None => Err TypeError
  | Some data => Ok data
  end.

(** [a.reduce((sum, val) => sum + Math.abs(val), 0)]. *)
Definition sumAbs (a : list num) : num :=
  fold_left (fun sum val => nadd sum (nabs val)) a (Fin 0).

(** An array index held in a number. *)
Definition toIndex (v : num) : option nat :=
  match v with
  | Fin r =>
      if Rle_dec 0 r then
        if Req_dec_T r (IZR (Int_part r)) then Some (Z.to_nat (Int_part r))
        else None
      else None
  | _ => None
  end.

(** [bins[binIdx]++].  [binIdx] is at most 9, so the write never falls
    beyond the ten bins; under [NaN] it creates a property and leaves the
    elements as they are. *)
Definition increment (bins : list num) (binIdx : num) : list num :=
  match toIndex binIdx with
  | Some i => update i (nadd (at_ bins i) (Fin 1)) bins
  | None => bins
  end.

(** [Math.floor(n * 0.25)] and [Math.floor(n * 0.75)] on a length. *)
Definition quarter (n : nat) : nat := (n / 4)%nat.
Definition threeQuarters (n : nat) : nat := (3 * n / 4)%nat.

(** The statistics block that opens both [calculateTimeFeatures] and
    [calculateFrequencyFeatures] (the source repeats it verbatim). *)
Definition statistics (data : list num) : object num :=
  let features : object num := [] in
  let n := ofNat (length data) in
  let mean := ndiv (sum data) n in
  let std :=
    nsqrt (ndiv (fold_left (fun a b => nadd a (npow (nsub b mean) 2)) data
                   (Fin 0)) n) in
  let sortedData := sort data in
  let median := at_ sortedData (length data / 2) in
  let energy :=
    ndiv (fold_left (fun a b => nadd a (nmul b b)) data (Fin 0)) n in
  let features := obj_set "mean()" mean features in
  let features := obj_set "std()" std features in
  let features :=
    obj_set "mad()"
      (ndiv (sum (map (fun x => nabs (nsub x median)) data)) n) features in
  let features := obj_set "max()" (Math_max data) features in
  let features := obj_set "min()" (Math_min data) features in
  let features := obj_set "energy()" energy features in
  let q1 := at_ sortedData (quarter (length data)) in
  let q3 := at_ sortedData (threeQuarters (length data)) in
  let features := obj_set "iqr()" (nsub q3 q1) features in
  let bins := repeat (Fin 0) 10 in
  let minVal := obj_num "min()" features in
  let range := nsub (obj_num "max()" features) minVal in
  let bins :=
    fold_left
      (fun bins val =>
         let binIdx :=
           nmin2 (nfloor (nmul (ndiv (nsub val minVal) range) (Fin 10)))
                 (Fin 9) in
         increment bins binIdx)
      data bins in
  let features :=
    obj_set "entropy()"
      (nneg (sum (map (fun count =>
                         let p := ndiv count n in
                         if nstrict_eq p (Fin 0) then Fin 0
                         else nmul p (nlog2 p))
                      bins)))
      features in
  features.

(** One order of Burg's recursion: the reflection coefficient from the
    forward and backward errors [f] and [b], then their update. *)
Definition burgStep (N : nat) (state : list num * list num * list num)
  (m : nat) : list num * list num * list num :=
  let '(ar, f, b) := state in
  let range := seq (m + 1) (N - (m + 1)) in
  let '(num, den) :=
    fold_left
      (fun '(num, den) n =>
         (nadd num (nmul (at_ f n) (at_ b (n - 1))),
          nadd den (nadd (npow (at_ f n) 2) (npow (at_ b (n - 1)) 2))))
      range (Fin 0, Fin 0) in
  let k := ndiv (nmul (Fin (-2)) num) den in
  let ar := update m k ar in
  let '(f, b) :=
    fold_left
      (fun '(f, b) n =>
         let temp := at_ f n in
         let f := update n (nadd (at_ f n) (nmul k (at_ b (n - 1)))) f in
         let b := update (n - 1) (nadd (at_ b (n - 1)) (nmul k temp)) b in
         (f, b))
      range (f, b) in
  (ar, f, b).

Definition calculateARCoefficients (data : list num) (order : nat)
  : list num :=
  let N := length data in
  let ar := repeat (Fin 0) order in
  let f := data in
  let b := data in
  let '(ar, _, _) := fold_left (burgStep N) (seq 0 order) (ar, f, b) in
  ar.

Definition calculateTimeFeatures (data : list num) : object num :=
  let features := statistics data in
  let arCoeffs := calculateARCoefficients data 4 in
  obj_assign
    (mapi (fun coeff i => ("arCoeff()" ++ toString (i + 1), coeff)) arCoeffs)
    features.

(** [magnitudes[i] = Math.sqrt(d[2 * i] ** 2 + d[2 * i + 1] ** 2)] for
    [i < d.length / 2]. *)
Definition magnitudeSpectrum (fftData : list num) : list num :=
  map (fun i =>
         nsqrt (nadd (npow (at_ fftData (2 * i)) 2)
                     (npow (at_ fftData (2 * i + 1)) 2)))
      (seq 0 (length fftData / 2)).

(** [a.indexOf(v)] as a number: the first strictly equal element, or -1. *)
Fixpoint indexOfFrom (v : num) (a : list num) (i : nat) : num :=
  match a with
  | [] => Fin (-1)
  | w :: rest => if nstrict_eq w v then ofNat i else indexOfFrom v rest (S i)
  end.

Definition indexOf (a : list num) (v : num) : num := indexOfFrom v a 0.

(** [new Array(fftData.length / 2)] throws on an odd length. *)
Definition calculateFrequencyFeatures (fftData : list num)
  : result (object num) :=
  let features := statistics fftData in
  if negb (Nat.even (length fftData)) then Err RangeError
  else
    let magnitudes := magnitudeSpectrum fftData in
    let '(weightedSum, totalMagnitude) :=
      fold_left
        (fun '(weightedSum, totalMagnitude) '(mag, i) =>
           (nadd weightedSum (nmul mag (ofNat i)), nadd totalMagnitude mag))
        (combine magnitudes (seq 0 (length magnitudes))) (Fin 0, Fin 0) in
    let features :=
      obj_set "meanFreq()" (ndiv weightedSum totalMagnitude) features in
    let features :=
      obj_set "maxInds" (indexOf magnitudes (Math_max magnitudes)) features in
    let len := ofNat (length magnitudes) in
    let magmean := ndiv (sum magnitudes) len in
    let magstd :=
      nsqrt (ndiv (fold_left (fun a b => nadd a (npow (nsub b magmean) 2))
                     magnitudes (Fin 0)) len) in
    let features :=
      obj_set "skewness()"
        (ndiv (fold_left
                 (fun a b => nadd a (npow (ndiv (nsub b magmean) magstd) 3))
                 magnitudes (Fin 0)) len)
        features in
    let features :=
      obj_set "kurtosis()"
        (nsub (ndiv (fold_left
                       (fun a b =>
                          nadd a (npow (ndiv (nsub b magmean) magstd) 4))
                       magnitudes (Fin 0)) len)
              (Fin 3))
        features in
    Ok features.

(** [signal1.reduce((sum, x, i) =>
      sum + (x - mean1) * (signal2[i] - mean2), 0)]. *)
Definition crossDeviation (signal1 signal2 : list num) (mean1 mean2 : num)
  : num :=
  fold_left (fun sum '(x, i) =>
               nadd sum (nmul (nsub x mean1) (nsub (at_ signal2 i) mean2)))
    (combine signal1 (seq 0 (length signal1))) (Fin 0).

(** [signal.reduce((sum, x) => sum + (x - mean) ** 2, 0)]. *)
Definition squaredDeviation (signal : list num) (mean : num) : num :=
  fold_left (fun sum x => nadd sum (npow (nsub x mean) 2)) signal (Fin 0).

Definition calculateCorrelation (signal1 signal2 : list num) : num :=
  let mean1 := ndiv (sum signal1) (ofNat (length signal1)) in
  let mean2 := ndiv (sum signal2) (ofNat (length signal2)) in
  let numerator := crossDeviation signal1 signal2 mean1 mean2 in
  let denominator :=
    nsqrt (nmul (squaredDeviation signal1 mean1)
                (squaredDeviation signal2 mean2)) in
  ndiv numerator denominator.

(** The fourteen bands, as [(start, end)]. *)
Definition bands : list (nat * nat) :=
  [ (0, 8); (8, 16); (16, 24); (24, 32); (32, 40); (40, 48); (48, 56);
    (56, 64); (0, 16); (16, 32); (32, 48); (48, 64); (0, 24); (24, 48) ]%nat.

Definition calculateBandsEnergy (magnitudes : list num) (numBands : nat)
  : object num :=
  let bandSize := (length magnitudes / numBands)%nat in
  fold_left
    (fun features '(bandStart, bandEnd) =>
       let start := (bandStart * bandSize)%nat in
       let end_ := (bandEnd * bandSize)%nat in
       let energy :=
         ndiv (fold_left (fun sum mag => nadd sum (npow mag 2))
                 (slice magnitudes (Z.of_nat start) (Z.of_nat end_)) (Fin 0))
              (ofZ (Z.of_nat end_ - Z.of_nat start)) in
       obj_set ("bandsEnergy()-" ++ toString (bandStart + 1) ++ ","
                ++ toString bandEnd) energy features)
    bands [].

(** The body of [extractFeatures] for one axis of a 3-axis time-domain
    signal; the loop state is the [features] object and the running [sma]. *)
Definition timeAxisStep (processedSignals : ProcessedSignals)
  (signalType : string) (state : object num * num) (axis : string)
  : result (object num * num) :=
  let '(features, sma) := state in
  a <- signalAxis processedSignals signalType axis ;;
  match a with
  | None => Ok (features, sma)
  | Some axisData =>
      let sma := nadd sma (sumAbs axisData) in
      let timeFeatures := calculateTimeFeatures axisData in
      Ok (obj_assign
            (map (fun '(feature, value) =>
                    (signalType ++ "-" ++ feature ++ "-" ++ axis, value))
               timeFeatures)
            features,
          sma)
  end.

Definition timeSignalStep (processedSignals : ProcessedSignals)
  (features : object num) (signalType : string) : result (object num) :=
  let sma := Fin 0 in
  '(features, sma) <-
    foldM (timeAxisStep processedSignals signalType) ["x"; "y"; "z"]
      (features, sma) ;;
  x <- signalArray processedSignals signalType "x" ;;
  let n := ofNat (length x) in
  let features := obj_set (signalType ++ "-sma()") (ndiv sma n) features in
  y <- signalArray processedSignals signalType "y" ;;
  let features :=
    obj_set (signalType ++ "-correlation()-x,y") (calculateCorrelation x y)
      features in
  z <- signalArray processedSignals signalType "z" ;;
  let features :=
    obj_set (signalType ++ "-correlation()-x,z") (calculateCorrelation x z)
      features in
  let features :=
    obj_set (signalType ++ "-correlation()-y,z") (calculateCorrelation y z)
      features in
  Ok features.

Definition timeMagnitudeStep (processedSignals : ProcessedSignals)
  (features : object num) (signalType : string) : result (object num) :=
  let sma := Fin 0 in
  a <- signalAxis processedSignals signalType "mag" ;;
  let '(features, sma) :=
    match a with
    | None => (features, sma)
    | Some axisData =>
        let sma := nadd sma (sumAbs axisData) in
        let timeFeatures := calculateTimeFeatures axisData in
        (obj_assign
           (map (fun '(feature, value) =>
                   (signalType ++ "-" ++ feature, value))
              timeFeatures)
           features,
         sma)
    end in
  mag <- signalArray processedSignals signalType "mag" ;;
  let n := ofNat (length mag) in
  Ok (obj_set (signalType ++ "-sma()") (ndiv sma n) features).

Definition frequencyAxisStep (processedSignals : ProcessedSignals)
  (signalType : string) (state : object num * num) (axis : string)
  : result (object num * num) :=
  let '(features, sma) := state in
  a <- signalAxis processedSignals signalType axis ;;
  match a with
  | None => Ok (features, sma)
  | Some axisData =>
      let sma := nadd sma (sumAbs axisData) in
      freqFeatures <- calculateFrequencyFeatures axisData ;;
      let features :=
        obj_assign
          (map (fun '(feature, value) =>
                  (signalType ++ "-" ++ feature ++ "-" ++ axis, value))
             freqFeatures)
          features in
      x <- signalArray processedSignals signalType "x" ;;
      let n := ofNat (length x) in
      let features := obj_set (signalType ++ "-sma()") (ndiv sma n) features in
      let magnitudes := magnitudeSpectrum axisData in
      let bandFeatures := calculateBandsEnergy magnitudes 64 in
      Ok (obj_assign
            (map (fun '(feature, value) =>
                    (signalType ++ "-" ++ feature ++ "-" ++ axis, value))
               bandFeatures)
            features,
          sma)
  end.

Definition frequencySignalStep (processedSignals : ProcessedSignals)
  (features : object num) (signalType : string) : result (object num) :=
  let sma := Fin 0 in
  '(features, _) <-
    foldM (frequencyAxisStep processedSignals signalType) ["x"; "y"; "z"]
      (features, sma) ;;
  Ok features.

Definition frequencyMagnitudeStep (processedSignals : ProcessedSignals)
  (features : object num) (signalType : string) : result (object num) :=
  let sma := Fin 0 in
  a <- signalAxis processedSignals signalType "mag" ;;
  match a with
  | None =>
      mag <- signalArray processedSignals signalType "mag" ;;
      Ok (obj_set (signalType ++ "-sma()") (ndiv sma (ofNat (length mag)))
            features)
  | Some axisData =>
      let sma := nadd sma (sumAbs axisData) in
      timeFeatures <- calculateFrequencyFeatures axisData ;;
      let features :=
        obj_assign
          (map (fun '(feature, value) =>
                  (signalType ++ "-" ++ feature, value))
             timeFeatures)
          features in
      mag <- signalArray processedSignals signalType "mag" ;;
      Ok (obj_set (signalType ++ "-sma()") (ndiv sma (ofNat (length mag)))
            features)
  end.

Definition extractFeatures (processedSignals : ProcessedSignals)
  : result (object num) :=
  let features : object num := [] in
  features <-
    foldM (timeSignalStep processedSignals)
      ["tBodyAcc"; "tGravityAcc"; "tBodyAccJerk"; "tBodyGyro";
       "tBodyGyroJerk"] features ;;
  features <-
    foldM (timeMagnitudeStep processedSignals)
      ["tBodyAccMag"; "tGravityAccMag"; "tBodyAccJerkMag"; "tBodyGyroMag";
       "tBodyGyroJerkMag"] features ;;
  features <-
    foldM (frequencySignalStep processedSignals)
      ["fBodyAcc"; "fBodyAccJerk"; "fBodyGyro"] features ;;
  features <-
    foldM (frequencyMagnitudeStep processedSignals)
      ["fBodyAccMag"; "fBodyBodyAccJerkMag"; "fBodyBodyGyroMag";
       "fBodyBodyGyroJerkMag"] features ;;
  Ok features.

Definition calculateAngle (vector1 vector2 : list num) : num :=
  let dotProduct :=
    fold_left (fun sum '(val, i) => nadd sum (nmul val (at_ vector2 i)))
      (combine vector1 (seq 0 (length vector1))) (Fin 0) in
  let magnitude1 :=
    nsqrt (fold_left (fun sum val => nadd sum (npow val 2)) vector1 (Fin 0)) in
  let magnitude2 :=
    nsqrt (fold_left (fun sum val => nadd sum (npow val 2)) vector2 (Fin 0)) in
  nacos (ndiv dotProduct (nmul magnitude1 magnitude2)).

(** [a.reduce((a, b) => a + b, 0) / a.length]. *)
Definition meanOf (a : list num) : num := ndiv (sum a) (ofNat (length a)).

(** The operands of the angle features, as [extractAngleFeatures] builds
    them. *)
Record AngleVectors : Type :=
  { gravity : list num;
    gravityMean : list num;
    tBodyAccMean : list num;
    tBodyAccJerkMean : list num;
    tBodyGyroMean : list num;
    tBodyGyroJerkMean : list num }.

Definition angleVectors (processedSignals : ProcessedSignals)
  : result AngleVectors :=
  gx <- signalArray processedSignals "tGravityAcc" "x" ;;
  gy <- signalArray processedSignals "tGravityAcc" "y" ;;
  gz <- signalArray processedSignals "tGravityAcc" "z" ;;
  let gravity := [at_ gx 0; at_ gy 0; at_ gz 0] in
  let gravityMean :=
    [ meanOf gx; meanOf gy; ndiv (sum gz) (ofNat (length gy)) ] in
  ax <- signalArray processedSignals "tBodyAcc" "x" ;;
  ay <- signalArray processedSignals "tBodyAcc" "y" ;;
  az <- signalArray processedSignals "tBodyAcc" "z" ;;
  let tBodyAccMean := [meanOf ax; meanOf ay; meanOf az] in
  jx <- signalArray processedSignals "tBodyAccJerk" "x" ;;
  jy <- signalArray processedSignals "tBodyAccJerk" "y" ;;
  jz <- signalArray processedSignals "tBodyAccJerk" "z" ;;
  let tBodyAccJerkMean := [meanOf jx; meanOf jy; meanOf jz] in
  wx <- signalArray processedSignals "tBodyGyro" "x" ;;
  wy <- signalArray processedSignals "tBodyGyro" "y" ;;
  wz <- signalArray processedSignals "tBodyGyro" "z" ;;
  let tBodyGyroMean := [meanOf wx; meanOf wy; meanOf wz] in
  vx <- signalArray processedSignals "tBodyGyroJerk" "x" ;;
  vy <- signalArray processedSignals "tBodyGyroJerk" "y" ;;
  vz <- signalArray processedSignals "tBodyGyroJerk" "z" ;;
  let tBodyGyroJerkMean := [meanOf vx; meanOf vy; meanOf vz] in
  Ok {| gravity := gravity;
        gravityMean := gravityMean;
        tBodyAccMean := tBodyAccMean;
        tBodyAccJerkMean := tBodyAccJerkMean;
        tBodyGyroMean := tBodyGyroMean;
        tBodyGyroJerkMean := tBodyGyroJerkMean |}.

Definition extractAngleFeatures (processedSignals : ProcessedSignals)
  : result (object num) :=
  let features : object num := [] in
  v <- angleVectors processedSignals ;;
  let features :=
    obj_set "angle(tBodyAccMean,gravity)"
      (calculateAngle (tBodyAccMean v) (gravity v)) features in
  let features :=
    obj_set "angle(tBodyAccJerkMean,gravityMean)"
      (calculateAngle (tBodyAccJerkMean v) (gravityMean v)) features in
  let features :=
    obj_set "angle(tBodyGyroMean,gravityMean)"
      (calculateAngle (tBodyGyroMean v) (gravityMean v)) features in
  let features :=
    obj_set "angle(tBodyGyroJerkMean,gravityMean)"
      (calculateAngle (tBodyGyroJerkMean v) (gravityMean v)) features in
  let features :=
    obj_set "angle(x,gravityMean)"
      (calculateAngle [Fin 1; Fin 0; Fin 0] (gravityMean v)) features in
  let features :=
    obj_set "angle(y,gravityMean)"
      (calculateAngle [Fin 0; Fin 1; Fin 0] (gravityMean v)) features in
  let features :=
    obj_set "angle(z,gravityMean)"
      (calculateAngle [Fin 0; Fin 0; Fin 1] (gravityMean v)) features in
  Ok features.

End FeatureExtractor.

(** ** [app/(tabs)/index.tsx] *)

Definition FeatureRow : Type := object num.

(** [normalizeFeatures].  [Object.keys(featureRows[0])] throws on an empty
    batch; [minMax[key]] is destructured, which would throw on a key
    missing from [minMax]. *)
Definition normalizeFeatures (featureRows : list FeatureRow)
  : result (list FeatureRow) :=
  match featureRows with
  | [] => Err TypeError
  | first :: _ =>
      let normalizedRows := featureRows in
      let featureKeys := Object_keys first in
      let minMax : object (num * num) :=
        fold_left
          (fun acc key =>
             let values := map (obj_num key) featureRows in
             obj_set key (Math_min values, Math_max values) acc)
          featureKeys [] in
      mapM
        (fun row =>
           let normalizedRow := obj_assign row [] in
           foldM
               (fun normalizedRow key =>
                  match obj_get key minMax with
                  | None => Err TypeError
                  | Some (min, max) =>
                      let value :=
                        if nstrict_eq max min then Fin 0
                        else
                          nadd (Fin (-1))
                            (ndiv (nmul (Fin 2) (nsub (obj_num key row) min))
                                  (nsub max min)) in
                      Ok (obj_set key value normalizedRow)
                  end)
             featureKeys normalizedRow)
        normalizedRows
  end.

(** The canonical list of 561 feature names, in output order. *)
Definition feature_list : list string :=
  [ "tBodyAcc-mean()-x"; "tBodyAcc-mean()-y"; "tBodyAcc-mean()-z"
  ; "tBodyAcc-std()-x"; "tBodyAcc-std()-y"; "tBodyAcc-std()-z"
  ; "tBodyAcc-mad()-x"; "tBodyAcc-mad()-y"; "tBodyAcc-mad()-z"
  ; "tBodyAcc-max()-x"; "tBodyAcc-max()-y"; "tBodyAcc-max()-z"
  ; "tBodyAcc-min()-x"; "tBodyAcc-min()-y"; "tBodyAcc-min()-z"
  ; "tBodyAcc-sma()"; "tBodyAcc-energy()-x"; "tBodyAcc-energy()-y"
  ; "tBodyAcc-energy()-z"; "tBodyAcc-iqr()-x"; "tBodyAcc-iqr()-y"
  ; "tBodyAcc-iqr()-z"; "tBodyAcc-entropy()-x"; "tBodyAcc-entropy()-y"
  ; "tBodyAcc-entropy()-z"; "tBodyAcc-arCoeff()1-x"; "tBodyAcc-arCoeff()2-x"
  ; "tBodyAcc-arCoeff()3-x"; "tBodyAcc-arCoeff()4-x"
  ; "tBodyAcc-arCoeff()1-y"; "tBodyAcc-arCoeff()2-y"
  ; "tBodyAcc-arCoeff()3-y"; "tBodyAcc-arCoeff()4-y"
  ; "tBodyAcc-arCoeff()1-z"; "tBodyAcc-arCoeff()2-z"
  ; "tBodyAcc-arCoeff()3-z"; "tBodyAcc-arCoeff()4-z"
  ; "tBodyAcc-correlation()-x,y"; "tBodyAcc-correlation()-x,z"
  ; "tBodyAcc-correlation()-y,z"; "tGravityAcc-mean()-x"
  ; "tGravityAcc-mean()-y"; "tGravityAcc-mean()-z"; "tGravityAcc-std()-x"
  ; "tGravityAcc-std()-y"; "tGravityAcc-std()-z"; "tGravityAcc-mad()-x"
  ; "tGravityAcc-mad()-y"; "tGravityAcc-mad()-z"; "tGravityAcc-max()-x"
  ; "tGravityAcc-max()-y"; "tGravityAcc-max()-z"; "tGravityAcc-min()-x"
  ; "tGravityAcc-min()-y"; "tGravityAcc-min()-z"; "tGravityAcc-sma()"
  ; "tGravityAcc-energy()-x"; "tGravityAcc-energy()-y"
  ; "tGravityAcc-energy()-z"; "tGravityAcc-iqr()-x"; "tGravityAcc-iqr()-y"
  ; "tGravityAcc-iqr()-z"; "tGravityAcc-entropy()-x"
  ; "tGravityAcc-entropy()-y"; "tGravityAcc-entropy()-z"
  ; "tGravityAcc-arCoeff()1-x"; "tGravityAcc-arCoeff()2-x"
  ; "tGravityAcc-arCoeff()3-x"; "tGravityAcc-arCoeff()4-x"
  ; "tGravityAcc-arCoeff()1-y"; "tGravityAcc-arCoeff()2-y"
  ; "tGravityAcc-arCoeff()3-y"; "tGravityAcc-arCoeff()4-y"
  ; "tGravityAcc-arCoeff()1-z"; "tGravityAcc-arCoeff()2-z"
  ; "tGravityAcc-arCoeff()3-z"; "tGravityAcc-arCoeff()4-z"
  ; "tGravityAcc-correlation()-x,y"; "tGravityAcc-correlation()-x,z"
  ; "tGravityAcc-correlation()-y,z"; "tBodyAccJerk-mean()-x"
  ; "tBodyAccJerk-mean()-y"; "tBodyAccJerk-mean()-z"; "tBodyAccJerk-std()-x"
  ; "tBodyAccJerk-std()-y"; "tBodyAccJerk-std()-z"; "tBodyAccJerk-mad()-x"
  ; "tBodyAccJerk-mad()-y"; "tBodyAccJerk-mad()-z"; "tBodyAccJerk-max()-x"
  ; "tBodyAccJerk-max()-y"; "tBodyAccJerk-max()-z"; "tBodyAccJerk-min()-x"
  ; "tBodyAccJerk-min()-y"; "tBodyAccJerk-min()-z"; "tBodyAccJerk-sma()"
  ; "tBodyAccJerk-energy()-x"; "tBodyAccJerk-energy()-y"
  ; "tBodyAccJerk-energy()-z"; "tBodyAccJerk-iqr()-x"
  ; "tBodyAccJerk-iqr()-y"; "tBodyAccJerk-iqr()-z"
  ; "tBodyAccJerk-entropy()-x"; "tBodyAccJerk-entropy()-y"
  ; "tBodyAccJerk-entropy()-z"; "tBodyAccJerk-arCoeff()1-x"
  ; "tBodyAccJerk-arCoeff()2-x"; "tBodyAccJerk-arCoeff()3-x"
  ; "tBodyAccJerk-arCoeff()4-x"; "tBodyAccJerk-arCoeff()1-y"
  ; "tBodyAccJerk-arCoeff()2-y"; "tBodyAccJerk-arCoeff()3-y"
  ; "tBodyAccJerk-arCoeff()4-y"; "tBodyAccJerk-arCoeff()1-z"
  ; "tBodyAccJerk-arCoeff()2-z"; "tBodyAccJerk-arCoeff()3-z"
  ; "tBodyAccJerk-arCoeff()4-z"; "tBodyAccJerk-correlation()-x,y"
  ; "tBodyAccJerk-correlation()-x,z"; "tBodyAccJerk-correlation()-y,z"
  ; "tBodyGyro-mean()-x"; "tBodyGyro-mean()-y"; "tBodyGyro-mean()-z"
  ; "tBodyGyro-std()-x"; "tBodyGyro-std()-y"; "tBodyGyro-std()-z"
  ; "tBodyGyro-mad()-x"; "tBodyGyro-mad()-y"; "tBodyGyro-mad()-z"
  ; "tBodyGyro-max()-x"; "tBodyGyro-max()-y"; "tBodyGyro-max()-z"
  ; "tBodyGyro-min()-x"; "tBodyGyro-min()-y"; "tBodyGyro-min()-z"
  ; "tBodyGyro-sma()"; "tBodyGyro-energy()-x"; "tBodyGyro-energy()-y"
  ; "tBodyGyro-energy()-z"; "tBodyGyro-iqr()-x"; "tBodyGyro-iqr()-y"
  ; "tBodyGyro-iqr()-z"; "tBodyGyro-entropy()-x"; "tBodyGyro-entropy()-y"
  ; "tBodyGyro-entropy()-z"; "tBodyGyro-arCoeff()1-x"
  ; "tBodyGyro-arCoeff()2-x"; "tBodyGyro-arCoeff()3-x"
  ; "tBodyGyro-arCoeff()4-x"; "tBodyGyro-arCoeff()1-y"
  ; "tBodyGyro-arCoeff()2-y"; "tBodyGyro-arCoeff()3-y"
  ; "tBodyGyro-arCoeff()4-y"; "tBodyGyro-arCoeff()1-z"
  ; "tBodyGyro-arCoeff()2-z"; "tBodyGyro-arCoeff()3-z"
  ; "tBodyGyro-arCoeff()4-z"; "tBodyGyro-correlation()-x,y"
  ; "tBodyGyro-correlation()-x,z"; "tBodyGyro-correlation()-y,z"
  ; "tBodyGyroJerk-mean()-x"; "tBodyGyroJerk-mean()-y"
  ; "tBodyGyroJerk-mean()-z"; "tBodyGyroJerk-std()-x"
  ; "tBodyGyroJerk-std()-y"; "tBodyGyroJerk-std()-z"
  ; "tBodyGyroJerk-mad()-x"; "tBodyGyroJerk-mad()-y"
  ; "tBodyGyroJerk-mad()-z"; "tBodyGyroJerk-max()-x"
  ; "tBodyGyroJerk-max()-y"; "tBodyGyroJerk-max()-z"
  ; "tBodyGyroJerk-min()-x"; "tBodyGyroJerk-min()-y"
  ; "tBodyGyroJerk-min()-z"; "tBodyGyroJerk-sma()"
  ; "tBodyGyroJerk-energy()-x"; "tBodyGyroJerk-energy()-y"
  ; "tBodyGyroJerk-energy()-z"; "tBodyGyroJerk-iqr()-x"
  ; "tBodyGyroJerk-iqr()-y"; "tBodyGyroJerk-iqr()-z"
  ; "tBodyGyroJerk-entropy()-x"; "tBodyGyroJerk-entropy()-y"
  ; "tBodyGyroJerk-entropy()-z"; "tBodyGyroJerk-arCoeff()1-x"
  ; "tBodyGyroJerk-arCoeff()2-x"; "tBodyGyroJerk-arCoeff()3-x"
  ; "tBodyGyroJerk-arCoeff()4-x"; "tBodyGyroJerk-arCoeff()1-y"
  ; "tBodyGyroJerk-arCoeff()2-y"; "tBodyGyroJerk-arCoeff()3-y"
  ; "tBodyGyroJerk-arCoeff()4-y"; "tBodyGyroJerk-arCoeff()1-z"
  ; "tBodyGyroJerk-arCoeff()2-z"; "tBodyGyroJerk-arCoeff()3-z"
  ; "tBodyGyroJerk-arCoeff()4-z"; "tBodyGyroJerk-correlation()-x,y"
  ; "tBodyGyroJerk-correlation()-x,z"; "tBodyGyroJerk-correlation()-y,z"
  ; "tBodyAccMag-mean()"; "tBodyAccMag-std()"; "tBodyAccMag-mad()"
  ; "tBodyAccMag-max()"; "tBodyAccMag-min()"; "tBodyAccMag-sma()"
  ; "tBodyAccMag-energy()"; "tBodyAccMag-iqr()"; "tBodyAccMag-entropy()"
  ; "tBodyAccMag-arCoeff()1"; "tBodyAccMag-arCoeff()2"
  ; "tBodyAccMag-arCoeff()3"; "tBodyAccMag-arCoeff()4"
  ; "tGravityAccMag-mean()"; "tGravityAccMag-std()"; "tGravityAccMag-mad()"
  ; "tGravityAccMag-max()"; "tGravityAccMag-min()"; "tGravityAccMag-sma()"
  ; "tGravityAccMag-energy()"; "tGravityAccMag-iqr()"
  ; "tGravityAccMag-entropy()"; "tGravityAccMag-arCoeff()1"
  ; "tGravityAccMag-arCoeff()2"; "tGravityAccMag-arCoeff()3"
  ; "tGravityAccMag-arCoeff()4"; "tBodyAccJerkMag-mean()"
  ; "tBodyAccJerkMag-std()"; "tBodyAccJerkMag-mad()"
  ; "tBodyAccJerkMag-max()"; "tBodyAccJerkMag-min()"
  ; "tBodyAccJerkMag-sma()"; "tBodyAccJerkMag-energy()"
  ; "tBodyAccJerkMag-iqr()"; "tBodyAccJerkMag-entropy()"
  ; "tBodyAccJerkMag-arCoeff()1"; "tBodyAccJerkMag-arCoeff()2"
  ; "tBodyAccJerkMag-arCoeff()3"; "tBodyAccJerkMag-arCoeff()4"
  ; "tBodyGyroMag-mean()"; "tBodyGyroMag-std()"; "tBodyGyroMag-mad()"
  ; "tBodyGyroMag-max()"; "tBodyGyroMag-min()"; "tBodyGyroMag-sma()"
  ; "tBodyGyroMag-energy()"; "tBodyGyroMag-iqr()"; "tBodyGyroMag-entropy()"
  ; "tBodyGyroMag-arCoeff()1"; "tBodyGyroMag-arCoeff()2"
  ; "tBodyGyroMag-arCoeff()3"; "tBodyGyroMag-arCoeff()4"
  ; "tBodyGyroJerkMag-mean()"; "tBodyGyroJerkMag-std()"
  ; "tBodyGyroJerkMag-mad()"; "tBodyGyroJerkMag-max()"
  ; "tBodyGyroJerkMag-min()"; "tBodyGyroJerkMag-sma()"
  ; "tBodyGyroJerkMag-energy()"; "tBodyGyroJerkMag-iqr()"
  ; "tBodyGyroJerkMag-entropy()"; "tBodyGyroJerkMag-arCoeff()1"
  ; "tBodyGyroJerkMag-arCoeff()2"; "tBodyGyroJerkMag-arCoeff()3"
  ; "tBodyGyroJerkMag-arCoeff()4"; "fBodyAcc-mean()-x"; "fBodyAcc-mean()-y"
  ; "fBodyAcc-mean()-z"; "fBodyAcc-std()-x"; "fBodyAcc-std()-y"
  ; "fBodyAcc-std()-z"; "fBodyAcc-mad()-x"; "fBodyAcc-mad()-y"
  ; "fBodyAcc-mad()-z"; "fBodyAcc-max()-x"; "fBodyAcc-max()-y"
  ; "fBodyAcc-max()-z"; "fBodyAcc-min()-x"; "fBodyAcc-min()-y"
  ; "fBodyAcc-min()-z"; "fBodyAcc-sma()"; "fBodyAcc-energy()-x"
  ; "fBodyAcc-energy()-y"; "fBodyAcc-energy()-z"; "fBodyAcc-iqr()-x"
  ; "fBodyAcc-iqr()-y"; "fBodyAcc-iqr()-z"; "fBodyAcc-entropy()-x"
  ; "fBodyAcc-entropy()-y"; "fBodyAcc-entropy()-z"; "fBodyAcc-maxInds-x"
  ; "fBodyAcc-maxInds-y"; "fBodyAcc-maxInds-z"; "fBodyAcc-meanFreq()-x"
  ; "fBodyAcc-meanFreq()-y"; "fBodyAcc-meanFreq()-z"
  ; "fBodyAcc-skewness()-x"; "fBodyAcc-kurtosis()-x"
  ; "fBodyAcc-skewness()-y"; "fBodyAcc-kurtosis()-y"
  ; "fBodyAcc-skewness()-z"; "fBodyAcc-kurtosis()-z"
  ; "fBodyAcc-bandsEnergy()-1,8-x"; "fBodyAcc-bandsEnergy()-9,16-x"
  ; "fBodyAcc-bandsEnergy()-17,24-x"; "fBodyAcc-bandsEnergy()-25,32-x"
  ; "fBodyAcc-bandsEnergy()-33,40-x"; "fBodyAcc-bandsEnergy()-41,48-x"
  ; "fBodyAcc-bandsEnergy()-49,56-x"; "fBodyAcc-bandsEnergy()-57,64-x"
  ; "fBodyAcc-bandsEnergy()-1,16-x"; "fBodyAcc-bandsEnergy()-17,32-x"
  ; "fBodyAcc-bandsEnergy()-33,48-x"; "fBodyAcc-bandsEnergy()-49,64-x"
  ; "fBodyAcc-bandsEnergy()-1,24-x"; "fBodyAcc-bandsEnergy()-25,48-x"
  ; "fBodyAcc-bandsEnergy()-1,8-y"; "fBodyAcc-bandsEnergy()-9,16-y"
  ; "fBodyAcc-bandsEnergy()-17,24-y"; "fBodyAcc-bandsEnergy()-25,32-y"
  ; "fBodyAcc-bandsEnergy()-33,40-y"; "fBodyAcc-bandsEnergy()-41,48-y"
  ; "fBodyAcc-bandsEnergy()-49,56-y"; "fBodyAcc-bandsEnergy()-57,64-y"
  ; "fBodyAcc-bandsEnergy()-1,16-y"; "fBodyAcc-bandsEnergy()-17,32-y"
  ; "fBodyAcc-bandsEnergy()-33,48-y"; "fBodyAcc-bandsEnergy()-49,64-y"
  ; "fBodyAcc-bandsEnergy()-1,24-y"; "fBodyAcc-bandsEnergy()-25,48-y"
  ; "fBodyAcc-bandsEnergy()-1,8-z"; "fBodyAcc-bandsEnergy()-9,16-z"
  ; "fBodyAcc-bandsEnergy()-17,24-z"; "fBodyAcc-bandsEnergy()-25,32-z"
  ; "fBodyAcc-bandsEnergy()-33,40-z"; "fBodyAcc-bandsEnergy()-41,48-z"
  ; "fBodyAcc-bandsEnergy()-49,56-z"; "fBodyAcc-bandsEnergy()-57,64-z"
  ; "fBodyAcc-bandsEnergy()-1,16-z"; "fBodyAcc-bandsEnergy()-17,32-z"
  ; "fBodyAcc-bandsEnergy()-33,48-z"; "fBodyAcc-bandsEnergy()-49,64-z"
  ; "fBodyAcc-bandsEnergy()-1,24-z"; "fBodyAcc-bandsEnergy()-25,48-z"
  ; "fBodyAccJerk-mean()-x"; "fBodyAccJerk-mean()-y"
  ; "fBodyAccJerk-mean()-z"; "fBodyAccJerk-std()-x"; "fBodyAccJerk-std()-y"
  ; "fBodyAccJerk-std()-z"; "fBodyAccJerk-mad()-x"; "fBodyAccJerk-mad()-y"
  ; "fBodyAccJerk-mad()-z"; "fBodyAccJerk-max()-x"; "fBodyAccJerk-max()-y"
  ; "fBodyAccJerk-max()-z"; "fBodyAccJerk-min()-x"; "fBodyAccJerk-min()-y"
  ; "fBodyAccJerk-min()-z"; "fBodyAccJerk-sma()"; "fBodyAccJerk-energy()-x"
  ; "fBodyAccJerk-energy()-y"; "fBodyAccJerk-energy()-z"
  ; "fBodyAccJerk-iqr()-x"; "fBodyAccJerk-iqr()-y"; "fBodyAccJerk-iqr()-z"
  ; "fBodyAccJerk-entropy()-x"; "fBodyAccJerk-entropy()-y"
  ; "fBodyAccJerk-entropy()-z"; "fBodyAccJerk-maxInds-x"
  ; "fBodyAccJerk-maxInds-y"; "fBodyAccJerk-maxInds-z"
  ; "fBodyAccJerk-meanFreq()-x"; "fBodyAccJerk-meanFreq()-y"
  ; "fBodyAccJerk-meanFreq()-z"; "fBodyAccJerk-skewness()-x"
  ; "fBodyAccJerk-kurtosis()-x"; "fBodyAccJerk-skewness()-y"
  ; "fBodyAccJerk-kurtosis()-y"; "fBodyAccJerk-skewness()-z"
  ; "fBodyAccJerk-kurtosis()-z"; "fBodyAccJerk-bandsEnergy()-1,8-x"
  ; "fBodyAccJerk-bandsEnergy()-9,16-x"
  ; "fBodyAccJerk-bandsEnergy()-17,24-x"
  ; "fBodyAccJerk-bandsEnergy()-25,32-x"
  ; "fBodyAccJerk-bandsEnergy()-33,40-x"
  ; "fBodyAccJerk-bandsEnergy()-41,48-x"
  ; "fBodyAccJerk-bandsEnergy()-49,56-x"
  ; "fBodyAccJerk-bandsEnergy()-57,64-x"
  ; "fBodyAccJerk-bandsEnergy()-1,16-x"
  ; "fBodyAccJerk-bandsEnergy()-17,32-x"
  ; "fBodyAccJerk-bandsEnergy()-33,48-x"
  ; "fBodyAccJerk-bandsEnergy()-49,64-x"
  ; "fBodyAccJerk-bandsEnergy()-1,24-x"
  ; "fBodyAccJerk-bandsEnergy()-25,48-x"; "fBodyAccJerk-bandsEnergy()-1,8-y"
  ; "fBodyAccJerk-bandsEnergy()-9,16-y"
  ; "fBodyAccJerk-bandsEnergy()-17,24-y"
  ; "fBodyAccJerk-bandsEnergy()-25,32-y"
  ; "fBodyAccJerk-bandsEnergy()-33,40-y"
  ; "fBodyAccJerk-bandsEnergy()-41,48-y"
  ; "fBodyAccJerk-bandsEnergy()-49,56-y"
  ; "fBodyAccJerk-bandsEnergy()-57,64-y"
  ; "fBodyAccJerk-bandsEnergy()-1,16-y"
  ; "fBodyAccJerk-bandsEnergy()-17,32-y"
  ; "fBodyAccJerk-bandsEnergy()-33,48-y"
  ; "fBodyAccJerk-bandsEnergy()-49,64-y"
  ; "fBodyAccJerk-bandsEnergy()-1,24-y"
  ; "fBodyAccJerk-bandsEnergy()-25,48-y"; "fBodyAccJerk-bandsEnergy()-1,8-z"
  ; "fBodyAccJerk-bandsEnergy()-9,16-z"
  ; "fBodyAccJerk-bandsEnergy()-17,24-z"
  ; "fBodyAccJerk-bandsEnergy()-25,32-z"
  ; "fBodyAccJerk-bandsEnergy()-33,40-z"
  ; "fBodyAccJerk-bandsEnergy()-41,48-z"
  ; "fBodyAccJerk-bandsEnergy()-49,56-z"
  ; "fBodyAccJerk-bandsEnergy()-57,64-z"
  ; "fBodyAccJerk-bandsEnergy()-1,16-z"
  ; "fBodyAccJerk-bandsEnergy()-17,32-z"
  ; "fBodyAccJerk-bandsEnergy()-33,48-z"
  ; "fBodyAccJerk-bandsEnergy()-49,64-z"
  ; "fBodyAccJerk-bandsEnergy()-1,24-z"
  ; "fBodyAccJerk-bandsEnergy()-25,48-z"; "fBodyGyro-mean()-x"
  ; "fBodyGyro-mean()-y"; "fBodyGyro-mean()-z"; "fBodyGyro-std()-x"
  ; "fBodyGyro-std()-y"; "fBodyGyro-std()-z"; "fBodyGyro-mad()-x"
  ; "fBodyGyro-mad()-y"; "fBodyGyro-mad()-z"; "fBodyGyro-max()-x"
  ; "fBodyGyro-max()-y"; "fBodyGyro-max()-z"; "fBodyGyro-min()-x"
  ; "fBodyGyro-min()-y"; "fBodyGyro-min()-z"; "fBodyGyro-sma()"
  ; "fBodyGyro-energy()-x"; "fBodyGyro-energy()-y"; "fBodyGyro-energy()-z"
  ; "fBodyGyro-iqr()-x"; "fBodyGyro-iqr()-y"; "fBodyGyro-iqr()-z"
  ; "fBodyGyro-entropy()-x"; "fBodyGyro-entropy()-y"
  ; "fBodyGyro-entropy()-z"; "fBodyGyro-maxInds-x"; "fBodyGyro-maxInds-y"
  ; "fBodyGyro-maxInds-z"; "fBodyGyro-meanFreq()-x"
  ; "fBodyGyro-meanFreq()-y"; "fBodyGyro-meanFreq()-z"
  ; "fBodyGyro-skewness()-x"; "fBodyGyro-kurtosis()-x"
  ; "fBodyGyro-skewness()-y"; "fBodyGyro-kurtosis()-y"
  ; "fBodyGyro-skewness()-z"; "fBodyGyro-kurtosis()-z"
  ; "fBodyGyro-bandsEnergy()-1,8-x"; "fBodyGyro-bandsEnergy()-9,16-x"
  ; "fBodyGyro-bandsEnergy()-17,24-x"; "fBodyGyro-bandsEnergy()-25,32-x"
  ; "fBodyGyro-bandsEnergy()-33,40-x"; "fBodyGyro-bandsEnergy()-41,48-x"
  ; "fBodyGyro-bandsEnergy()-49,56-x"; "fBodyGyro-bandsEnergy()-57,64-x"
  ; "fBodyGyro-bandsEnergy()-1,16-x"; "fBodyGyro-bandsEnergy()-17,32-x"
  ; "fBodyGyro-bandsEnergy()-33,48-x"; "fBodyGyro-bandsEnergy()-49,64-x"
  ; "fBodyGyro-bandsEnergy()-1,24-x"; "fBodyGyro-bandsEnergy()-25,48-x"
  ; "fBodyGyro-bandsEnergy()-1,8-y"; "fBodyGyro-bandsEnergy()-9,16-y"
  ; "fBodyGyro-bandsEnergy()-17,24-y"; "fBodyGyro-bandsEnergy()-25,32-y"
  ; "fBodyGyro-bandsEnergy()-33,40-y"; "fBodyGyro-bandsEnergy()-41,48-y"
  ; "fBodyGyro-bandsEnergy()-49,56-y"; "fBodyGyro-bandsEnergy()-57,64-y"
  ; "fBodyGyro-bandsEnergy()-1,16-y"; "fBodyGyro-bandsEnergy()-17,32-y"
  ; "fBodyGyro-bandsEnergy()-33,48-y"; "fBodyGyro-bandsEnergy()-49,64-y"
  ; "fBodyGyro-bandsEnergy()-1,24-y"; "fBodyGyro-bandsEnergy()-25,48-y"
  ; "fBodyGyro-bandsEnergy()-1,8-z"; "fBodyGyro-bandsEnergy()-9,16-z"
  ; "fBodyGyro-bandsEnergy()-17,24-z"; "fBodyGyro-bandsEnergy()-25,32-z"
  ; "fBodyGyro-bandsEnergy()-33,40-z"; "fBodyGyro-bandsEnergy()-41,48-z"
  ; "fBodyGyro-bandsEnergy()-49,56-z"; "fBodyGyro-bandsEnergy()-57,64-z"
  ; "fBodyGyro-bandsEnergy()-1,16-z"; "fBodyGyro-bandsEnergy()-17,32-z"
  ; "fBodyGyro-bandsEnergy()-33,48-z"; "fBodyGyro-bandsEnergy()-49,64-z"
  ; "fBodyGyro-bandsEnergy()-1,24-z"; "fBodyGyro-bandsEnergy()-25,48-z"
  ; "fBodyAccMag-mean()"; "fBodyAccMag-std()"; "fBodyAccMag-mad()"
  ; "fBodyAccMag-max()"; "fBodyAccMag-min()"; "fBodyAccMag-sma()"
  ; "fBodyAccMag-energy()"; "fBodyAccMag-iqr()"; "fBodyAccMag-entropy()"
  ; "fBodyAccMag-maxInds"; "fBodyAccMag-meanFreq()"
  ; "fBodyAccMag-skewness()"; "fBodyAccMag-kurtosis()"
  ; "fBodyBodyAccJerkMag-mean()"; "fBodyBodyAccJerkMag-std()"
  ; "fBodyBodyAccJerkMag-mad()"; "fBodyBodyAccJerkMag-max()"
  ; "fBodyBodyAccJerkMag-min()"; "fBodyBodyAccJerkMag-sma()"
  ; "fBodyBodyAccJerkMag-energy()"; "fBodyBodyAccJerkMag-iqr()"
  ; "fBodyBodyAccJerkMag-entropy()"; "fBodyBodyAccJerkMag-maxInds"
  ; "fBodyBodyAccJerkMag-meanFreq()"; "fBodyBodyAccJerkMag-skewness()"
  ; "fBodyBodyAccJerkMag-kurtosis()"; "fBodyBodyGyroMag-mean()"
  ; "fBodyBodyGyroMag-std()"; "fBodyBodyGyroMag-mad()"
  ; "fBodyBodyGyroMag-max()"; "fBodyBodyGyroMag-min()"
  ; "fBodyBodyGyroMag-sma()"; "fBodyBodyGyroMag-energy()"
  ; "fBodyBodyGyroMag-iqr()"; "fBodyBodyGyroMag-entropy()"
  ; "fBodyBodyGyroMag-maxInds"; "fBodyBodyGyroMag-meanFreq()"
  ; "fBodyBodyGyroMag-skewness()"; "fBodyBodyGyroMag-kurtosis()"
  ; "fBodyBodyGyroJerkMag-mean()"; "fBodyBodyGyroJerkMag-std()"
  ; "fBodyBodyGyroJerkMag-mad()"; "fBodyBodyGyroJerkMag-max()"
  ; "fBodyBodyGyroJerkMag-min()"; "fBodyBodyGyroJerkMag-sma()"
  ; "fBodyBodyGyroJerkMag-energy()"; "fBodyBodyGyroJerkMag-iqr()"
  ; "fBodyBodyGyroJerkMag-entropy()"; "fBodyBodyGyroJerkMag-maxInds"
  ; "fBodyBodyGyroJerkMag-meanFreq()"; "fBodyBodyGyroJerkMag-skewness()"
  ; "fBodyBodyGyroJerkMag-kurtosis()"; "angle(tBodyAccMean,gravity)"
  ; "angle(tBodyAccJerkMean,gravityMean)"
  ; "angle(tBodyGyroMean,gravityMean)"
  ; "angle(tBodyGyroJerkMean,gravityMean)"; "angle(x,gravityMean)"
  ; "angle(y,gravityMean)"; "angle(z,gravityMean)" ].

(** The object [processSignalWindow] hands to the feature extractor. *)
Definition combinedProcessedSignals
  (accProcessedSignals gyroProcessedSignals : ProcessedSignals)
  : FeatureExtractor.ProcessedSignals :=
  let acc := accProcessedSignals in
  let gyro := gyroProcessedSignals in
  [ ("tBodyAcc",
     [ ("x", Axes.x (body (time acc))); ("y", Axes.y (body (time acc)));
       ("z", Axes.z (body (time acc))) ]);
    ("tGravityAcc",
     [ ("x", Axes.x (gravity (time acc)));
       ("y", Axes.y (gravity (time acc)));
       ("z", Axes.z (gravity (time acc))) ]);
    ("tBodyAccJerk",
     [ ("x", Axes.x (bodyJerk (time acc)));
       ("y", Axes.y (bodyJerk (time acc)));
       ("z", Axes.z (bodyJerk (time acc))) ]);
    ("tBodyGyro",
     [ ("x", Axes.x (body (time gyro))); ("y", Axes.y (body (time gyro)));
       ("z", Axes.z (body (time gyro))) ]);
    ("tBodyGyroJerk",
     [ ("x", Axes.x (bodyJerk (time gyro)));
       ("y", Axes.y (bodyJerk (time gyro)));
       ("z", Axes.z (bodyJerk (time gyro))) ]);
    ("tBodyAccMag", [ ("mag", Axes.magnitude (body (time acc))) ]);
    ("tGravityAccMag", [ ("mag", Axes.magnitude (gravity (time acc))) ]);
    ("tBodyAccJerkMag", [ ("mag", Axes.magnitude (bodyJerk (time acc))) ]);
    ("tBodyGyroMag", [ ("mag", Axes.magnitude (body (time gyro))) ]);
    ("tBodyGyroJerkMag", [ ("mag", Axes.magnitude (bodyJerk (time gyro))) ]);
    ("fBodyAcc",
     [ ("x", Axes.x (fbody (frequency acc)));
       ("y", Axes.y (fbody (frequency acc)));
       ("z", Axes.z (fbody (frequency acc))) ]);
    ("fBodyAccJerk",
     [ ("x", Axes.x (fbodyJerk (frequency acc)));
       ("y", Axes.y (fbodyJerk (frequency acc)));
       ("z", Axes.z (fbodyJerk (frequency acc))) ]);
    ("fBodyGyro",
     [ ("x", Axes.x (fbody (frequency gyro)));
       ("y", Axes.y (fbody (frequency gyro)));
       ("z", Axes.z (fbody (frequency gyro))) ]);
    ("fBodyAccMag", [ ("mag", Axes.magnitude (fbody (frequency acc))) ]);
    ("fBodyBodyAccJerkMag",
     [ ("mag", Axes.magnitude (fbodyJerk (frequency acc))) ]);
    ("fBodyBodyGyroMag", [ ("mag", Axes.magnitude (fbody (frequency gyro))) ]);
    ("fBodyBodyGyroJerkMag",
     [ ("mag", Axes.magnitude (fbodyJerk (frequency gyro))) ]) ].

(** [processSignalWindow]; [processSensorData] is called with its default
    cutoff of 20 Hz. *)
Definition processSignalWindow (accWindow gyroWindow : list SensorReading.t)
  : result FeatureRow :=
  accProcessedSignals <- SignalProcessor.processSensorData accWindow (Fin 20) ;;
  gyroProcessedSignals <-
    SignalProcessor.processSensorData gyroWindow (Fin 20) ;;
  let combined :=
    combinedProcessedSignals accProcessedSignals gyroProcessedSignals in
  features <- FeatureExtractor.extractFeatures combined ;;
  angleFeatures <- FeatureExtractor.extractAngleFeatures combined ;;
  Ok (obj_assign angleFeatures (obj_assign features [])).

(** ** Auxiliary definitions used by the statements *)

Import SignalProcessor.
Local Open Scope R_scope.

(** Number of rounds of the windowing loop on [n] readings, and the
    window cut in round [k]. *)
Definition windowCount (n : nat) : nat := Z.to_nat ((Z.of_nat n - 65) / 64).

Definition windowAt (readings : list SensorReading.t) (k : nat)
  : list SensorReading.t :=
  slice readings (64 * Z.of_nat k) (64 * Z.of_nat k + 128).

(** Sums over real series. *)
Definition Rsum (l : list R) : R := fold_right Rplus 0 l.


Definition devSquares (xs : list R) (m : R) : R :=
  Rsum (map (fun x => (x - m) * (x - m)) xs).


(** The magnitude [calculateAngle] computes for each operand. *)
Definition magnitudeOf (vector : list num) : num :=
  nsqrt (fold_left (fun sum val => nadd sum (npow val 2)) vector (Fin 0)).

(** The vector of the three axis means of a signal, and the vector of its
    first samples. *)
Definition meanVector (a : Axes.t) : list num :=
  [ FeatureExtractor.meanOf (Axes.x a); FeatureExtractor.meanOf (Axes.y a);
    FeatureExtractor.meanOf (Axes.z a) ].

Definition firstSample (a : Axes.t) : list num :=
  [ at_ (Axes.x a) 0; at_ (Axes.y a) 0; at_ (Axes.z a) 0 ].

(** Two-sample signals whose gravity starts along x and averages to y. *)
Definition noAxes : Axes.t := Axes.mk [] [] [] [].

Definition tiltedSignals : ProcessedSignals :=
  {| time :=
       {| body := Axes.mk [Fin 1; Fin 1] [Fin 0; Fin 0] [Fin 0; Fin 0] [];
          gravity :=
            Axes.mk [Fin 1; Fin (-1)] [Fin 0; Fin 2] [Fin 0; Fin 0] [];
          bodyJerk := noAxes |};
     frequency := {| fbody := noAxes; fbodyJerk := noAxes |} |}.

(** The values one key takes across a batch, and the linear rescaling
    [normalizeFeatures] applies. *)
Definition column (key : string) (rows : list FeatureRow) : list num :=
  map (obj_num key) rows.

Definition rescale (v min max : num) : num :=
  nadd (Fin (-1)) (ndiv (nmul (Fin 2) (nsub v min)) (nsub max min)).

(** The value [normalizeFeatures] writes for [key] in the copy of [row]. *)
Definition normalizedValue (key : string) (rows : list FeatureRow)
  (row : FeatureRow) : num :=
  let min := Math_min (column key rows) in
  let max := Math_max (column key rows) in
  if nstrict_eq max min then Fin 0 else rescale (obj_num key row) min max.




(** The record [processSensorData] assembles from the three per-axis
    results. *)
Definition assembleSignals (xProcessed yProcessed zProcessed : AxisResult)
  : ProcessedSignals :=
  let bodyFreqMag :=
    calculateMagnitude (frequencyDomain xProcessed)
      (frequencyDomain yProcessed) (frequencyDomain zProcessed) in
  {| time :=
       {| body :=
            Axes.mk (bodyComponent xProcessed) (bodyComponent yProcessed)
              (bodyComponent zProcessed)
              (calculateMagnitude (bodyComponent xProcessed)
                 (bodyComponent yProcessed) (bodyComponent zProcessed));
          gravity :=
            Axes.mk (gravityComponent xProcessed)
              (gravityComponent yProcessed) (gravityComponent zProcessed)
              (calculateMagnitude (gravityComponent xProcessed)
                 (gravityComponent yProcessed) (gravityComponent zProcessed));
          bodyJerk :=
            Axes.mk (jerk xProcessed) (jerk yProcessed) (jerk zProcessed)
              (calculateMagnitude (jerk xProcessed) (jerk yProcessed)
                 (jerk zProcessed)) |};
     frequency :=
       {| fbody :=
            Axes.mk (frequencyDomain xProcessed) (frequencyDomain yProcessed)
              (frequencyDomain zProcessed) bodyFreqMag;
          fbodyJerk :=
            Axes.mk (frequencyDomain xProcessed) (frequencyDomain yProcessed)
              (frequencyDomain zProcessed) bodyFreqMag |} |}.

(** A three-sample recording at 50 Hz. *)
Definition threeReadings : list SensorReading.t :=
  [ SensorReading.mk (Fin 0) (Fin 0) (Fin 0) (Fin 0);
    SensorReading.mk (Fin 0) (Fin 0) (Fin 0) (Fin 20);
    SensorReading.mk (Fin 0) (Fin 0) (Fin 0) (Fin 40) ].

Local Open Scope string_scope.

(** Keys of an object after an assignment, and after a run of
    assignments. *)
Definition keys_set (key : string) (keys : list string) : list string :=
  if existsb (String.eqb key) keys then keys else (keys ++ [key])%list.

Definition keys_assign (new keys : list string) : list string :=
  fold_left (fun keys key => keys_set key keys) new keys.

(** The names under which the statistic functions file their results. *)
Definition timeFeatureKeys : list string :=
  [ "mean()"; "std()"; "mad()"; "max()"; "min()"; "energy()"; "iqr()";
    "entropy()"; "arCoeff()1"; "arCoeff()2"; "arCoeff()3"; "arCoeff()4" ].

Definition frequencyFeatureKeys : list string :=
  [ "mean()"; "std()"; "mad()"; "max()"; "min()"; "energy()"; "iqr()";
    "entropy()"; "meanFreq()"; "maxInds"; "skewness()"; "kurtosis()" ].

Definition bandKeys : list string :=
  keys_assign
    (map (fun '(bandStart, bandEnd) =>
            "bandsEnergy()-" ++ toString (bandStart + 1) ++ ","
            ++ toString bandEnd)
       FeatureExtractor.bands)
    [].

(** The keys [extractFeatures] has written after each of its four
    blocks, from the keys present before. *)
Definition keysAfterTimeSignal (keys : list string) (signalType : string)
  : list string :=
  let axisKeys axis :=
    map (fun feature => signalType ++ "-" ++ feature ++ "-" ++ axis)
      timeFeatureKeys in
  let keys := keys_assign (axisKeys "x") keys in
  let keys := keys_assign (axisKeys "y") keys in
  let keys := keys_assign (axisKeys "z") keys in
  let keys := keys_set (signalType ++ "-sma()") keys in
  let keys := keys_set (signalType ++ "-correlation()-x,y") keys in
  let keys := keys_set (signalType ++ "-correlation()-x,z") keys in
  keys_set (signalType ++ "-correlation()-y,z") keys.

Definition keysAfterTimeMagnitude (keys : list string) (signalType : string)
  : list string :=
  let keys :=
    keys_assign
      (map (fun feature => signalType ++ "-" ++ feature) timeFeatureKeys)
      keys in
  keys_set (signalType ++ "-sma()") keys.

Definition keysAfterFrequencyAxis (signalType : string) (keys : list string)
  (axis : string) : list string :=
  let keys :=
    keys_assign
      (map (fun feature => signalType ++ "-" ++ feature ++ "-" ++ axis)
         frequencyFeatureKeys)
      keys in
  let keys := keys_set (signalType ++ "-sma()") keys in
  keys_assign
    (map (fun feature => signalType ++ "-" ++ feature ++ "-" ++ axis)
       bandKeys)
    keys.

Definition keysAfterFrequencySignal (keys : list string)
  (signalType : string) : list string :=
  fold_left (keysAfterFrequencyAxis signalType) ["x"; "y"; "z"] keys.

Definition keysAfterFrequencyMagnitude (keys : list string)
  (signalType : string) : list string :=
  let keys :=
    keys_assign
      (map (fun feature => signalType ++ "-" ++ feature) frequencyFeatureKeys)
      keys in
  keys_set (signalType ++ "-sma()") keys.

Definition extractedKeys : list string :=
  let keys := [] in
  let keys :=
    fold_left keysAfterTimeSignal
      ["tBodyAcc"; "tGravityAcc"; "tBodyAccJerk"; "tBodyGyro";
       "tBodyGyroJerk"] keys in
  let keys :=
    fold_left keysAfterTimeMagnitude
      ["tBodyAccMag"; "tGravityAccMag"; "tBodyAccJerkMag"; "tBodyGyroMag";
       "tBodyGyroJerkMag"] keys in
  let keys :=
    fold_left keysAfterFrequencySignal
      ["fBodyAcc"; "fBodyAccJerk"; "fBodyGyro"] keys in
  fold_left keysAfterFrequencyMagnitude
    ["fBodyAccMag"; "fBodyBodyAccJerkMag"; "fBodyBodyGyroMag";
     "fBodyBodyGyroJerkMag"] keys.

Definition angleKeys : list string :=
  [ "angle(tBodyAccMean,gravity)"; "angle(tBodyAccJerkMean,gravityMean)";
    "angle(tBodyGyroMean,gravityMean)";
    "angle(tBodyGyroJerkMean,gravityMean)"; "angle(x,gravityMean)";
    "angle(y,gravityMean)"; "angle(z,gravityMean)" ].

(** Boolean tests on lists of names. *)
Definition memb (key : string) (keys : list string) : bool :=
  existsb (String.eqb key) keys.

Fixpoint nodupb (keys : list string) : bool :=
  match keys with
  | [] => true
  | key :: rest => negb (memb key rest) && nodupb rest
  end.

Definition same_keys (keys1 keys2 : list string) : bool :=
  nodupb keys1 && nodupb keys2 && forallb (fun k => memb k keys2) keys1
  && forallb (fun k => memb k keys1) keys2.

Local Close Scope string_scope.

(** The frequency-domain arrays [extractFeatures] reads from the two
    processed signals. *)
Definition spectraOf (acc gyro : ProcessedSignals) : list (list num) :=
  [ Axes.x (fbody (frequency acc)); Axes.y (fbody (frequency acc));
    Axes.z (fbody (frequency acc)); Axes.magnitude (fbody (frequency acc));
    Axes.x (fbodyJerk (frequency acc)); Axes.y (fbodyJerk (frequency acc));
    Axes.z (fbodyJerk (frequency acc));
    Axes.magnitude (fbodyJerk (frequency acc));
    Axes.x (fbody (frequency gyro)); Axes.y (fbody (frequency gyro));
    Axes.z (fbody (frequency gyro)); Axes.magnitude (fbody (frequency gyro));
    Axes.magnitude (fbodyJerk (frequency gyro)) ].

(** A device lying still, sampled at 50 Hz for one window: the
    accelerometer reads gravity along z, the gyroscope reads zero. *)
Definition restingAccWindow : list SensorReading.t :=
  map (fun i =>
         SensorReading.mk (Fin 0) (Fin 0) (Fin (98 / 10)) (Fin (20 * INR i)))
      (seq 0 128).

Definition restingGyroWindow : list SensorReading.t :=
  map (fun i => SensorReading.mk (Fin 0) (Fin 0) (Fin 0) (Fin (20 * INR i)))
      (seq 0 128).

Definition finiteCoefficients (c : ButterworthCoefficients) : bool :=
  isFinite (b0 c) && isFinite (b1 c) && isFinite (b2 c) && isFinite (a1 c)
  && isFinite (a2 c).

(** ** The application shell of [app/(tabs)/index.tsx]

    The sensor listeners, [processMultipleSignals] and the reordering
    step of [saveFeaturesToFile], without React state, alerts and file
    access: a listener is the function it passes to the state setter,
    [processMultipleSignals] returns what it would store in
    [featureTable]. *)

Module App.

Definition windowSize : nat := 128.
Definition slideSize : nat := 64.
Definition targetFeatureSets : nat := 25.
Definition requiredSamples : nat :=
  windowSize + slideSize * (targetFeatureSets - 1).

(** The updater of [accData] and [gyroData]:
    [[...prevData, sample]], then [shift()] when the buffer has grown
    past [requiredSamples]. *)
Definition appendSample (prevData : list SensorReading.t)
  (sample : SensorReading.t) : list SensorReading.t :=
  let updatedData := (prevData ++ [sample])%list in
  if (requiredSamples <? length updatedData)%nat then tl updatedData
  else updatedData.

(** [Math.min((updatedData.length / requiredSamples) * 100, 100)]. *)
Definition dataCollectionProgress (updatedData : list SensorReading.t)
  : num :=
  nmin2 (nmul (ndiv (ofNat (length updatedData)) (ofNat requiredSamples))
              (Fin 100))
        (Fin 100).

(** What pressing the button leads to: the alert for insufficient data,
    an exception thrown while the windows are processed and normalised
    (the [catch] branch), or the normalised table handed to
    [setFeatureTable].  Writing the file, which follows and may fail on
    its own, is not modelled. *)
Inductive Outcome : Type :=
| InsufficientData
| Failed (e : error)
| Generated (featureTable : list FeatureRow).

(** Round [i] of the loop of [processMultipleSignals].  (The source
    declares [endIdx] twice with the same initialiser; it is taken
    once.) *)
Definition windowFeatures (accData gyroData : list SensorReading.t)
  (i : nat) : result FeatureRow :=
  let startIdx := (i * slideSize)%nat in
  let endIdx := (startIdx + windowSize)%nat in
  let accWindow := slice accData (Z.of_nat startIdx) (Z.of_nat endIdx) in
  let gyroWindow := slice gyroData (Z.of_nat startIdx) (Z.of_nat endIdx) in
  processSignalWindow accWindow gyroWindow.

Definition processMultipleSignals (accData gyroData : list SensorReading.t)
  : Outcome :=
  if (length accData <? requiredSamples)%nat
     || (length gyroData <? requiredSamples)%nat
  then InsufficientData
  else
    match
      (newFeatures <-
         mapM (windowFeatures accData gyroData) (seq 0 targetFeatureSets) ;;
       normalizeFeatures newFeatures)
    with
    | Ok normalizedFeatures => Generated normalizedFeatures
    | Err e => Failed e
    end.

(** [value || 0]: [undefined], [NaN] and zero give [0]. *)
Definition orZero (value : option num) : num :=
  match value with
  | Some (Fin r) => if Req_dec_T r 0 then Fin 0 else Fin r
  | Some PInf => PInf
  | Some NInf => NInf
  | Some NaN | None => Fin 0
  end.

(** The row [saveFeaturesToFile] builds before formatting. *)
Definition reorderRow (row : FeatureRow) : FeatureRow :=
  fold_left
    (fun reorderedRow feature =>
       obj_set feature (orZero (obj_get feature row)) reorderedRow)
    feature_list [].

Definition reorderedFeatures (features : list FeatureRow)
  : list FeatureRow :=
  map reorderRow features.

End App.

(** ** Auxiliary definitions for the further properties *)

(** The middle one of three reals. *)
Definition median3 (a b c : R) : R := Rmax (Rmin a b) (Rmin (Rmax a b) c).

(** The last [n] elements of a list (all of it when it is shorter). *)
Definition lastn {A : Type} (n : nat) (l : list A) : list A :=
  skipn (length l - n) l.

(** A list of reals in ascending order. *)
Fixpoint ascending (l : list R) : Prop :=
  match l with
  | [] => True
  | x :: rest => (forall y, In y rest -> x <= y) /\ ascending rest
  end.

(** The histogram of the entropy feature after [k] samples: finite,
    non-negative counts that add up to [k] at most. *)
Definition countsInvariant (bins : list num) (k : nat) : Prop :=
  exists cs, bins = map Fin cs /\ Forall (fun c => 0 <= c) cs /\
             Rsum cs <= INR k.

(** ** Binary64 evaluation

    The definitions above compute over the reals.  The functions below
    are the same source expressions over IEEE 754 binary64 numbers, the
    arithmetic the program runs in, and evaluate on concrete inputs. *)

Module Binary64.
Import PrimFloat.

Definition number : Type := float.

(** An array length, or a small integer literal, as a number. *)
Definition ofNat (n : nat) : number :=
  of_uint63 (Uint63.of_Z (Z.of_nat n)).


(** [a[i]] used as a number. *)
Definition at_ (a : list number) (i : nat) : number := nth i a nan.

(** [a.reduce((s, v) => s + v, 0)]. *)
Definition sum (a : list number) : number := fold_left add a zero.

(** [x ** 2]. *)
Definition square (x : number) : number := mul x x.

Definition calculateCorrelation (signal1 signal2 : list number) : number :=
  let mean1 := div (sum signal1) (ofNat (length signal1)) in
  let mean2 := div (sum signal2) (ofNat (length signal2)) in
  let numerator :=
    fold_left (fun sum '(x, i) =>
                 add sum (mul (sub x mean1) (sub (at_ signal2 i) mean2)))
      (combine signal1 (seq 0 (length signal1))) zero in
  let denominator :=
    sqrt (mul (fold_left (fun sum x => add sum (square (sub x mean1)))
                 signal1 zero)
              (fold_left (fun sum x => add sum (square (sub x mean2)))
                 signal2 zero)) in
  div numerator denominator.

(** The value [normalizeFeatures] writes for a key whose column has the
    minimum [min] and the maximum [max]:
    [max === min ? 0 : -1 + (2 * (value - min)) / (max - min)]. *)
Definition normalizedValue (value min max : number) : number :=
  if eqb max min then zero
  else add (opp one) (div (mul two (sub value min)) (sub max min)).

(** [Number.MAX_VALUE], the largest binary64 number. *)
Definition MAX_VALUE : number := 0x1.fffffffffffffp+1023%float.

End Binary64.

(** [Number.MAX_VALUE], the largest binary64 number, as a real. *)
Definition MAX_VALUE : R := IZR (2 ^ 1024 - 2 ^ 971).


(** A non-negative number or [+Infinity]: not [NaN], not negative. *)
Definition nonNegative (v : num) : Prop :=
  v = PInf \/ exists r, v = Fin r /\ 0 <= r.

(** * Properties *)

(** ** Evaluation of the arithmetic on finite values *)

Ltac decide_reals :=
  repeat match goal with
    | |- context [Rlt_dec ?a ?b] =>
        destruct (Rlt_dec a b); [try (exfalso; lra) | try (exfalso; lra)]
    | |- context [Rle_dec ?a ?b] =>
        destruct (Rle_dec a b); [try (exfalso; lra) | try (exfalso; lra)]
    | |- context [Req_dec_T ?a ?b] =>
        destruct (Req_dec_T a b); [try (exfalso; lra) | try (exfalso; lra)]
    end.

Lemma fold_nadd_Fin (l : list R) : forall a,
  fold_left nadd (map Fin l) (Fin a) = Fin (a + Rsum l).
Proof.
  induction l as [|x l IH]; intros a; simpl.
  - f_equal. lra.
  - rewrite IH. f_equal. lra.
Qed.

Lemma sum_Fin (l : list R) : sum (map Fin l) = Fin (Rsum l).
Proof. unfold sum. rewrite fold_nadd_Fin. f_equal. lra. Qed.

Lemma ndiv_Fin (a b : R) : b <> 0 -> ndiv (Fin a) (Fin b) = Fin (a / b).
Proof.
  intros Hb. simpl. destruct (Req_dec_T b 0); [contradiction|reflexivity].
Qed.

Lemma nsqrt_Fin (a : R) : 0 <= a -> nsqrt (Fin a) = Fin (sqrt a).
Proof. intros Ha. simpl. destruct (Rlt_dec a 0); [lra|reflexivity]. Qed.

Lemma at_map_Fin (l : list R) (i : nat) :
  (i < length l)%nat -> at_ (map Fin l) i = Fin (nth i l 0).
Proof.
  intros Hi. unfold at_.
  rewrite (nth_indep _ NaN (Fin 0)) by now rewrite length_map.
  apply (map_nth Fin).
Qed.

Lemma sqrt_of_square (e c : R) : 0 <= c -> e = c * c -> sqrt e = c.
Proof. intros Hc ->. now apply sqrt_square. Qed.

Lemma meanOf_Fin (l : list R) (c : R) :
  l <> [] -> Rsum l = c * INR (length l) ->
  FeatureExtractor.meanOf (map Fin l) = Fin c.
Proof.
  intros Hl Hsum. unfold FeatureExtractor.meanOf, ofNat.
  rewrite sum_Fin, length_map.
  assert (Hn : INR (length l) <> 0)
    by (apply not_0_INR; destruct l; [contradiction|discriminate]).
  rewrite ndiv_Fin by assumption. f_equal. rewrite Hsum. now field.
Qed.

(** ** Objects *)

Lemma obj_get_set_eq {V : Type} (key : string) (v : V) (o : object V) :
  obj_get key (obj_set key v o) = Some v.
Proof.
  induction o as [|[k w] o IH]; simpl.
  - now rewrite String.eqb_refl.
  - destruct (String.eqb key k) eqn:E; simpl; rewrite E; [reflexivity|exact IH].
Qed.

Lemma obj_get_set_neq {V : Type} (key key' : string) (v : V) (o : object V) :
  key <> key' -> obj_get key (obj_set key' v o) = obj_get key o.
Proof.
  intros Hne. induction o as [|[k w] o IH]; simpl.
  - apply String.eqb_neq in Hne. now rewrite Hne.
  - destruct (String.eqb key' k) eqn:E; simpl.
    + apply String.eqb_eq in E. subst k.
      apply String.eqb_neq in Hne. now rewrite Hne.
    + now rewrite IH.
Qed.

(** A loop that assigns [f key] to every [key] of a list. *)
Lemma obj_get_fold_set_keep {V : Type} (f : string -> V) (keys : list string)
  (key : string) : forall o,
  obj_get key o = Some (f key) ->
  obj_get key (fold_left (fun acc k => obj_set k (f k) acc) keys o)
  = Some (f key).
Proof.
  induction keys as [|k keys IH]; intros o Ho; simpl; [exact Ho|].
  apply IH. destruct (string_dec key k) as [->|Hne].
  - apply obj_get_set_eq.
  - rewrite obj_get_set_neq by assumption. exact Ho.
Qed.

Lemma obj_get_fold_set {V : Type} (f : string -> V) (keys : list string)
  (key : string) : forall o,
  In key keys ->
  obj_get key (fold_left (fun acc k => obj_set k (f k) acc) keys o)
  = Some (f key).
Proof.
  induction keys as [|k keys IH]; intros o Hin; simpl; [contradiction|].
  destruct (string_dec key k) as [->|Hne].
  - apply obj_get_fold_set_keep, obj_get_set_eq.
  - apply IH. destruct Hin as [Heq|Hin]; [congruence|exact Hin].
Qed.

Lemma foldM_ok {A S : Type} (f : S -> A -> result S) (g : S -> A -> S)
  (a : list A) :
  (forall s v, In v a -> f s v = Ok (g s v)) ->
  forall s, foldM f a s = Ok (fold_left g a s).
Proof.
  induction a as [|v a IH]; intros Hf s; simpl; [reflexivity|].
  rewrite Hf by (now left). simpl. apply IH.
  intros s' w Hw. apply Hf. now right.
Qed.

Lemma mapM_ok {A B : Type} (f : A -> result B) (g : A -> B) (a : list A) :
  (forall v, In v a -> f v = Ok (g v)) -> mapM f a = Ok (map g a).
Proof.
  induction a as [|v a IH]; intros Hf; simpl; [reflexivity|].
  rewrite Hf by (now left). simpl. rewrite IH; [reflexivity|].
  intros w Hw. apply Hf. now right.
Qed.

Lemma obj_get_not_In {V : Type} (key : string) (o : object V) :
  ~ In key (map fst o) -> obj_get key o = None.
Proof.
  induction o as [|[k w] o IH]; simpl; intros Hn; [reflexivity|].
  destruct (String.eqb key k) eqn:E.
  - apply String.eqb_eq in E. subst. tauto.
  - apply IH. tauto.
Qed.

Lemma obj_get_obj_assign_other {V : Type} (key : string)
  (entries : object V) : forall o,
  ~ In key (map fst entries) ->
  obj_get key (obj_assign entries o) = obj_get key o.
Proof.
  unfold obj_assign.
  induction entries as [|[k v] entries IH]; intros o Hn; simpl;
    [reflexivity|].
  simpl in Hn. rewrite IH by tauto.
  apply obj_get_set_neq. intros ->. tauto.
Qed.

(** Copying the entries of an object with distinct keys into another
    one gives the copy the same value under each of these keys. *)
Lemma obj_get_obj_assign {V : Type} (key : string) (v : V)
  (entries : object V) : forall o,
  NoDup (map fst entries) ->
  obj_get key entries = Some v ->
  obj_get key (obj_assign entries o) = Some v.
Proof.
  induction entries as [|[k w] entries IH]; intros o Hnd Hget;
    [discriminate|].
  simpl in Hget, Hnd. apply NoDup_cons_iff in Hnd. destruct Hnd as [Hk Hnd].
  change (obj_assign ((k, w) :: entries) o)
    with (obj_assign entries (obj_set k w o)).
  destruct (String.eqb key k) eqn:E.
  - apply String.eqb_eq in E. subst k. injection Hget as ->.
    rewrite obj_get_obj_assign_other by assumption.
    apply obj_get_set_eq.
  - now apply IH.
Qed.

(** ** The windowing loop *)

Lemma windowingLoop_spec readings :
  forall fuel k windows,
    (windowCount (length readings) - k <= fuel)%nat ->
    windowingLoop fuel readings (64 * Z.of_nat k) windows =
    (windows ++ map (windowAt readings)
                (seq k (windowCount (length readings) - k)))%list.
Proof.
  induction fuel as [|fuel IH]; intros k windows Hfuel.
  - replace (windowCount (length readings) - k)%nat with 0%nat by lia.
    simpl. now rewrite app_nil_r.
  - cbn [windowingLoop]. unfold windowSize.
    destruct (Z.ltb_spec (64 * Z.of_nat k) (Z.of_nat (length readings) - 128))
      as [Hlt|Hge].
    + assert (Hk : (k < windowCount (length readings))%nat)
        by (unfold windowCount; Z.div_mod_to_equations; lia).
      replace (64 * Z.of_nat k + 128 / 2)%Z with (64 * Z.of_nat (S k))%Z
        by (change (128 / 2)%Z with 64%Z; lia).
      rewrite IH by lia.
      replace (windowCount (length readings) - k)%nat
        with (S (windowCount (length readings) - S k)) by lia.
      cbn [seq map]. rewrite <- app_assoc. reflexivity.
    + assert (Hk : (windowCount (length readings) <= k)%nat)
        by (unfold windowCount; Z.div_mod_to_equations; lia).
      replace (windowCount (length readings) - k)%nat with 0%nat by lia.
      simpl. now rewrite app_nil_r.
Qed.

Lemma windowCount_le n : (windowCount n <= n)%nat.
Proof. unfold windowCount. Z.div_mod_to_equations. lia. Qed.

Lemma windowing_spec readings :
  windowing readings =
  map (windowAt readings) (seq 0 (windowCount (length readings))).
Proof.
  unfold windowing.
  change 0%Z with (64 * Z.of_nat 0)%Z.
  rewrite windowingLoop_spec.
  - now rewrite Nat.sub_0_r.
  - pose proof (windowCount_le (length readings)). lia.
Qed.

(** C2 on the code.  On 256 readings the windowing loop of
    [processSensorData] stops before the window that starts at 128: it
    collects two windows, starting at 0 and 64, not three. *)
Theorem windowing_256_two_windows :
  forall readings : list SensorReading.t,
    length readings = 256%nat ->
    windowing readings =
      [slice readings 0 128; slice readings 64 192] /\
    length (windowing readings) = 2%nat /\
    length (windowing readings) <> 3%nat.
Proof.
  intros readings Hlen. rewrite windowing_spec, Hlen.
  change (windowCount 256) with 2%nat. simpl. repeat split; congruence.
Qed.

Lemma windowing_256_two_windows_witness :
  length (windowing (repeat (SensorReading.mk (Fin 0) (Fin 0) (Fin 0) (Fin 0))
                       256)) = 2%nat.
Proof.
  exact (proj1 (proj2 (windowing_256_two_windows
                         (repeat (SensorReading.mk (Fin 0) (Fin 0) (Fin 0)
                                    (Fin 0)) 256)
                         (repeat_length _ 256)))).
Defined.

(** ** Signal conditioning: shapes of the results *)

Lemma length_mapi_from {A B : Type} (f : A -> nat -> B) (a : list A) :
  forall i, length (mapi_from f i a) = length a.
Proof.
  induction a as [|v a IH]; intros i; simpl; [reflexivity|].
  now rewrite IH.
Qed.

Lemma length_mapi {A B : Type} (f : A -> nat -> B) (a : list A) :
  length (mapi f a) = length a.
Proof. apply length_mapi_from. Qed.

Lemma length_medianFilter (data : list num) (w : nat) :
  length (medianFilter data w) = length data.
Proof. unfold medianFilter. now rewrite length_map, length_seq. Qed.

Lemma length_butterworthLoop (c : ButterworthCoefficients) (data : list num) :
  forall x1 x2 y1 y2,
    length (butterworthLoop c data x1 x2 y1 y2) = length data.
Proof.
  induction data as [|x0 data IH]; intros x1 x2 y1 y2; simpl; [reflexivity|].
  now rewrite IH.
Qed.

Lemma length_butterworthFilter (data : list num) (cutoffFreq : num) :
  length (butterworthFilter data cutoffFreq) = length data.
Proof. apply length_butterworthLoop. Qed.

Lemma length_calculateMagnitude (x y z : list num) :
  length (calculateMagnitude x y z) = length x.
Proof. apply length_mapi. Qed.

Lemma calculateJerk_ok (data timestamps : list num) :
  (1 <= length data)%nat ->
  exists jerk, calculateJerk data timestamps = Ok jerk /\
               length jerk = (length data - 1)%nat.
Proof.
  intros Hlen. destruct data as [|d data]; [simpl in Hlen; lia|].
  eexists. split; [reflexivity|].
  now rewrite length_map, length_seq.
Qed.

Lemma isPowerOfTwo_pow2 (k : Z) : (0 <= k)%Z -> isPowerOfTwo (2 ^ k) = true.
Proof.
  intros Hk. unfold isPowerOfTwo. apply Z.eqb_eq.
  replace (2 ^ k - 1)%Z with (Z.ones k)
    by (rewrite Z.ones_equiv; lia).
  rewrite Z.land_ones by assumption. apply Z.mod_same.
  apply Z.pow_nonzero; lia.
Qed.

Lemma fftSizeOf_ge (n : nat) :
  (2 <= n)%nat ->
  (2 <= fftSizeOf n)%Z /\ (Z.of_nat n <= fftSizeOf n)%Z /\
  isPowerOfTwo (fftSizeOf n) = true.
Proof.
  intros Hn. destruct n as [|n]; [lia|]. unfold fftSizeOf.
  pose proof (Z.log2_up_spec (Z.of_nat (S n)) ltac:(lia)) as [_ Hup].
  assert (Hk : (0 <= Z.log2_up (Z.of_nat (S n)))%Z) by apply Z.log2_up_nonneg.
  repeat split.
  - lia.
  - exact Hup.
  - now apply isPowerOfTwo_pow2.
Qed.

Lemma length_transform (size : nat) (padded : list num) :
  length (transform size padded) = (2 * size)%nat.
Proof.
  unfold transform.
  assert (H : forall l, length (flat_map (dftBin size padded) l)
                        = (2 * length l)%nat).
  { induction l as [|k l IH]; simpl; [reflexivity|]. rewrite IH. lia. }
  now rewrite H, length_seq.
Qed.

Lemma fft_ok (data : list num) :
  (2 <= length data)%nat ->
  exists spectrum,
    fft data = Ok spectrum /\
    length spectrum = (2 * Z.to_nat (fftSizeOf (length data)))%nat.
Proof.
  intros Hlen. destruct (fftSizeOf_ge _ Hlen) as [H2 [_ Hpow]].
  unfold fft. rewrite Hpow.
  destruct (Z.leb_spec (fftSizeOf (length data)) 1); [lia|].
  eexists. split; [reflexivity|]. apply length_transform.
Qed.

(** What [processAxis] returns, read off its result. *)
Lemma processAxis_inv (data timestamps : list num) (cutoffFreq : num)
  (r : AxisResult) :
  processAxis data timestamps cutoffFreq = Ok r ->
  let noiseFiltered := butterworthFilter (medianFilter data 3) cutoffFreq in
  gravityComponent r = butterworthFilter noiseFiltered (Fin (3 / 10)) /\
  bodyComponent r =
    mapi (fun val i => nsub val (at_ (gravityComponent r) i)) noiseFiltered /\
  calculateJerk (bodyComponent r) timestamps = Ok (jerk r) /\
  fft (bodyComponent r) = Ok (frequencyDomain r).
Proof.
  unfold processAxis. cbv zeta.
  destruct (calculateJerk _ timestamps) as [j|e] eqn:Hj; [|discriminate].
  cbn [bind].
  destruct (fft _) as [s|e] eqn:Hs; [|discriminate].
  cbn [bind]. intros H. injection H as <-.
  cbn [gravityComponent bodyComponent jerk frequencyDomain]. auto.
Qed.

Lemma processAxis_ok (data timestamps : list num) (cutoffFreq : num) :
  (2 <= length data)%nat ->
  exists r,
    processAxis data timestamps cutoffFreq = Ok r /\
    length (bodyComponent r) = length data /\
    length (gravityComponent r) = length data /\
    length (jerk r) = (length data - 1)%nat /\
    length (frequencyDomain r)
    = (2 * Z.to_nat (fftSizeOf (length data)))%nat.
Proof.
  intros Hlen. unfold processAxis. cbv zeta.
  set (noise := butterworthFilter (medianFilter data 3) cutoffFreq).
  set (body := mapi _ noise).
  assert (Hbody : length body = length data).
  { unfold body. rewrite length_mapi. unfold noise.
    now rewrite length_butterworthFilter, length_medianFilter. }
  destruct (calculateJerk_ok body timestamps) as [j [Hj Hjlen]]; [lia|].
  destruct (fft_ok body) as [s [Hs Hslen]]; [lia|].
  rewrite Hj, Hs. cbn [bind]. eexists. split; [reflexivity|].
  cbn [gravityComponent bodyComponent jerk frequencyDomain].
  repeat split.
  - exact Hbody.
  - unfold noise.
    now rewrite !length_butterworthFilter, length_medianFilter.
  - now rewrite Hjlen, Hbody.
  - now rewrite Hslen, Hbody.
Qed.

Lemma processSensorDataFrom_inv (windows : list (list SensorReading.t))
  (readings : list SensorReading.t) (cutoffFreq : num)
  (ps : ProcessedSignals) :
  processSensorDataFrom windows readings cutoffFreq = Ok ps ->
  let timestamps := map SensorReading.timestamp readings in
  exists xProcessed yProcessed zProcessed,
    processAxis (map SensorReading.x readings) timestamps cutoffFreq
    = Ok xProcessed /\
    processAxis (map SensorReading.y readings) timestamps cutoffFreq
    = Ok yProcessed /\
    processAxis (map SensorReading.z readings) timestamps cutoffFreq
    = Ok zProcessed /\
    ps = assembleSignals xProcessed yProcessed zProcessed.
Proof.
  unfold processSensorDataFrom. cbv zeta.
  destruct (processAxis (map SensorReading.x readings) _ _) as [xP|e];
    [|discriminate].
  destruct (processAxis (map SensorReading.y readings) _ _) as [yP|e];
    [|discriminate].
  destruct (processAxis (map SensorReading.z readings) _ _) as [zP|e];
    [|discriminate].
  cbn [bind]. intros H. injection H as <-.
  exists xP, yP, zP. repeat split; reflexivity.
Qed.

Lemma processSensorDataFrom_ok (windows : list (list SensorReading.t))
  (readings : list SensorReading.t) (cutoffFreq : num) :
  (2 <= length readings)%nat ->
  exists xProcessed yProcessed zProcessed,
    processSensorDataFrom windows readings cutoffFreq
    = Ok (assembleSignals xProcessed yProcessed zProcessed) /\
    processAxis (map SensorReading.x readings)
      (map SensorReading.timestamp readings) cutoffFreq = Ok xProcessed /\
    processAxis (map SensorReading.y readings)
      (map SensorReading.timestamp readings) cutoffFreq = Ok yProcessed /\
    processAxis (map SensorReading.z readings)
      (map SensorReading.timestamp readings) cutoffFreq = Ok zProcessed.
Proof.
  intros Hlen. unfold processSensorDataFrom. cbv zeta.
  destruct (processAxis_ok (map SensorReading.x readings)
              (map SensorReading.timestamp readings) cutoffFreq)
    as [xP [Hx _]]; [now rewrite length_map|].
  destruct (processAxis_ok (map SensorReading.y readings)
              (map SensorReading.timestamp readings) cutoffFreq)
    as [yP [Hy _]]; [now rewrite length_map|].
  destruct (processAxis_ok (map SensorReading.z readings)
              (map SensorReading.timestamp readings) cutoffFreq)
    as [zP [Hz _]]; [now rewrite length_map|].
  exists xP, yP, zP. rewrite Hx, Hy, Hz. cbn [bind].
  repeat split; reflexivity.
Qed.

Lemma processAxis_lengths (data timestamps : list num) (cutoffFreq : num)
  (r : AxisResult) :
  (2 <= length data)%nat ->
  processAxis data timestamps cutoffFreq = Ok r ->
  length (bodyComponent r) = length data /\
  length (gravityComponent r) = length data /\
  length (jerk r) = (length data - 1)%nat /\
  length (frequencyDomain r) = (2 * Z.to_nat (fftSizeOf (length data)))%nat.
Proof.
  intros Hlen Hr.
  destruct (processAxis_ok data timestamps cutoffFreq Hlen) as [r' [Hr' H]].
  rewrite Hr in Hr'. injection Hr' as <-. exact H.
Qed.

Lemma processSensorData_x_lengths
  (readings : list SensorReading.t) (cutoffFreq : num) :
  (2 <= length readings)%nat ->
  exists ps,
    processSensorData readings cutoffFreq = Ok ps /\
    length (Axes.x (body (time ps))) = length readings /\
    length (Axes.x (bodyJerk (time ps))) = (length readings - 1)%nat.
Proof.
  intros Hlen.
  destruct (processSensorDataFrom_ok (windowing readings) readings cutoffFreq
              Hlen) as [xP [yP [zP [Hrun [Hx _]]]]].
  apply processAxis_lengths in Hx; [|now rewrite length_map].
  rewrite length_map in Hx. destruct Hx as [Hxb [_ [Hxj _]]].
  exists (assembleSignals xP yP zP). split; [exact Hrun|].
  split; assumption.
Qed.

(** C10.  On [n >= 2] readings [processSensorData] returns, whatever the
    windowing loop has collected in [windows]: the result is that of the
    code after the loop run with any other [windows], its body and gravity
    series have [n] samples each and its jerk series [n - 1]. *)
Theorem processSensorData_ignores_windows (readings : list SensorReading.t)
  (cutoffFreq : num) :
  (2 <= length readings)%nat ->
  exists ps,
    processSensorData readings cutoffFreq = Ok ps /\
    (forall windows,
       processSensorDataFrom windows readings cutoffFreq = Ok ps) /\
    let n := length readings in
    Forall (fun series => length series = n)
      [ Axes.x (body (time ps)); Axes.y (body (time ps));
        Axes.z (body (time ps)); Axes.magnitude (body (time ps));
        Axes.x (gravity (time ps)); Axes.y (gravity (time ps));
        Axes.z (gravity (time ps)); Axes.magnitude (gravity (time ps)) ] /\
    Forall (fun series => length series = (n - 1)%nat)
      [ Axes.x (bodyJerk (time ps)); Axes.y (bodyJerk (time ps));
        Axes.z (bodyJerk (time ps)); Axes.magnitude (bodyJerk (time ps)) ].
Proof.
  intros Hlen.
  destruct (processSensorDataFrom_ok (windowing readings) readings cutoffFreq
              Hlen) as [xP [yP [zP [Hrun [Hx [Hy Hz]]]]]].
  apply processAxis_lengths in Hx; [|now rewrite length_map].
  apply processAxis_lengths in Hy; [|now rewrite length_map].
  apply processAxis_lengths in Hz; [|now rewrite length_map].
  rewrite length_map in Hx, Hy, Hz.
  destruct Hx as [Hxb [Hxg [Hxj _]]], Hy as [Hyb [Hyg [Hyj _]]],
    Hz as [Hzb [Hzg [Hzj _]]].
  exists (assembleSignals xP yP zP).
  split; [exact Hrun|]. split; [intros windows; exact Hrun|].
  cbv zeta. unfold assembleSignals.
  cbn [time body gravity bodyJerk Axes.x Axes.y Axes.z Axes.magnitude].
  split; repeat constructor; rewrite ?length_calculateMagnitude; assumption.
Qed.

Lemma processSensorData_ignores_windows_witness :
  exists ps,
    processSensorData
      [ SensorReading.mk (Fin 0) (Fin 0) (Fin 1) (Fin 0);
        SensorReading.mk (Fin 0) (Fin 0) (Fin 1) (Fin 20) ] (Fin 20)
    = Ok ps /\
    length (Axes.x (body (time ps))) = 2%nat /\
    length (Axes.x (bodyJerk (time ps))) = 1%nat.
Proof.
  destruct (processSensorData_ignores_windows
              [ SensorReading.mk (Fin 0) (Fin 0) (Fin 1) (Fin 0);
                SensorReading.mk (Fin 0) (Fin 0) (Fin 1) (Fin 20) ] (Fin 20))
    as [ps [Hrun [_ [Hn Hj]]]].
  - simpl. lia.
  - exists ps. split; [exact Hrun|].
    cbv zeta in Hn, Hj.
    apply Forall_inv in Hn. apply Forall_inv in Hj.
    split; assumption.
Defined.

(** ** The spectra returned by [processSensorData] *)

(** Every spectrum in the result, the ones filed under [bodyJerk]
    included, is the transform of a body component. *)
Lemma processSensorData_spectra (readings : list SensorReading.t)
  (cutoffFreq : num) (ps : ProcessedSignals) :
  processSensorData readings cutoffFreq = Ok ps ->
  fbodyJerk (frequency ps) = fbody (frequency ps) /\
  fft (Axes.x (body (time ps))) = Ok (Axes.x (fbodyJerk (frequency ps))) /\
  fft (Axes.y (body (time ps))) = Ok (Axes.y (fbodyJerk (frequency ps))) /\
  fft (Axes.z (body (time ps))) = Ok (Axes.z (fbodyJerk (frequency ps))).
Proof.
  intros Hrun.
  apply (processSensorDataFrom_inv (windowing readings)) in Hrun.
  destruct Hrun as [xP [yP [zP [Hx [Hy [Hz ->]]]]]].
  apply processAxis_inv in Hx, Hy, Hz.
  destruct Hx as [_ [_ [_ Hx]]], Hy as [_ [_ [_ Hy]]], Hz as [_ [_ [_ Hz]]].
  unfold assembleSignals.
  cbn [frequency time fbody fbodyJerk body Axes.x Axes.y Axes.z].
  split; [reflexivity|]. repeat split; assumption.
Qed.

(** C3 at a three-sample recording.  The x spectrum filed under
    [frequency.bodyJerk] is the transform of the body component (8
    numbers, from 3 samples padded to 4 points); the transform of the jerk
    series itself has 4 numbers (2 samples, 2 points). *)
Theorem bodyJerk_spectrum_is_body_spectrum :
  exists ps jerkSpectrum,
    processSensorData threeReadings (Fin 20) = Ok ps /\
    fft (Axes.x (body (time ps))) = Ok (Axes.x (fbodyJerk (frequency ps))) /\
    fft (Axes.x (bodyJerk (time ps))) = Ok jerkSpectrum /\
    length (Axes.x (fbodyJerk (frequency ps))) = 8%nat /\
    length jerkSpectrum = 4%nat /\
    Axes.x (fbodyJerk (frequency ps)) <> jerkSpectrum.
Proof.
  destruct (processSensorData_x_lengths threeReadings (Fin 20))
    as [ps [Hrun [Hbody Hjerk]]]; [simpl; lia|].
  destruct (processSensorData_spectra _ _ _ Hrun) as [_ [Hx _]].
  destruct (fft_ok (Axes.x (body (time ps)))) as [s [Hs Hslen]];
    [rewrite Hbody; simpl; lia|].
  destruct (fft_ok (Axes.x (bodyJerk (time ps)))) as [j [Hj Hjlen]];
    [rewrite Hjerk; simpl; lia|].
  rewrite Hs in Hx. injection Hx as Hx.
  rewrite Hbody in Hslen. rewrite Hjerk in Hjlen.
  change (2 * Z.to_nat (fftSizeOf (length threeReadings)))%nat with 8%nat
    in Hslen.
  change (2 * Z.to_nat (fftSizeOf (length threeReadings - 1)))%nat
    with 4%nat in Hjlen.
  exists ps, j. rewrite <- Hx.
  repeat split; try assumption.
  intros Heq. rewrite Heq, Hjlen in Hslen. discriminate.
Qed.

(** ** Conditioning a signal that is identically zero *)

Lemma at_repeat (v : num) (n i : nat) :
  (i < n)%nat -> at_ (repeat v n) i = v.
Proof. intros Hi. unfold at_. now apply nth_repeat_lt. Qed.

Lemma map_at_repeat (v : num) (n lo m : nat) :
  (lo + m <= n)%nat -> map (at_ (repeat v n)) (seq lo m) = repeat v m.
Proof.
  revert lo. induction m as [|m IH]; intros lo Hle; simpl; [reflexivity|].
  rewrite at_repeat by lia. f_equal. apply IH. lia.
Qed.

Lemma sort_insert_zero (n : nat) :
  sort_insert (Fin 0) (repeat (Fin 0) n) = repeat (Fin 0) (S n).
Proof.
  destruct n as [|n]; simpl; [reflexivity|].
  now decide_reals.
Qed.

Lemma sort_zeros (n : nat) : sort (repeat (Fin 0) n) = repeat (Fin 0) n.
Proof.
  induction n as [|n IH]; [reflexivity|].
  unfold sort in *. cbn [repeat fold_right]. rewrite IH.
  apply sort_insert_zero.
Qed.

Lemma medianFilter_zeros (n : nat) :
  medianFilter (repeat (Fin 0) n) 3 = repeat (Fin 0) n.
Proof.
  unfold medianFilter. rewrite repeat_length.
  change (3 / 2)%nat with 1%nat.
  transitivity (map (fun _ : nat => Fin 0) (seq 0 n)).
  - apply map_ext_in. intros i Hi. apply in_seq in Hi.
    rewrite map_at_repeat by lia.
    rewrite sort_zeros, repeat_length.
    apply at_repeat. apply Nat.div_lt; lia.
  - rewrite map_const, length_seq. reflexivity.
Qed.

Lemma butterworthLoop_zeros (c : ButterworthCoefficients) (n : nat) :
  finiteCoefficients c = true ->
  butterworthLoop c (repeat (Fin 0) n) (Fin 0) (Fin 0) (Fin 0) (Fin 0)
  = repeat (Fin 0) n.
Proof.
  unfold finiteCoefficients. intros Hc.
  repeat (apply andb_prop in Hc; destruct Hc as [Hc ?]).
  destruct c as [[r0| | |] [r1| | |] [r2| | |] [s1| | |] [s2| | |]];
    try discriminate.
  induction n as [|n IH]; simpl; [reflexivity|].
  replace (r0 * 0 + r1 * 0 + r2 * 0 + - (s1 * 0) + - (s2 * 0)) with 0 by lra.
  f_equal. exact IH.
Qed.

(** The filter coefficients are finite for a cutoff below the Nyquist
    frequency of 25 Hz. *)
Lemma butterworthCoefficients_finite (cutoff : R) :
  0 < cutoff < 25 ->
  finiteCoefficients (butterworthCoefficients (Fin cutoff)) = true.
Proof.
  intros Hc. unfold butterworthCoefficients, ofZ, samplingRate.
  cbn [nmul]. rewrite ndiv_Fin by lra.
  assert (Hx : 0 < PI * cutoff / 50 < PI / 2).
  { pose proof PI_RGT_0. split.
    - apply Rdiv_lt_0_compat; [apply Rmult_lt_0_compat|]; lra.
    - unfold Rdiv. nra. }
  assert (Hcos : 0 < cos (PI * cutoff / 50)) by (apply cos_gt_0; lra).
  assert (Ht : 0 < tan (PI * cutoff / 50)) by (apply tan_gt_0; lra).
  set (t := tan (PI * cutoff / 50)) in *.
  unfold ntan. destruct (Req_dec_T (cos (PI * cutoff / 50)) 0); [lra|].
  fold t. rewrite nsqrt_Fin by lra. cbn [nmul nadd nsub nneg].
  pose proof (sqrt_pos 2) as Hs.
  assert (Ha : 1 + sqrt 2 * t + t * t <> 0) by nra.
  rewrite !ndiv_Fin by assumption. reflexivity.
Qed.

Lemma butterworthFilter_zeros (n : nat) (cutoff : R) :
  0 < cutoff < 25 ->
  butterworthFilter (repeat (Fin 0) n) (Fin cutoff) = repeat (Fin 0) n.
Proof.
  intros Hc. apply butterworthLoop_zeros.
  now apply butterworthCoefficients_finite.
Qed.

Lemma mapi_from_sub_zeros (n : nat) : forall i m,
  (i + n <= m)%nat ->
  mapi_from (fun val j => nsub val (at_ (repeat (Fin 0) m) j)) i
    (repeat (Fin 0) n)
  = repeat (Fin 0) n.
Proof.
  induction n as [|n IH]; intros i m Hle; simpl; [reflexivity|].
  rewrite at_repeat by lia. rewrite IH by lia.
  f_equal. simpl. f_equal. lra.
Qed.

(** [processAxis] on a zero axis: the body and gravity components are
    zero. *)
Lemma processAxis_zeros (n : nat) (timestamps : list num) (r : AxisResult) :
  processAxis (repeat (Fin 0) n) timestamps (Fin 20) = Ok r ->
  bodyComponent r = repeat (Fin 0) n /\
  gravityComponent r = repeat (Fin 0) n.
Proof.
  intros Hr. apply processAxis_inv in Hr. cbv zeta in Hr.
  destruct Hr as [Hg [Hb _]].
  rewrite medianFilter_zeros in Hg, Hb.
  rewrite butterworthFilter_zeros in Hg, Hb by lra.
  rewrite butterworthFilter_zeros in Hg by lra.
  rewrite Hg in Hb. unfold mapi in Hb.
  rewrite mapi_from_sub_zeros in Hb by lia.
  split; assumption.
Qed.

Lemma meanOf_zeros (n : nat) :
  (0 < n)%nat -> FeatureExtractor.meanOf (repeat (Fin 0) n) = Fin 0.
Proof.
  intros Hn.
  replace (repeat (Fin 0) n) with (map Fin (repeat 0 n))
    by (induction n as [|k IH]; simpl; [reflexivity|]; f_equal; apply map_repeat).
  apply meanOf_Fin.
  - destruct n; [lia|discriminate].
  - assert (H : Rsum (repeat 0 n) = 0)
      by (clear; induction n; simpl; lra).
    rewrite H. lra.
Qed.

(** ** Pearson correlation *)

Lemma squaredDeviation_Fin (xs : list R) (m : R) :
  FeatureExtractor.squaredDeviation (map Fin xs) (Fin m) = Fin (devSquares xs m).
Proof.
  unfold FeatureExtractor.squaredDeviation, devSquares.
  assert (H : forall a, fold_left (fun sum x => nadd sum (npow (nsub x (Fin m)) 2))
                (map Fin xs) (Fin a) =
              Fin (a + Rsum (map (fun x => (x - m) * (x - m)) xs))).
  { induction xs as [|x xs IH]; intros a; simpl.
    - f_equal; lra.
    - rewrite IH. f_equal. lra. }
  rewrite H. f_equal. lra.
Qed.


Lemma Rsum_squares_nonneg (xs : list R) (m : R) : 0 <= devSquares xs m.
Proof.
  unfold devSquares. induction xs as [|x xs IH]; simpl; [lra|].
  pose proof (Rle_0_sqr (x - m)) as H. unfold Rsqr in H. lra.
Qed.














(** ** Normalisation *)

Lemma nmin2_Fin (a b : R) : nmin2 (Fin a) (Fin b) = Fin (Rmin a b).
Proof.
  unfold nmin2, nlt, Rmin.
  destruct (Rlt_dec b a), (Rle_dec a b); try reflexivity; f_equal; lra.
Qed.

Lemma nmax2_Fin (a b : R) : nmax2 (Fin a) (Fin b) = Fin (Rmax a b).
Proof.
  unfold nmax2, nlt, Rmax.
  destruct (Rlt_dec a b), (Rle_dec a b); try reflexivity; f_equal; lra.
Qed.

Lemma fold_nmin2_Fin (l : list R) : forall a,
  fold_left nmin2 (map Fin l) (Fin a) = Fin (fold_left Rmin l a).
Proof.
  induction l as [|x l IH]; intros a; simpl; [reflexivity|].
  change (nmin2 (Fin a) (Fin x)) with (nmin2 (Fin a) (Fin x)).
  rewrite <- IH. f_equal. apply nmin2_Fin.
Qed.

Lemma fold_nmax2_Fin (l : list R) : forall a,
  fold_left nmax2 (map Fin l) (Fin a) = Fin (fold_left Rmax l a).
Proof.
  induction l as [|x l IH]; intros a; simpl; [reflexivity|].
  rewrite <- IH. f_equal. apply nmax2_Fin.
Qed.

Lemma fold_Rmin_le (l : list R) : forall a,
  fold_left Rmin l a <= a /\ forall x, In x l -> fold_left Rmin l a <= x.
Proof.
  induction l as [|y l IH]; intros a; simpl.
  - split; [lra|contradiction].
  - destruct (IH (Rmin a y)) as [H1 H2].
    pose proof (Rmin_l a y). pose proof (Rmin_r a y).
    split; [lra|]. intros x [<-|Hx]; [lra|now apply H2].
Qed.

Lemma fold_Rmax_ge (l : list R) : forall a,
  a <= fold_left Rmax l a /\ forall x, In x l -> x <= fold_left Rmax l a.
Proof.
  induction l as [|y l IH]; intros a; simpl.
  - split; [lra|contradiction].
  - destruct (IH (Rmax a y)) as [H1 H2].
    pose proof (Rmax_l a y). pose proof (Rmax_r a y).
    split; [lra|]. intros x [<-|Hx]; [lra|now apply H2].
Qed.

(** [Math.min] and [Math.max] of a non-empty array of finite numbers are
    finite and bound every element. *)
Lemma Math_min_Fin (l : list R) :
  l <> [] ->
  exists m, Math_min (map Fin l) = Fin m /\ forall x, In x l -> m <= x.
Proof.
  destruct l as [|a l]; [contradiction|]. intros _.
  exists (fold_left Rmin l a). unfold Math_min. cbn [map fold_left].
  change (nmin2 PInf (Fin a)) with (Fin a).
  split; [apply fold_nmin2_Fin|].
  destruct (fold_Rmin_le l a) as [H1 H2].
  intros x [<-|Hx]; [exact H1|now apply H2].
Qed.

Lemma Math_max_Fin (l : list R) :
  l <> [] ->
  exists m, Math_max (map Fin l) = Fin m /\ forall x, In x l -> x <= m.
Proof.
  destruct l as [|a l]; [contradiction|]. intros _.
  exists (fold_left Rmax l a). unfold Math_max. cbn [map fold_left].
  change (nmax2 NInf (Fin a)) with (Fin a).
  split; [apply fold_nmax2_Fin|].
  destruct (fold_Rmax_ge l a) as [H1 H2].
  intros x [<-|Hx]; [exact H1|now apply H2].
Qed.



Lemma normalizeFeatures_run (first : FeatureRow) (rest : list FeatureRow) :
  let rows := first :: rest in
  normalizeFeatures rows =
  Ok (map (fun row =>
             fold_left
               (fun o key => obj_set key (normalizedValue key rows row) o)
               (Object_keys first) (obj_assign row []))
          rows).
Proof.
  intros rows. unfold normalizeFeatures. fold rows.
  apply mapM_ok. intros row _.
  apply foldM_ok. intros o key Hkey.
  rewrite (obj_get_fold_set
             (fun key => (Math_min (map (obj_num key) rows),
                          Math_max (map (obj_num key) rows))))
    by assumption.
  reflexivity.
Qed.



Lemma fold_Rmin_In (l : list R) : forall a, In (fold_left Rmin l a) (a :: l).
Proof.
  induction l as [|y l IH]; intros a; simpl; [now left|].
  destruct (IH (Rmin a y)) as [H|H].
  - unfold Rmin in H at 1. destruct (Rle_dec a y); auto.
  - right. now right.
Qed.

Lemma fold_Rmax_In (l : list R) : forall a, In (fold_left Rmax l a) (a :: l).
Proof.
  induction l as [|y l IH]; intros a; simpl; [now left|].
  destruct (IH (Rmax a y)) as [H|H].
  - unfold Rmax in H at 1. destruct (Rle_dec a y); auto.
  - right. now right.
Qed.





Lemma Math_min_attained (l : list R) :
  l <> [] ->
  exists m, Math_min (map Fin l) = Fin m /\ In m l /\
            forall x, In x l -> m <= x.
Proof.
  intros Hne. destruct (Math_min_Fin l Hne) as [m [Hm Hle]].
  exists m. repeat split; try assumption.
  destruct l as [|a l]; [contradiction|].
  unfold Math_min in Hm. cbn [map fold_left] in Hm.
  change (nmin2 PInf (Fin a)) with (Fin a) in Hm.
  rewrite fold_nmin2_Fin in Hm. injection Hm as <-. apply fold_Rmin_In.
Qed.

Lemma Math_max_attained (l : list R) :
  l <> [] ->
  exists m, Math_max (map Fin l) = Fin m /\ In m l /\
            forall x, In x l -> x <= m.
Proof.
  intros Hne. destruct (Math_max_Fin l Hne) as [m [Hm Hle]].
  exists m. repeat split; try assumption.
  destruct l as [|a l]; [contradiction|].
  unfold Math_max in Hm. cbn [map fold_left] in Hm.
  change (nmax2 NInf (Fin a)) with (Fin a) in Hm.
  rewrite fold_nmax2_Fin in Hm. injection Hm as <-. apply fold_Rmax_In.
Qed.






(** ** Jerk *)

Lemma at_map_seq (f : nat -> num) (start len i : nat) :
  (i < len)%nat -> at_ (map f (seq start len)) i = f (start + i)%nat.
Proof.
  intros Hi. unfold at_.
  rewrite (nth_indep _ NaN (f 0%nat)) by now rewrite length_map, length_seq.
  rewrite map_nth, seq_nth by assumption. reflexivity.
Qed.

Lemma ndiv_by_zero_not_finite (v : num) : isFinite (ndiv v (Fin 0)) = false.
Proof.
  destruct v as [a| | |]; simpl; try reflexivity.
  - destruct (Req_dec_T 0 0) as [_|Hne]; [|now elim Hne].
    unfold sgn. now decide_reals.
  - now decide_reals.
  - now decide_reals.
Qed.

Lemma zero_delta (t : R) : ndiv (nsub (Fin t) (Fin t)) (Fin 1000) = Fin 0.
Proof. simpl. decide_reals. f_equal. lra. Qed.

(** C5, as the code has it.  On a non-empty series [calculateJerk]
    returns [n - 1] values, entry [i - 1] being
    [(s[i] - s[i-1]) / ((t[i] - t[i-1]) / 1000)]; it raises no error on a
    zero timestamp delta: the entry is then the non-finite quotient by
    zero. *)
Theorem calculateJerk_spec (data timestamps : list num) :
  data <> [] ->
  exists jerk,
    calculateJerk data timestamps = Ok jerk /\
    length jerk = (length data - 1)%nat /\
    (forall i, (1 <= i < length data)%nat ->
       at_ jerk (i - 1) =
       ndiv (nsub (at_ data i) (at_ data (i - 1)))
            (ndiv (nsub (at_ timestamps i) (at_ timestamps (i - 1)))
                  (Fin 1000))) /\
    (forall i t, (1 <= i < length data)%nat ->
       at_ timestamps i = Fin t -> at_ timestamps (i - 1) = Fin t ->
       isFinite (at_ jerk (i - 1)) = false).
Proof.
  intros Hne. destruct data as [|d0 data]; [contradiction|].
  eexists. split; [reflexivity|]. split; [|split].
  - rewrite length_map, length_seq. reflexivity.
  - intros i Hi. rewrite at_map_seq by lia.
    replace (1 + (i - 1))%nat with i by lia. reflexivity.
  - intros i t Hi Ht Ht'. rewrite at_map_seq by lia.
    replace (1 + (i - 1))%nat with i by lia. cbv zeta.
    rewrite Ht, Ht', zero_delta. apply ndiv_by_zero_not_finite.
Qed.

Lemma calculateJerk_spec_witness :
  [Fin 0; Fin 1] <> [] /\
  exists jerk,
    calculateJerk [Fin 0; Fin 1] [Fin 0; Fin 20] = Ok jerk /\
    length jerk = 1%nat.
Proof.
  split; [discriminate|].
  destruct (calculateJerk_spec [Fin 0; Fin 1] [Fin 0; Fin 20])
    as [jerk [H1 [H2 _]]]; [discriminate|].
  exists jerk. split; assumption.
Defined.

(** C5 as stated fails: with two equal timestamps the call returns
    normally, and the value it returns is [+Infinity]. *)
Lemma calculateJerk_zero_delta_no_error :
  calculateJerk [Fin 0; Fin 1] [Fin 40; Fin 40] = Ok [PInf] /\
  isFinite PInf = false /\
  forall e, calculateJerk [Fin 0; Fin 1] [Fin 40; Fin 40] <> Err e.
Proof.
  assert (H : calculateJerk [Fin 0; Fin 1] [Fin 40; Fin 40] = Ok [PInf]).
  { cbv [calculateJerk map seq length Nat.sub at_ nth].
    rewrite zero_delta. simpl. unfold sgn. decide_reals. reflexivity. }
  rewrite H. split; [reflexivity|]. split; [reflexivity|discriminate].
Qed.

(** ** Angles *)

Definition zeroOrNaN (v : num) : Prop := v = Fin 0 \/ v = NaN.

(** A square is a non-negative real, [+Infinity] or [NaN]. *)
Lemma npow2_cases (v : num) :
  (exists r, v = Fin r /\ npow v 2 = Fin (r * r)) \/
  (isFinite v = false /\ (npow v 2 = PInf \/ npow v 2 = NaN)).
Proof.
  destruct v as [r| | |]; simpl.
  - left. exists r. split; [reflexivity|]. f_equal. lra.
  - right. unfold sgn. decide_reals. simpl. auto.
  - right. unfold sgn. decide_reals. simpl. auto.
  - right. auto.
Qed.

Lemma sumsq_not_finite (vector : list num) : forall acc,
  acc = PInf \/ acc = NaN ->
  let s := fold_left (fun sum val => nadd sum (npow val 2)) vector acc in
  s = PInf \/ s = NaN.
Proof.
  induction vector as [|v vector IH]; intros acc Hacc; cbn [fold_left];
    [assumption|].
  apply IH.
  destruct (npow2_cases v) as [[r [_ ->]]|[_ [-> | ->]]];
    destruct Hacc as [-> | ->]; simpl; auto.
Qed.

Lemma sumsq_zero (vector : list num) : forall a,
  0 <= a ->
  fold_left (fun sum val => nadd sum (npow val 2)) vector (Fin a) = Fin 0 ->
  a = 0 /\ Forall (fun v => v = Fin 0) vector.
Proof.
  induction vector as [|v vector IH]; intros a Ha H; cbn [fold_left] in H.
  - split; [congruence|constructor].
  - destruct (npow2_cases v) as [[r [-> Hsq]]|[_ Hsq]].
    + rewrite Hsq in H. cbn [nadd] in H.
      pose proof (Rle_0_sqr r) as Hr. unfold Rsqr in Hr.
      destruct (IH (a + r * r) ltac:(lra) H) as [Hz Hrest].
      assert (Hrr : r * r = 0) by lra.
      apply Rmult_integral in Hrr.
      split; [lra|]. constructor; [f_equal; lra|assumption].
    + exfalso.
      pose proof (sumsq_not_finite vector (nadd (Fin a) (npow v 2))) as Hnf.
      cbv zeta in Hnf. rewrite H in Hnf.
      destruct Hnf as [Hnf|Hnf]; try discriminate.
      destruct Hsq as [-> | ->]; simpl; auto.
Qed.

Lemma magnitudeOf_zero (vector : list num) :
  magnitudeOf vector = Fin 0 -> Forall (fun v => v = Fin 0) vector.
Proof.
  unfold magnitudeOf. intros H.
  destruct (fold_left _ vector (Fin 0)) as [s| | |] eqn:Hs;
    simpl in H; try discriminate.
  destruct (Rlt_dec s 0) as [|Hs0]; [discriminate|].
  injection H as H. apply sqrt_eq_0 in H; [|lra]. subst s.
  apply (sumsq_zero vector 0); [lra|assumption].
Qed.

(** A magnitude is a real, [+Infinity] or [NaN]. *)
Lemma magnitudeOf_cases (vector : list num) :
  (exists r, magnitudeOf vector = Fin r) \/
  magnitudeOf vector = PInf \/ magnitudeOf vector = NaN.
Proof.
  unfold magnitudeOf.
  destruct (fold_left _ vector (Fin 0)) as [s| | |]; simpl; auto.
  destruct (Rlt_dec s 0); eauto.
Qed.

Lemma nmul_zero_l (v : num) : zeroOrNaN (nmul (Fin 0) v).
Proof.
  destruct v as [r| | |]; simpl; unfold zeroOrNaN, sgn.
  - left. f_equal. lra.
  - decide_reals. auto.
  - decide_reals. auto.
  - auto.
Qed.

Lemma nmul_zero_r (v : num) : zeroOrNaN (nmul v (Fin 0)).
Proof.
  destruct v as [r| | |]; simpl; unfold zeroOrNaN, sgn.
  - left. f_equal. lra.
  - decide_reals. auto.
  - decide_reals. auto.
  - auto.
Qed.

Lemma nadd_zeroOrNaN (a b : num) :
  zeroOrNaN a -> zeroOrNaN b -> zeroOrNaN (nadd a b).
Proof.
  intros [-> | ->] [-> | ->]; simpl; unfold zeroOrNaN; auto.
  left. f_equal. lra.
Qed.

Lemma ndiv_zeroOrNaN (a b : num) :
  zeroOrNaN a -> zeroOrNaN b -> ndiv a b = NaN.
Proof.
  intros [-> | ->] [-> | ->]; simpl; try reflexivity.
  destruct (Req_dec_T 0 0) as [_|Hne]; [|now elim Hne].
  unfold sgn. now decide_reals.
Qed.

(** The dot product when the first operand is the zero vector. *)
Lemma dot_zero_l (vector1 vector2 : list num) :
  Forall (fun v => v = Fin 0) vector1 ->
  forall start acc, zeroOrNaN acc ->
  zeroOrNaN
    (fold_left (fun sum '(val, i) => nadd sum (nmul val (at_ vector2 i)))
       (combine vector1 (seq start (length vector1))) acc).
Proof.
  induction 1 as [|v vector1 Hv _ IH]; intros start acc Hacc; simpl.
  - assumption.
  - apply IH. apply nadd_zeroOrNaN; [assumption|].
    rewrite Hv. apply nmul_zero_l.
Qed.

(** The dot product when the second operand is the zero vector. *)
Lemma dot_zero_r (vector1 vector2 : list num) :
  Forall (fun v => v = Fin 0) vector2 ->
  forall start acc, zeroOrNaN acc ->
  zeroOrNaN
    (fold_left (fun sum '(val, i) => nadd sum (nmul val (at_ vector2 i)))
       (combine vector1 (seq start (length vector1))) acc).
Proof.
  intros Hz. induction vector1 as [|v vector1 IH]; intros start acc Hacc;
    simpl.
  - assumption.
  - apply IH. apply nadd_zeroOrNaN; [assumption|].
    unfold at_. destruct (nth_in_or_default start vector2 NaN) as [Hin|Hd].
    + rewrite Forall_forall in Hz. rewrite (Hz _ Hin). apply nmul_zero_r.
    + rewrite Hd. destruct v; simpl; unfold zeroOrNaN; auto.
Qed.

Lemma calculateAngle_degenerate (vector1 vector2 : list num) :
  magnitudeOf vector1 = Fin 0 \/ magnitudeOf vector2 = Fin 0 ->
  FeatureExtractor.calculateAngle vector1 vector2 = NaN.
Proof.
  intros H. unfold FeatureExtractor.calculateAngle.
  fold (magnitudeOf vector1). fold (magnitudeOf vector2).
  assert (Hnan : forall v, ndiv v NaN = NaN) by (now intros []).
  destruct H as [H1|H2].
  - rewrite H1.
    pose proof (dot_zero_l vector1 vector2 (magnitudeOf_zero _ H1) 0%nat
                  (Fin 0) (or_introl eq_refl)) as Hdot.
    rewrite (ndiv_zeroOrNaN _ _ Hdot (nmul_zero_l _)). reflexivity.
  - rewrite H2.
    pose proof (dot_zero_r vector1 vector2 (magnitudeOf_zero _ H2) 0%nat
                  (Fin 0) (or_introl eq_refl)) as Hdot.
    rewrite (ndiv_zeroOrNaN _ _ Hdot (nmul_zero_r _)). reflexivity.
Qed.

(** C6, as the code has it.  When either operand has zero magnitude,
    [calculateAngle] performs no check and no substitution: it divides by
    zero and returns [NaN]. *)
Theorem calculateAngle_zero_magnitude (vector1 vector2 : list num) :
  magnitudeOf vector1 = Fin 0 \/ magnitudeOf vector2 = Fin 0 ->
  FeatureExtractor.calculateAngle vector1 vector2 = NaN.
Proof. apply calculateAngle_degenerate. Qed.

Lemma magnitudeOf_zero_vector :
  magnitudeOf [Fin 0; Fin 0; Fin 0] = Fin 0.
Proof.
  unfold magnitudeOf. simpl. decide_reals.
  f_equal. replace (0 + 0 * (0 * 1) + 0 * (0 * 1) + 0 * (0 * 1)) with 0 by lra.
  apply sqrt_0.
Qed.

Lemma calculateAngle_zero_magnitude_witness :
  (magnitudeOf [Fin 0; Fin 0; Fin 0] = Fin 0 \/
   magnitudeOf [Fin 0; Fin 0; Fin 1] = Fin 0) /\
  FeatureExtractor.calculateAngle [Fin 0; Fin 0; Fin 0]
    [Fin 0; Fin 0; Fin 1] = NaN.
Proof.
  split.
  - left. exact magnitudeOf_zero_vector.
  - apply calculateAngle_zero_magnitude. left. exact magnitudeOf_zero_vector.
Defined.

(** C6 as stated fails: for a zero body vector against gravity
    [(0, 0, 1)] the angle is not the sentinel [0]. *)
Lemma calculateAngle_zero_vector_not_sentinel :
  magnitudeOf [Fin 0; Fin 0; Fin 0] = Fin 0 /\
  FeatureExtractor.calculateAngle [Fin 0; Fin 0; Fin 0]
    [Fin 0; Fin 0; Fin 1] <> Fin 0.
Proof.
  split; [exact magnitudeOf_zero_vector|].
  rewrite (calculateAngle_degenerate [Fin 0; Fin 0; Fin 0]
             [Fin 0; Fin 0; Fin 1] (or_introl magnitudeOf_zero_vector)).
  discriminate.
Qed.

(** ** Angle features *)

Lemma angleVectors_combined (acc gyro : ProcessedSignals) :
  FeatureExtractor.angleVectors (combinedProcessedSignals acc gyro) =
  Ok {| FeatureExtractor.gravity := firstSample (gravity (time acc));
        FeatureExtractor.gravityMean :=
          [ FeatureExtractor.meanOf (Axes.x (gravity (time acc)));
            FeatureExtractor.meanOf (Axes.y (gravity (time acc)));
            ndiv (sum (Axes.z (gravity (time acc))))
                 (ofNat (length (Axes.y (gravity (time acc))))) ];
        FeatureExtractor.tBodyAccMean := meanVector (body (time acc));
        FeatureExtractor.tBodyAccJerkMean := meanVector (bodyJerk (time acc));
        FeatureExtractor.tBodyGyroMean := meanVector (body (time gyro));
        FeatureExtractor.tBodyGyroJerkMean :=
          meanVector (bodyJerk (time gyro)) |}.
Proof. reflexivity. Qed.

Lemma gravityMean_equal_lengths (g : Axes.t) :
  length (Axes.y g) = length (Axes.z g) ->
  [ FeatureExtractor.meanOf (Axes.x g); FeatureExtractor.meanOf (Axes.y g);
    ndiv (sum (Axes.z g)) (ofNat (length (Axes.y g))) ] = meanVector g.
Proof. intros H. unfold meanVector, FeatureExtractor.meanOf. now rewrite H. Qed.

Lemma extractAngleFeatures_combined (acc gyro : ProcessedSignals) :
  length (Axes.y (gravity (time acc))) = length (Axes.z (gravity (time acc))) ->
  FeatureExtractor.extractAngleFeatures (combinedProcessedSignals acc gyro) =
  Ok [ ("angle(tBodyAccMean,gravity)"%string,
        FeatureExtractor.calculateAngle (meanVector (body (time acc)))
          (firstSample (gravity (time acc))));
       ("angle(tBodyAccJerkMean,gravityMean)"%string,
        FeatureExtractor.calculateAngle (meanVector (bodyJerk (time acc)))
          (meanVector (gravity (time acc))));
       ("angle(tBodyGyroMean,gravityMean)"%string,
        FeatureExtractor.calculateAngle (meanVector (body (time gyro)))
          (meanVector (gravity (time acc))));
       ("angle(tBodyGyroJerkMean,gravityMean)"%string,
        FeatureExtractor.calculateAngle (meanVector (bodyJerk (time gyro)))
          (meanVector (gravity (time acc))));
       ("angle(x,gravityMean)"%string,
        FeatureExtractor.calculateAngle [Fin 1; Fin 0; Fin 0]
          (meanVector (gravity (time acc))));
       ("angle(y,gravityMean)"%string,
        FeatureExtractor.calculateAngle [Fin 0; Fin 1; Fin 0]
          (meanVector (gravity (time acc))));
       ("angle(z,gravityMean)"%string,
        FeatureExtractor.calculateAngle [Fin 0; Fin 0; Fin 1]
          (meanVector (gravity (time acc)))) ].
Proof.
  intros Hlen. unfold FeatureExtractor.extractAngleFeatures.
  rewrite angleVectors_combined. cbn [bind].
  cbn [FeatureExtractor.gravity FeatureExtractor.gravityMean
       FeatureExtractor.tBodyAccMean FeatureExtractor.tBodyAccJerkMean
       FeatureExtractor.tBodyGyroMean FeatureExtractor.tBodyGyroJerkMean].
  rewrite (gravityMean_equal_lengths _ Hlen). reflexivity.
Qed.

(** The angle between two finite 3-vectors of norms [n1] and [n2] whose
    normalised dot product is [r]. *)
Lemma calculateAngle_finite (a b c d e f n1 n2 r : R) :
  0 < n1 -> 0 < n2 ->
  a * a + b * b + c * c = n1 * n1 ->
  d * d + e * e + f * f = n2 * n2 ->
  a * d + b * e + c * f = r * (n1 * n2) ->
  -1 <= r <= 1 ->
  FeatureExtractor.calculateAngle [Fin a; Fin b; Fin c] [Fin d; Fin e; Fin f]
  = Fin (acos r).
Proof.
  intros Hn1 Hn2 H1 H2 Hdot Hr.
  cbv [FeatureExtractor.calculateAngle fold_left combine seq length at_ nth
       npow nmul nadd].
  rewrite !nsqrt_Fin by nra.
  rewrite (sqrt_of_square _ n1) by lra.
  rewrite (sqrt_of_square _ n2) by lra.
  cbn [nmul]. rewrite ndiv_Fin by nra.
  replace ((0 + a * d + b * e + c * f) / (n1 * n2)) with r
    by (rewrite Rplus_0_l, Hdot; field; lra).
  simpl. now decide_reals.
Qed.

Lemma tilted_body_mean :
  meanVector (body (time tiltedSignals)) = [Fin 1; Fin 0; Fin 0].
Proof.
  unfold meanVector, tiltedSignals; cbn [time body Axes.x Axes.y Axes.z].
  change [Fin 1; Fin 1] with (map Fin [1; 1]).
  change [Fin 0; Fin 0] with (map Fin [0; 0]).
  rewrite (meanOf_Fin [1; 1] 1), (meanOf_Fin [0; 0] 0); try discriminate;
    simpl; try lra. reflexivity.
Qed.

Lemma tilted_gravity_mean :
  meanVector (gravity (time tiltedSignals)) = [Fin 0; Fin 1; Fin 0].
Proof.
  unfold meanVector, tiltedSignals; cbn [time gravity Axes.x Axes.y Axes.z].
  change [Fin 1; Fin (-1)] with (map Fin [1; -1]).
  change [Fin 0; Fin 2] with (map Fin [0; 2]).
  change [Fin 0; Fin 0] with (map Fin [0; 0]).
  rewrite (meanOf_Fin [1; -1] 0), (meanOf_Fin [0; 2] 1),
    (meanOf_Fin [0; 0] 0); try discriminate; simpl; try lra. reflexivity.
Qed.

Lemma tilted_angle_first_sample :
  FeatureExtractor.calculateAngle (meanVector (body (time tiltedSignals)))
    (firstSample (gravity (time tiltedSignals))) = Fin 0.
Proof.
  rewrite tilted_body_mean. cbv [firstSample tiltedSignals time gravity
    Axes.x Axes.y Axes.z at_ nth].
  rewrite (calculateAngle_finite 1 0 0 1 0 0 1 1 1) by lra.
  f_equal. apply acos_1.
Qed.

Lemma tilted_angle_mean :
  FeatureExtractor.calculateAngle (meanVector (body (time tiltedSignals)))
    (meanVector (gravity (time tiltedSignals))) = Fin (PI / 2).
Proof.
  rewrite tilted_body_mean, tilted_gravity_mean.
  rewrite (calculateAngle_finite 1 0 0 0 1 0 1 1 0) by lra.
  f_equal. apply acos_0.
Qed.

(** C7, as the code has it.  On the signals [processSignalWindow]
    assembles, six of the seven angle features take the per-window mean of
    the gravity series as their gravity operand (the three axis series
    being equally long), while [angle(tBodyAccMean,gravity)] takes the
    first gravity sample of the window. *)
Theorem extractAngleFeatures_gravity_operands (acc gyro : ProcessedSignals) :
  length (Axes.y (gravity (time acc))) = length (Axes.z (gravity (time acc))) ->
  exists features,
    FeatureExtractor.extractAngleFeatures (combinedProcessedSignals acc gyro)
    = Ok features /\
    let gravityMean := meanVector (gravity (time acc)) in
    obj_get "angle(tBodyAccMean,gravity)" features =
      Some (FeatureExtractor.calculateAngle (meanVector (body (time acc)))
              (firstSample (gravity (time acc)))) /\
    obj_get "angle(tBodyAccJerkMean,gravityMean)" features =
      Some (FeatureExtractor.calculateAngle
              (meanVector (bodyJerk (time acc))) gravityMean) /\
    obj_get "angle(tBodyGyroMean,gravityMean)" features =
      Some (FeatureExtractor.calculateAngle (meanVector (body (time gyro)))
              gravityMean) /\
    obj_get "angle(tBodyGyroJerkMean,gravityMean)" features =
      Some (FeatureExtractor.calculateAngle
              (meanVector (bodyJerk (time gyro))) gravityMean) /\
    obj_get "angle(x,gravityMean)" features =
      Some (FeatureExtractor.calculateAngle [Fin 1; Fin 0; Fin 0]
              gravityMean) /\
    obj_get "angle(y,gravityMean)" features =
      Some (FeatureExtractor.calculateAngle [Fin 0; Fin 1; Fin 0]
              gravityMean) /\
    obj_get "angle(z,gravityMean)" features =
      Some (FeatureExtractor.calculateAngle [Fin 0; Fin 0; Fin 1]
              gravityMean).
Proof.
  intros Hlen. eexists. split.
  - apply extractAngleFeatures_combined, Hlen.
  - cbv zeta. repeat split; reflexivity.
Qed.

Lemma extractAngleFeatures_gravity_operands_witness :
  exists features,
    FeatureExtractor.extractAngleFeatures
      (combinedProcessedSignals tiltedSignals tiltedSignals) = Ok features /\
    obj_get "angle(tBodyAccMean,gravity)" features = Some (Fin 0).
Proof.
  destruct (extractAngleFeatures_gravity_operands tiltedSignals tiltedSignals
              eq_refl) as [features [Hrun [Hfirst _]]].
  exists features. split; [exact Hrun|].
  rewrite Hfirst. f_equal. exact tilted_angle_first_sample.
Defined.

(** C7 as stated fails: for [tiltedSignals] the gravity operand of
    [angle(tBodyAccMean,gravity)] is not the mean gravity vector; the
    feature is [0], the angle with the mean gravity vector is [pi / 2]. *)
Lemma angle_tBodyAccMean_gravity_not_mean :
  exists features,
    FeatureExtractor.extractAngleFeatures
      (combinedProcessedSignals tiltedSignals tiltedSignals) = Ok features /\
    obj_get "angle(tBodyAccMean,gravity)" features <>
    Some (FeatureExtractor.calculateAngle
            (meanVector (body (time tiltedSignals)))
            (meanVector (gravity (time tiltedSignals)))).
Proof.
  eexists. split.
  - apply extractAngleFeatures_combined. reflexivity.
  - cbn [obj_get String.eqb Ascii.eqb Bool.eqb].
    rewrite tilted_angle_first_sample, tilted_angle_mean.
    intros H. injection H as H.
    pose proof PI_RGT_0. lra.
Qed.

(** ** The keys of the feature mapping *)

Lemma memb_In (key : string) (keys : list string) :
  memb key keys = true <-> In key keys.
Proof.
  unfold memb. rewrite existsb_exists. split.
  - intros [k [Hin Heq]]. apply String.eqb_eq in Heq. now subst.
  - intros Hin. exists key. split; [assumption|apply String.eqb_refl].
Qed.

Lemma nodupb_NoDup (keys : list string) : nodupb keys = true -> NoDup keys.
Proof.
  induction keys as [|k keys IH]; simpl; intros H; constructor.
  - apply andb_prop in H. destruct H as [H _].
    intros Hin. apply memb_In in Hin. rewrite Hin in H. discriminate.
  - apply IH. apply andb_prop in H. tauto.
Qed.

Lemma same_keys_Permutation (keys1 keys2 : list string) :
  same_keys keys1 keys2 = true -> Permutation keys1 keys2.
Proof.
  unfold same_keys. intros H.
  repeat (apply andb_prop in H; destruct H as [H ?]).
  apply NoDup_Permutation; try (now apply nodupb_NoDup).
  intros k. rewrite forallb_forall in *. split; intros Hk.
  - apply memb_In. auto.
  - apply memb_In. auto.
Qed.

Lemma Object_keys_obj_set {V : Type} (key : string) (v : V) (o : object V) :
  Object_keys (obj_set key v o) = keys_set key (Object_keys o).
Proof.
  unfold keys_set. induction o as [|[k w] o IH]; simpl; [reflexivity|].
  destruct (String.eqb key k); simpl; [reflexivity|].
  rewrite IH. now destruct (existsb (String.eqb key) (Object_keys o)).
Qed.

Lemma Object_keys_obj_assign {V : Type} (entries o : object V) :
  Object_keys (obj_assign entries o)
  = keys_assign (Object_keys entries) (Object_keys o).
Proof.
  unfold obj_assign, keys_assign. revert o.
  induction entries as [|[k v] entries IH]; intros o; simpl; [reflexivity|].
  rewrite IH, Object_keys_obj_set. reflexivity.
Qed.

Lemma Object_keys_rename {V : Type} (f : string -> string) (o : object V) :
  Object_keys (map (fun '(feature, value) => (f feature, value)) o)
  = map f (Object_keys o).
Proof.
  unfold Object_keys. rewrite !map_map. apply map_ext. now intros [k v].
Qed.

Lemma Object_keys_statistics (data : list num) :
  Object_keys (FeatureExtractor.statistics data)
  = firstn 8 timeFeatureKeys.
Proof. reflexivity. Qed.

Lemma length_update {A : Type} (i : nat) (v : A) (a : list A) :
  length (update i v a) = length a.
Proof.
  revert i. induction a as [|w a IH]; intros [|i]; simpl; auto.
Qed.

Lemma length_calculateARCoefficients (data : list num) (order : nat) :
  length (FeatureExtractor.calculateARCoefficients data order) = order.
Proof.
  unfold FeatureExtractor.calculateARCoefficients.
  assert (H : forall ms state,
            length (fst (fst (fold_left
                                (FeatureExtractor.burgStep (length data))
                                ms state)))
            = length (fst (fst state))).
  { induction ms as [|m ms IH]; intros state; simpl; [reflexivity|].
    rewrite IH. destruct state as [[ar f] b].
    unfold FeatureExtractor.burgStep.
    destruct (fold_left _ (seq (m + 1) _) (Fin 0, Fin 0)) as [num den].
    destruct (fold_left _ (seq (m + 1) _) (f, b)) as [f' b'].
    simpl. apply length_update. }
  specialize (H (seq 0 order) (repeat (Fin 0) order, data, data)).
  destruct (fold_left _ (seq 0 order) _) as [[ar f] b].
  simpl in H. rewrite H. apply repeat_length.
Qed.

Lemma Object_keys_calculateTimeFeatures (data : list num) :
  Object_keys (FeatureExtractor.calculateTimeFeatures data) = timeFeatureKeys.
Proof.
  unfold FeatureExtractor.calculateTimeFeatures.
  pose proof (length_calculateARCoefficients data 4) as Hlen.
  destruct (FeatureExtractor.calculateARCoefficients data 4)
    as [|c1 [|c2 [|c3 [|c4 [|c5 rest]]]]]; try discriminate.
  rewrite Object_keys_obj_assign, Object_keys_statistics. reflexivity.
Qed.

Lemma calculateFrequencyFeatures_keys (fftData : list num) :
  Nat.even (length fftData) = true ->
  exists features,
    FeatureExtractor.calculateFrequencyFeatures fftData = Ok features /\
    Object_keys features = frequencyFeatureKeys.
Proof.
  intros Heven. unfold FeatureExtractor.calculateFrequencyFeatures.
  rewrite Heven. cbn [negb].
  destruct (fold_left _ (combine _ _) (Fin 0, Fin 0)) as [ws tm].
  eexists. split; [reflexivity|].
  rewrite !Object_keys_obj_set, Object_keys_statistics. reflexivity.
Qed.

Lemma Object_keys_calculateBandsEnergy (magnitudes : list num) (n : nat) :
  Object_keys (FeatureExtractor.calculateBandsEnergy magnitudes n) = bandKeys.
Proof.
  unfold FeatureExtractor.calculateBandsEnergy, FeatureExtractor.bands.
  cbn [fold_left]. rewrite !Object_keys_obj_set. reflexivity.
Qed.

Local Open Scope string_scope.

Ltac keys_normalize :=
  repeat first
    [ rewrite Object_keys_obj_set
    | rewrite Object_keys_obj_assign
    | rewrite Object_keys_calculateTimeFeatures
    | rewrite Object_keys_calculateBandsEnergy
    | rewrite (Object_keys_rename (V := num)) ].

Lemma timeSignalStep_keys (ps : FeatureExtractor.ProcessedSignals)
  (features : object num) (signalType : string) (x y z : list num) :
  FeatureExtractor.signalAxis ps signalType "x" = Ok (Some x) ->
  FeatureExtractor.signalAxis ps signalType "y" = Ok (Some y) ->
  FeatureExtractor.signalAxis ps signalType "z" = Ok (Some z) ->
  exists o,
    FeatureExtractor.timeSignalStep ps features signalType = Ok o /\
    Object_keys o = keysAfterTimeSignal (Object_keys features) signalType.
Proof.
  intros Hx Hy Hz.
  unfold FeatureExtractor.timeSignalStep, FeatureExtractor.signalArray.
  cbn [foldM]. unfold FeatureExtractor.timeAxisStep.
  rewrite Hx. cbn [bind]. rewrite Hy. cbn [bind]. rewrite Hz. cbn [bind].
  eexists. split; [reflexivity|].
  keys_normalize. unfold keysAfterTimeSignal. timeout 20 reflexivity.
Qed.

Lemma timeMagnitudeStep_keys (ps : FeatureExtractor.ProcessedSignals)
  (features : object num) (signalType : string) (mag : list num) :
  FeatureExtractor.signalAxis ps signalType "mag" = Ok (Some mag) ->
  exists o,
    FeatureExtractor.timeMagnitudeStep ps features signalType = Ok o /\
    Object_keys o = keysAfterTimeMagnitude (Object_keys features) signalType.
Proof.
  intros Hmag.
  unfold FeatureExtractor.timeMagnitudeStep, FeatureExtractor.signalArray.
  rewrite Hmag. cbn [bind].
  eexists. split; [reflexivity|].
  keys_normalize. unfold keysAfterTimeMagnitude. timeout 20 reflexivity.
Qed.

Lemma frequencySignalStep_keys (ps : FeatureExtractor.ProcessedSignals)
  (features : object num) (signalType : string) (x y z : list num) :
  FeatureExtractor.signalAxis ps signalType "x" = Ok (Some x) ->
  FeatureExtractor.signalAxis ps signalType "y" = Ok (Some y) ->
  FeatureExtractor.signalAxis ps signalType "z" = Ok (Some z) ->
  Nat.even (length x) = true ->
  Nat.even (length y) = true ->
  Nat.even (length z) = true ->
  exists o,
    FeatureExtractor.frequencySignalStep ps features signalType = Ok o /\
    Object_keys o = keysAfterFrequencySignal (Object_keys features) signalType.
Proof.
  intros Hx Hy Hz Ex Ey Ez.
  destruct (calculateFrequencyFeatures_keys x Ex) as [fx [Hfx Kx]].
  destruct (calculateFrequencyFeatures_keys y Ey) as [fy [Hfy Ky]].
  destruct (calculateFrequencyFeatures_keys z Ez) as [fz [Hfz Kz]].
  unfold FeatureExtractor.frequencySignalStep, FeatureExtractor.signalArray.
  cbn [foldM]. unfold FeatureExtractor.frequencyAxisStep,
    FeatureExtractor.signalArray.
  rewrite Hx, Hy, Hz. cbn [bind].
  rewrite Hfx. cbn [bind]. rewrite Hfy. cbn [bind]. rewrite Hfz. cbn [bind].
  eexists. split; [reflexivity|].
  keys_normalize. rewrite Kx, Ky, Kz.
  unfold keysAfterFrequencySignal. cbn [fold_left].
  unfold keysAfterFrequencyAxis. timeout 20 reflexivity.
Qed.

Lemma frequencyMagnitudeStep_keys (ps : FeatureExtractor.ProcessedSignals)
  (features : object num) (signalType : string) (mag : list num) :
  FeatureExtractor.signalAxis ps signalType "mag" = Ok (Some mag) ->
  Nat.even (length mag) = true ->
  exists o,
    FeatureExtractor.frequencyMagnitudeStep ps features signalType = Ok o /\
    Object_keys o
    = keysAfterFrequencyMagnitude (Object_keys features) signalType.
Proof.
  intros Hmag Emag.
  destruct (calculateFrequencyFeatures_keys mag Emag) as [fm [Hfm Km]].
  unfold FeatureExtractor.frequencyMagnitudeStep, FeatureExtractor.signalArray.
  rewrite Hmag. cbn [bind]. rewrite Hfm. cbn [bind].
  eexists. split; [reflexivity|].
  keys_normalize. rewrite Km.
  unfold keysAfterFrequencyMagnitude. timeout 20 reflexivity.
Qed.

(** A loop of [extractFeatures] over signal types, each round of which
    succeeds and extends the keys by [after]. *)
Lemma foldM_keys (step : object num -> string -> result (object num))
  (after : list string -> string -> list string) (signalTypes : list string) :
  (forall features signalType, In signalType signalTypes ->
     exists o, step features signalType = Ok o /\
               Object_keys o = after (Object_keys features) signalType) ->
  forall features,
  exists o, foldM step signalTypes features = Ok o /\
            Object_keys o = fold_left after signalTypes (Object_keys features).
Proof.
  induction signalTypes as [|st sts IH]; intros Hstep features.
  - exists features. split; reflexivity.
  - destruct (Hstep features st (or_introl eq_refl)) as [o [Ho Hk]].
    destruct (IH (fun f s Hs => Hstep f s (or_intror Hs)) o) as [o' [Ho' Hk']].
    exists o'. cbn [foldM]. rewrite Ho. cbn [bind fold_left].
    rewrite <- Hk. split; assumption.
Qed.

Ltac step_in_cases Hin :=
  cbn [In] in Hin;
  repeat (destruct Hin as [Hin|Hin]; [subst|]); [..|contradiction].

Lemma extractFeatures_keys (acc gyro : ProcessedSignals) :
  Forall (fun a => Nat.even (length a) = true) (spectraOf acc gyro) ->
  exists features,
    FeatureExtractor.extractFeatures (combinedProcessedSignals acc gyro)
    = Ok features /\
    Object_keys features = extractedKeys.
Proof.
  intros Heven. unfold spectraOf in Heven.
  repeat match goal with
         | H : Forall _ (_ :: _) |- _ =>
             let E := fresh "E" in
             apply Forall_cons_iff in H; destruct H as [E H]
         end.
  set (ps := combinedProcessedSignals acc gyro).
  unfold FeatureExtractor.extractFeatures.
  destruct (foldM_keys (FeatureExtractor.timeSignalStep ps)
              keysAfterTimeSignal
              ["tBodyAcc"; "tGravityAcc"; "tBodyAccJerk"; "tBodyGyro";
               "tBodyGyroJerk"]) with (features := @nil (string * num))
    as [o1 [H1 K1]].
  { intros features st Hin. step_in_cases Hin;
      eapply timeSignalStep_keys; reflexivity. }
  rewrite H1. cbn [bind].
  destruct (foldM_keys (FeatureExtractor.timeMagnitudeStep ps)
              keysAfterTimeMagnitude
              ["tBodyAccMag"; "tGravityAccMag"; "tBodyAccJerkMag";
               "tBodyGyroMag"; "tBodyGyroJerkMag"]) with (features := o1)
    as [o2 [H2 K2]].
  { intros features st Hin. step_in_cases Hin;
      eapply timeMagnitudeStep_keys; reflexivity. }
  rewrite H2. cbn [bind].
  destruct (foldM_keys (FeatureExtractor.frequencySignalStep ps)
              keysAfterFrequencySignal
              ["fBodyAcc"; "fBodyAccJerk"; "fBodyGyro"]) with (features := o2)
    as [o3 [H3 K3]].
  { intros features st Hin. step_in_cases Hin;
      (eapply frequencySignalStep_keys; [reflexivity..| | |]); assumption. }
  rewrite H3. cbn [bind].
  destruct (foldM_keys (FeatureExtractor.frequencyMagnitudeStep ps)
              keysAfterFrequencyMagnitude
              ["fBodyAccMag"; "fBodyBodyAccJerkMag"; "fBodyBodyGyroMag";
               "fBodyBodyGyroJerkMag"]) with (features := o3)
    as [o4 [H4 K4]].
  { intros features st Hin. step_in_cases Hin;
      (eapply frequencyMagnitudeStep_keys; [reflexivity|]); assumption. }
  rewrite H4. cbn [bind].
  exists o4. split; [reflexivity|].
  rewrite K4, K3, K2, K1. unfold extractedKeys.
  change (Object_keys (@nil (string * num))) with (@nil string).
  timeout 20 reflexivity.
Qed.

(** ** The feature mapping of one window *)

Lemma feature_list_length : length feature_list = 561%nat.
Proof. reflexivity. Qed.

Lemma all_keys_canonical :
  same_keys (keys_assign angleKeys (keys_assign extractedKeys []))
    feature_list = true.
Proof. vm_compute. reflexivity. Qed.

Lemma even_double (n : nat) : Nat.even (2 * n) = true.
Proof. rewrite Nat.even_mul. reflexivity. Qed.

Lemma assembleSignals_spectra_even (accX accY accZ gyroX gyroY gyroZ
  : AxisResult) (n : nat) :
  Forall (fun r => length (frequencyDomain r) = (2 * n)%nat)
    [accX; accY; accZ; gyroX; gyroY; gyroZ] ->
  Forall (fun a => Nat.even (length a) = true)
    (spectraOf (assembleSignals accX accY accZ)
       (assembleSignals gyroX gyroY gyroZ)).
Proof.
  intros H.
  repeat match goal with
         | H : Forall _ (_ :: _) |- _ =>
             let E := fresh "E" in
             apply Forall_cons_iff in H; destruct H as [E H]
         end.
  unfold spectraOf, assembleSignals.
  cbn [frequency fbody fbodyJerk Axes.x Axes.y Axes.z Axes.magnitude].
  repeat constructor; rewrite ?length_calculateMagnitude;
    match goal with
    | E : length ?a = _ |- Nat.even (length ?a) = true =>
        rewrite E; apply even_double
    end.
Qed.

(** What [processSignalWindow] returns on two windows of at least two
    samples. *)
Lemma processSignalWindow_run (accWindow gyroWindow : list SensorReading.t) :
  (2 <= length accWindow)%nat ->
  length gyroWindow = length accWindow ->
  exists acc gyro features angleFeatures,
    SignalProcessor.processSensorData accWindow (Fin 20) = Ok acc /\
    SignalProcessor.processSensorData gyroWindow (Fin 20) = Ok gyro /\
    FeatureExtractor.extractFeatures (combinedProcessedSignals acc gyro)
    = Ok features /\
    Object_keys features = extractedKeys /\
    FeatureExtractor.extractAngleFeatures (combinedProcessedSignals acc gyro)
    = Ok angleFeatures /\
    obj_get "angle(tBodyGyroMean,gravityMean)" angleFeatures
    = Some (FeatureExtractor.calculateAngle (meanVector (body (time gyro)))
              (meanVector (gravity (time acc)))) /\
    Object_keys angleFeatures = angleKeys /\
    processSignalWindow accWindow gyroWindow
    = Ok (obj_assign angleFeatures (obj_assign features [])).
Proof.
  intros Hacc Hgyro.
  destruct (processSensorDataFrom_ok (windowing accWindow) accWindow (Fin 20)
              Hacc) as [aX [aY [aZ [Harun [HaX [HaY HaZ]]]]]].
  destruct (processSensorDataFrom_ok (windowing gyroWindow) gyroWindow
              (Fin 20) ltac:(lia)) as [gX [gY [gZ [Hgrun [HgX [HgY HgZ]]]]]].
  apply processAxis_lengths in HaX, HaY, HaZ, HgX, HgY, HgZ;
    try (rewrite length_map; lia).
  rewrite length_map in *. rewrite Hgyro in *.
  set (acc := assembleSignals aX aY aZ) in *.
  set (gyro := assembleSignals gX gY gZ) in *.
  destruct (extractFeatures_keys acc gyro) as [features [Hf Kf]].
  { apply (assembleSignals_spectra_even _ _ _ _ _ _
             (Z.to_nat (fftSizeOf (length accWindow)))).
    repeat constructor; tauto. }
  assert (Hangle := extractAngleFeatures_combined acc gyro).
  unfold acc at 1 2 in Hangle. unfold assembleSignals in Hangle.
  cbn [time gravity Axes.y Axes.z] in Hangle. fold acc in Hangle.
  specialize (Hangle ltac:(destruct HaY as [_ [-> _]];
                           destruct HaZ as [_ [-> _]]; reflexivity)).
  eexists acc, gyro, features, _.
  split; [exact Harun|]. split; [exact Hgrun|].
  split; [exact Hf|]. split; [exact Kf|].
  split; [exact Hangle|]. split; [reflexivity|]. split; [reflexivity|].
  unfold processSignalWindow.
  change (processSensorData accWindow (Fin 20))
    with (processSensorDataFrom (windowing accWindow) accWindow (Fin 20)).
  change (processSensorData gyroWindow (Fin 20))
    with (processSensorDataFrom (windowing gyroWindow) gyroWindow (Fin 20)).
  rewrite Harun, Hgrun. cbn [bind]. fold acc gyro.
  rewrite Hf. cbn [bind]. rewrite Hangle. reflexivity.
Qed.

Lemma processSignalWindow_keys_of_run (features angleFeatures : object num) :
  Object_keys features = extractedKeys ->
  Object_keys angleFeatures = angleKeys ->
  Permutation
    (Object_keys (obj_assign angleFeatures (obj_assign features [])))
    feature_list.
Proof.
  intros Kf Ka. rewrite !Object_keys_obj_assign, Kf, Ka.
  apply same_keys_Permutation. exact all_keys_canonical.
Qed.

(** C1, as the code has it.  For every pair of 128-sample windows,
    whatever the sample values, [processSignalWindow] returns a feature
    mapping whose keys are exactly the 561 canonical names, each once. *)
Theorem processSignalWindow_keys (accWindow gyroWindow : list SensorReading.t) :
  length accWindow = 128%nat ->
  length gyroWindow = 128%nat ->
  exists row,
    processSignalWindow accWindow gyroWindow = Ok row /\
    Permutation (Object_keys row) feature_list /\
    NoDup (Object_keys row) /\
    length (Object_keys row) = 561%nat.
Proof.
  intros Hacc Hgyro.
  destruct (processSignalWindow_run accWindow gyroWindow)
    as [acc [gyro [features [angleFeatures
         [_ [_ [_ [Kf [_ [_ [Ka Hrun]]]]]]]]]]]; [lia|lia|].
  pose proof (processSignalWindow_keys_of_run _ _ Kf Ka) as Hperm.
  eexists. split; [exact Hrun|]. split; [exact Hperm|].
  split.
  - apply (Permutation_NoDup (Permutation_sym Hperm)).
    apply nodupb_NoDup. vm_compute. reflexivity.
  - rewrite (Permutation_length Hperm). reflexivity.
Qed.

Lemma processSignalWindow_keys_witness :
  exists row,
    processSignalWindow restingAccWindow restingGyroWindow = Ok row /\
    length (Object_keys row) = 561%nat.
Proof.
  destruct (processSignalWindow_keys restingAccWindow restingGyroWindow
              eq_refl eq_refl) as [row [Hrun [_ [_ Hlen]]]].
  exists row. split; assumption.
Defined.

Lemma resting_gyro_axes :
  map SensorReading.x restingGyroWindow = repeat (Fin 0) 128 /\
  map SensorReading.y restingGyroWindow = repeat (Fin 0) 128 /\
  map SensorReading.z restingGyroWindow = repeat (Fin 0) 128.
Proof. repeat split; reflexivity. Qed.

(** When the three axes of a recording are identically zero, the mean
    vector of its body component is the zero vector. *)
Lemma zero_recording_mean (readings : list SensorReading.t) (n : nat)
  (ps : ProcessedSignals) :
  (0 < n)%nat ->
  map SensorReading.x readings = repeat (Fin 0) n ->
  map SensorReading.y readings = repeat (Fin 0) n ->
  map SensorReading.z readings = repeat (Fin 0) n ->
  SignalProcessor.processSensorData readings (Fin 20) = Ok ps ->
  meanVector (body (time ps)) = [Fin 0; Fin 0; Fin 0].
Proof.
  intros Hn Ex Ey Ez Hrun.
  apply (processSensorDataFrom_inv (windowing readings)) in Hrun.
  destruct Hrun as [xP [yP [zP [Hx [Hy [Hz ->]]]]]].
  rewrite Ex in Hx. rewrite Ey in Hy. rewrite Ez in Hz.
  apply processAxis_zeros in Hx, Hy, Hz.
  destruct Hx as [Hx _], Hy as [Hy _], Hz as [Hz _].
  unfold meanVector, assembleSignals.
  cbn [time body Axes.x Axes.y Axes.z].
  rewrite Hx, Hy, Hz, meanOf_zeros by assumption. reflexivity.
Qed.

Lemma resting_gyro_mean (gyro : ProcessedSignals) :
  SignalProcessor.processSensorData restingGyroWindow (Fin 20) = Ok gyro ->
  meanVector (body (time gyro)) = [Fin 0; Fin 0; Fin 0].
Proof.
  destruct resting_gyro_axes as [Ex [Ey Ez]].
  apply (zero_recording_mean restingGyroWindow 128); [lia|assumption..].
Qed.

(** C1 as stated fails: for a device lying still the feature
    [angle(tBodyGyroMean,gravityMean)] of the mapping is [NaN]. *)
Lemma processSignalWindow_resting_not_finite :
  exists row,
    processSignalWindow restingAccWindow restingGyroWindow = Ok row /\
    obj_get "angle(tBodyGyroMean,gravityMean)" row = Some NaN /\
    isFinite NaN = false.
Proof.
  destruct (processSignalWindow_run restingAccWindow restingGyroWindow)
    as [acc [gyro [features [angleFeatures
         [_ [Hgyro [_ [_ [_ [Hget [Ka Hrun]]]]]]]]]]];
    [simpl; lia|reflexivity|].
  exists (obj_assign angleFeatures (obj_assign features [])).
  split; [exact Hrun|]. split; [|reflexivity].
  apply obj_get_obj_assign.
  - change (map fst angleFeatures) with (Object_keys angleFeatures).
    rewrite Ka. apply nodupb_NoDup. reflexivity.
  - rewrite Hget. f_equal.
    apply calculateAngle_degenerate. left.
    rewrite (resting_gyro_mean gyro Hgyro).
    exact magnitudeOf_zero_vector.
Qed.

Local Close Scope string_scope.
Local Open Scope R_scope.

(** ** Further properties of [SignalProcessor] *)

Lemma nth_mapi_from {A : Type} (f : A -> nat -> num) (a : list A) (d : A) :
  forall start i,
    (i < length a)%nat ->
    at_ (mapi_from f start a) i = f (nth i a d) (start + i)%nat.
Proof.
  unfold at_.
  induction a as [|v a IH]; intros start i Hi; simpl in Hi; [lia|].
  destruct i as [|i]; simpl.
  - now rewrite Nat.add_0_r.
  - rewrite IH by lia. f_equal. lia.
Qed.

Lemma at_mapi (f : num -> nat -> num) (a : list num) (i : nat) :
  (i < length a)%nat -> at_ (mapi f a) i = f (at_ a i) i.
Proof. intros Hi. unfold mapi. now rewrite (nth_mapi_from f a NaN). Qed.

Lemma fft_short (data : list num) :
  (length data < 2)%nat -> fft data = Err FFTSizeError.
Proof.
  intros H. destruct data as [|a [|b rest]]; simpl in H; try lia; reflexivity.
Qed.

(** X1: [fft] throws on every array of fewer than two samples, the empty
    array and the one-sample array included, and on no other array: from
    two samples on it returns, the transform size is the least power of
    two that holds the data ([n <= 2^k < 2n]) and the returned array has
    [2 * 2^k] entries. *)
Theorem fft_size (data : list num) :
  match length data with
  | 0%nat | 1%nat => fft data = Err FFTSizeError
  | _ =>
      exists (k : nat) (spectrum : list num),
        fft data = Ok spectrum /\
        length spectrum = (2 * 2 ^ k)%nat /\
        (length data <= 2 ^ k)%nat /\ (2 ^ k < 2 * length data)%nat
  end.
Proof.
  destruct (Nat.lt_ge_cases (length data) 2) as [Hlt|Hge].
  - pose proof (fft_short data Hlt) as Hshort.
    destruct (length data) as [|[|n]]; [exact Hshort|exact Hshort|lia].
  - destruct (fft_ok data Hge) as [spectrum [Hrun Hlen]].
    set (n := length data) in *.
    assert (Hsize : fftSizeOf n = (2 ^ Z.log2_up (Z.of_nat n))%Z).
    { unfold fftSizeOf. destruct n; [lia|reflexivity]. }
    pose proof (Z.log2_up_nonneg (Z.of_nat n)) as Hk.
    assert (Hspec := Z.log2_up_spec (Z.of_nat n) ltac:(lia)).
    assert (Hpow : Z.of_nat (2 ^ Z.to_nat (Z.log2_up (Z.of_nat n)))
                   = (2 ^ Z.log2_up (Z.of_nat n))%Z).
    { rewrite Nat2Z.inj_pow. rewrite Z2Nat.id by assumption. reflexivity. }
    assert (Hhalf : (2 ^ Z.log2_up (Z.of_nat n)
                     = 2 * 2 ^ Z.pred (Z.log2_up (Z.of_nat n)))%Z).
    { rewrite <- Z.pow_succ_r.
      - now rewrite Z.succ_pred.
      - assert (0 < Z.log2_up (Z.of_nat n))%Z
          by (apply Z.log2_up_pos; lia).
        lia. }
    assert (Hresult :
              exists (k : nat) (spectrum : list num),
                fft data = Ok spectrum /\
                length spectrum = (2 * 2 ^ k)%nat /\
                (n <= 2 ^ k)%nat /\ (2 ^ k < 2 * n)%nat).
    { exists (Z.to_nat (Z.log2_up (Z.of_nat n))), spectrum.
      repeat split.
      + assumption.
      + rewrite Hlen, Hsize. f_equal. apply Nat2Z.inj. rewrite Hpow.
        rewrite Z2Nat.id; [reflexivity|]. apply Z.pow_nonneg. lia.
      + apply Nat2Z.inj_le. rewrite Hpow. lia.
      + apply Nat2Z.inj_lt. rewrite Hpow. lia. }
    destruct n as [|[|n']]; [lia|lia|exact Hresult].
Qed.

Lemma processAxis_empty (timestamps : list num) (cutoffFreq : num) :
  processAxis [] timestamps cutoffFreq = Err RangeError.
Proof. reflexivity. Qed.

Lemma processAxis_single (data timestamps : list num) (cutoffFreq : num) :
  length data = 1%nat ->
  processAxis data timestamps cutoffFreq = Err FFTSizeError.
Proof.
  intros Hlen. unfold processAxis.
  set (noise := butterworthFilter (medianFilter data 3) cutoffFreq).
  set (body := mapi _ noise).
  assert (Hbody : length body = 1%nat).
  { unfold body, noise.
    now rewrite length_mapi, length_butterworthFilter, length_medianFilter. }
  destruct body as [|v [|w rest]]; simpl in Hbody; try lia.
  reflexivity.
Qed.

(** X2: [processSensorData] succeeds exactly on two or more readings: on
    no reading it throws the [RangeError] of [new Array(-1)] in
    [calculateJerk], on a single reading the size error of the transform. *)
Theorem processSensorData_outcome (readings : list SensorReading.t)
  (cutoffFreq : num) :
  match length readings with
  | 0%nat => processSensorData readings cutoffFreq = Err RangeError
  | 1%nat => processSensorData readings cutoffFreq = Err FFTSizeError
  | _ => exists ps, processSensorData readings cutoffFreq = Ok ps
  end.
Proof.
  destruct readings as [|r1 [|r2 rest]].
  - reflexivity.
  - simpl length. unfold processSensorData, processSensorDataFrom.
    now rewrite processAxis_single.
  - simpl length.
    destruct (processSensorDataFrom_ok (windowing (r1 :: r2 :: rest))
                (r1 :: r2 :: rest) cutoffFreq) as [x [y [z [Hrun _]]]].
    + simpl. lia.
    + eexists. exact Hrun.
Qed.

Lemma npow2_Fin (r : R) : npow (Fin r) 2 = Fin (r * r).
Proof. simpl. f_equal. lra. Qed.

Lemma npow2_NaN : npow NaN 2 = NaN.
Proof. reflexivity. Qed.

Lemma nadd_NaN_r (x : num) : nadd x NaN = NaN.
Proof. now destruct x. Qed.

(** *** Numbers that are not negative *)

Lemma nonNegative_Fin (r : R) : 0 <= r -> nonNegative (Fin r).
Proof. intros Hr. right. now exists r. Qed.

Lemma nonNegative_zero : nonNegative (Fin 0).
Proof. apply nonNegative_Fin. lra. Qed.

Lemma npow2_nonNegative (v : num) : v <> NaN -> nonNegative (npow v 2).
Proof.
  intros Hv. destruct v as [r| | |]; [| | |contradiction].
  - right. exists (r * r). split; [apply npow2_Fin|nra].
  - left. simpl. unfold sgn. now decide_reals.
  - left. simpl. unfold sgn. now decide_reals.
Qed.

Lemma nadd_nonNegative (a b : num) :
  nonNegative a -> nonNegative b -> nonNegative (nadd a b).
Proof.
  intros [->|[r [-> Hr]]] [->|[s [-> Hs]]]; simpl; try (now left).
  right. exists (r + s). split; [reflexivity|lra].
Qed.

Lemma nsqrt_nonNegative (a : num) : nonNegative a -> nonNegative (nsqrt a).
Proof.
  intros [->|[r [-> Hr]]]; [now left|].
  right. exists (sqrt r). split; [now apply nsqrt_Fin|apply sqrt_pos].
Qed.

Lemma ndiv_nonNegative (a : num) (d : R) :
  nonNegative a -> 0 < d -> nonNegative (ndiv a (Fin d)).
Proof.
  intros [->|[r [-> Hr]]] Hd.
  - left. simpl. now decide_reals.
  - right. rewrite ndiv_Fin by lra. eexists. split; [reflexivity|].
    apply Rmult_le_pos; [assumption|]. left. now apply Rinv_0_lt_compat.
Qed.

(** X3: [calculateMagnitude] returns one entry per entry of [x].  An entry
    is [NaN] as soon as one of the three coordinates at that position is
    [NaN], which is also what a position missing from [y] or [z] reads
    as; otherwise it is a non-negative number or [+Infinity], never
    negative. *)
Theorem calculateMagnitude_entries (x y z : list num) (i : nat) :
  (i < length x)%nat ->
  let m := at_ (calculateMagnitude x y z) i in
  length (calculateMagnitude x y z) = length x /\
  (at_ x i = NaN \/ at_ y i = NaN \/ at_ z i = NaN -> m = NaN) /\
  (at_ x i <> NaN -> at_ y i <> NaN -> at_ z i <> NaN -> nonNegative m).
Proof.
  intros Hi m. split; [apply length_calculateMagnitude|].
  unfold m, calculateMagnitude. rewrite at_mapi by assumption. split.
  - intros [H|[H|H]]; rewrite H.
    + reflexivity.
    + rewrite npow2_NaN, nadd_NaN_r. reflexivity.
    + rewrite npow2_NaN, nadd_NaN_r. reflexivity.
  - intros Hx Hy Hz. apply nsqrt_nonNegative.
    repeat apply nadd_nonNegative; now apply npow2_nonNegative.
Qed.

Lemma calculateMagnitude_entries_witness :
  at_ (calculateMagnitude [Fin 3] [] [Fin 4]) 0 = NaN.
Proof.
  assert (H : (0 < length [Fin 3])%nat) by (simpl; lia).
  destruct (calculateMagnitude_entries [Fin 3] [] [Fin 4] 0 H)
    as [_ [Hnan _]].
  apply Hnan. right. left. reflexivity.
Defined.

(** *** The median filter *)

Lemma sort_insert_Permutation (v : num) (sorted : list num) :
  Permutation (sort_insert v sorted) (v :: sorted).
Proof.
  induction sorted as [|w rest IH]; cbn [sort_insert]; [reflexivity|].
  destruct (ngt (compareFn v w) (Fin 0)); [|reflexivity].
  etransitivity; [apply perm_skip, IH|apply perm_swap].
Qed.

Lemma sort_Permutation (a : list num) : Permutation (sort a) a.
Proof.
  induction a as [|v a IH]; simpl; [constructor|].
  etransitivity; [apply sort_insert_Permutation|now constructor].
Qed.

Lemma length_sort (a : list num) : length (sort a) = length a.
Proof. apply Permutation_length, sort_Permutation. Qed.

Lemma medianFilter_In (data : list num) (windowSize : nat) :
  Forall (fun v => In v data) (medianFilter data windowSize).
Proof.
  unfold medianFilter. apply Forall_forall. intros v Hv.
  apply in_map_iff in Hv. destruct Hv as [i [Hv Hi]].
  apply in_seq in Hi. subst v.
  set (lo := (i - windowSize / 2)%nat).
  set (hi := Nat.min (length data) (i + windowSize / 2 + 1)).
  assert (Hlo : (lo <= i)%nat) by (unfold lo; lia).
  assert (Hhi : (i < hi /\ hi <= length data)%nat) by (unfold hi; lia).
  set (window := map (at_ data) (seq lo (hi - lo))).
  assert (Hlen : length (sort window) = (hi - lo)%nat).
  { unfold window. now rewrite length_sort, length_map, length_seq. }
  assert (Hin : In (at_ (sort window) (length (sort window) / 2))
                  (sort window)).
  { apply nth_In. apply Nat.div_lt; lia. }
  set (m := at_ (sort window) (length (sort window) / 2)) in *.
  apply (Permutation_in _ (sort_Permutation window)) in Hin.
  unfold window in Hin. apply in_map_iff in Hin.
  destruct Hin as [j [Hj Hjin]]. apply in_seq in Hjin.
  rewrite <- Hj. apply nth_In. lia.
Qed.

(** X4: the median filter keeps the length of the series and never invents a
    value: every output sample is one of the input samples, whatever the
    window size and whatever the samples are. *)
Theorem medianFilter_selects (data : list num) (windowSize : nat) :
  length (medianFilter data windowSize) = length data /\
  Forall (fun v => In v data) (medianFilter data windowSize).
Proof.
  split; [apply length_medianFilter|apply medianFilter_In].
Qed.

Lemma sort_pair (a b : R) :
  sort [Fin a; Fin b] = [Fin (Rmin a b); Fin (Rmax a b)].
Proof.
  unfold sort, Rmin, Rmax. simpl.
  unfold ngt, compareFn, nsub, nlt. simpl.
  destruct (Rlt_dec 0 (a + - b)); destruct (Rle_dec a b);
    try (exfalso; lra); reflexivity.
Qed.

Lemma sort_insert_pair_middle (a p q : R) :
  p <= q ->
  at_ (sort_insert (Fin a) [Fin p; Fin q]) 1 = Fin (Rmax p (Rmin a q)).
Proof.
  intros Hpq. unfold Rmin, Rmax. cbn [sort_insert].
  unfold ngt, compareFn, nsub, nlt. cbn [nneg nadd].
  destruct (Rlt_dec 0 (a + - p)); destruct (Rlt_dec 0 (a + - q));
    destruct (Rle_dec a q); cbn [at_ nth].
  all: match goal with
       | |- Fin _ = Fin (if Rle_dec ?u ?v then _ else _) =>
           destruct (Rle_dec u v)
       end.
  all: try (exfalso; lra).
  all: f_equal; lra.
Qed.

Lemma sort_triple_middle (a b c : R) :
  at_ (sort [Fin a; Fin b; Fin c]) 1 = Fin (median3 a b c).
Proof.
  change (sort [Fin a; Fin b; Fin c])
    with (sort_insert (Fin a) (sort [Fin b; Fin c])).
  rewrite sort_pair. rewrite sort_insert_pair_middle.
  - f_equal. unfold median3, Rmin, Rmax.
    repeat match goal with
      | |- context [Rle_dec ?u ?v] => destruct (Rle_dec u v)
      | H : context [Rle_dec ?u ?v] |- _ => destruct (Rle_dec u v)
      end; lra.
  - unfold Rmin, Rmax. destruct (Rle_dec b c); lra.
Qed.

(** X5: on real samples the median filter of [processAxis] returns, at an
    interior position, the middle one of the sample and its two
    neighbours; at either end of the series the window holds two samples
    and the filter returns the larger of them. *)
Theorem medianFilter_values (xs : list R) (i : nat) :
  (2 <= length xs)%nat ->
  (i < length xs)%nat ->
  at_ (medianFilter (map Fin xs) 3) i =
  Fin (if (i =? 0)%nat then Rmax (nth 0 xs 0) (nth 1 xs 0)
       else if (i =? length xs - 1)%nat
            then Rmax (nth (i - 1) xs 0) (nth i xs 0)
            else median3 (nth (i - 1) xs 0) (nth i xs 0) (nth (i + 1) xs 0)).
Proof.
  intros Hn Hi. unfold medianFilter. rewrite length_map.
  rewrite at_map_seq by assumption. cbv zeta.
  change (3 / 2)%nat with 1%nat. rewrite Nat.add_0_l.
  destruct (Nat.eqb_spec i 0) as [Hz|Hnz].
  - subst i. simpl Nat.sub at 1.
    replace (Nat.min (length xs) (0 + 1 + 1)) with 2%nat by lia.
    cbn [Nat.sub seq map].
    rewrite !at_map_Fin by lia. rewrite sort_pair. reflexivity.
  - destruct (Nat.eqb_spec i (length xs - 1)) as [Hl|Hnl].
    + replace (Nat.min (length xs) (i + 1 + 1)) with (S i) by lia.
      replace (S i - (i - 1))%nat with 2%nat by lia.
      cbn [seq map].
      replace (S (i - 1)) with i by lia.
      rewrite !at_map_Fin by lia. rewrite sort_pair. reflexivity.
    + replace (Nat.min (length xs) (i + 1 + 1)) with (S (S i)) by lia.
      replace (S (S i) - (i - 1))%nat with 3%nat by lia.
      cbn [seq map].
      replace (S (i - 1)) with i by lia.
      replace (i + 1)%nat with (S i) by lia.
      rewrite !at_map_Fin by lia.
      rewrite length_sort. cbn [length].
      change (3 / 2)%nat with 1%nat.
      apply sort_triple_middle.
Qed.

Lemma medianFilter_values_witness :
  at_ (medianFilter (map Fin [1; 5; 2; 4]) 3) 1
  = Fin (median3 1 5 2).
Proof.
  apply (medianFilter_values [1; 5; 2; 4] 1); simpl; lia.
Defined.

(** *** The Butterworth filter *)

Lemma butterworthLoop_firstn (c : ButterworthCoefficients) (k : nat) :
  forall data x1 x2 y1 y2,
    butterworthLoop c (firstn k data) x1 x2 y1 y2
    = firstn k (butterworthLoop c data x1 x2 y1 y2).
Proof.
  induction k as [|k IH]; intros data x1 x2 y1 y2; [reflexivity|].
  destruct data as [|x0 rest]; [reflexivity|].
  cbn [firstn butterworthLoop]. now rewrite IH.
Qed.

(** X7: the Butterworth filter is causal: the first [k] output samples
    depend on the first [k] input samples only, so filtering a prefix of a
    series gives the prefix of the filtered series. *)
Theorem butterworthFilter_causal (data : list num) (cutoffFreq : num)
  (k : nat) :
  butterworthFilter (firstn k data) cutoffFreq
  = firstn k (butterworthFilter data cutoffFreq).
Proof. apply butterworthLoop_firstn. Qed.

(** *** The windowing loop *)

(** X9: the windowing loop of [processSensorData] produces
    [(n - 65) / 64] windows from [n] readings (none up to 128 readings);
    window [k] holds the 128 readings from position [64 k] on and ends
    strictly before the last reading, so a window that would end with the
    last reading is not produced. *)
Theorem windowing_windows (readings : list SensorReading.t) :
  let n := length readings in
  length (windowing readings) = ((n - 65) / 64)%nat /\
  forall k, (k < length (windowing readings))%nat ->
    nth k (windowing readings) []
    = slice readings (64 * Z.of_nat k) (64 * Z.of_nat k + 128) /\
    length (nth k (windowing readings) []) = 128%nat /\
    (64 * k + 128 < n)%nat.
Proof.
  intros n. rewrite windowing_spec. rewrite length_map, length_seq.
  fold n.
  assert (Hcount : windowCount n = ((n - 65) / 64)%nat).
  { unfold windowCount.
    destruct (Nat.lt_ge_cases n 65) as [Hlt|Hge].
    - replace (n - 65)%nat with 0%nat by lia. simpl.
      assert ((Z.of_nat n - 65) / 64 < 0)%Z.
      { apply Z.div_lt_upper_bound; lia. }
      lia.
    - apply Nat2Z.inj. rewrite Nat2Z.inj_div, Nat2Z.inj_sub by lia.
      rewrite Z2Nat.id; [reflexivity|].
      apply Z.div_pos; lia. }
  split; [exact Hcount|].
  intros k Hk.
  assert (Hbound : (64 * k + 128 < n)%nat).
  { rewrite Hcount in Hk.
    assert (64 * ((n - 65) / 64) <= n - 65)%nat
      by (apply Nat.Div0.mul_div_le).
    lia. }
  assert (Hnth : nth k (map (windowAt readings) (seq 0 (windowCount n))) []
                 = windowAt readings k).
  { rewrite (nth_indep _ [] (windowAt readings 0))
      by (now rewrite length_map, length_seq).
    rewrite map_nth. rewrite seq_nth by assumption. reflexivity. }
  rewrite Hnth. unfold windowAt.
  repeat split; try assumption.
  unfold slice. rewrite length_firstn, length_skipn.
  fold n. lia.
Qed.

Lemma windowing_windows_witness :
  length (windowing (repeat (SensorReading.mk (Fin 0) (Fin 0) (Fin 0) (Fin 0))
                       193)) = 2%nat.
Proof.
  destruct (windowing_windows
              (repeat (SensorReading.mk (Fin 0) (Fin 0) (Fin 0) (Fin 0)) 193))
    as [Hlen _].
  rewrite Hlen, repeat_length. reflexivity.
Defined.

(** ** Further properties of [FeatureExtractor] *)

(** *** Correlation and angle *)

Lemma nmul_comm (x y : num) : nmul x y = nmul y x.
Proof.
  destruct x, y; simpl; try reflexivity. f_equal. apply Rmult_comm.
Qed.

(** A [reduce] that reads a second array by index, as a fold over the
    pairs of the two arrays. *)
Lemma indexed_fold_pairs {T : Type} (g : T -> num -> num -> T) :
  forall (signal1 pre rest : list num) (acc : T),
    length signal1 = length rest ->
    fold_left (fun sum '(x, i) => g sum x (at_ (pre ++ rest) i))
      (combine signal1 (seq (length pre) (length signal1))) acc
    = fold_left (fun sum '(x, y) => g sum x y) (combine signal1 rest) acc.
Proof.
  induction signal1 as [|x signal1 IH]; intros pre rest acc Hlen.
  - reflexivity.
  - destruct rest as [|y rest]; [discriminate|]. simpl in Hlen.
    cbn [length seq combine fold_left].
    unfold at_. rewrite app_nth2, Nat.sub_diag by lia. cbn [nth].
    replace (pre ++ y :: rest)%list with ((pre ++ [y]) ++ rest)%list
      by (rewrite <- app_assoc; reflexivity).
    replace (S (length pre)) with (length (pre ++ [y])%list)
      by (rewrite length_app; simpl; lia).
    apply IH. lia.
Qed.

Lemma crossDeviation_pairs (signal1 signal2 : list num) (mean1 mean2 : num) :
  length signal1 = length signal2 ->
  FeatureExtractor.crossDeviation signal1 signal2 mean1 mean2
  = fold_left (fun sum '(x, y) =>
                 nadd sum (nmul (nsub x mean1) (nsub y mean2)))
      (combine signal1 signal2) (Fin 0).
Proof.
  intros Hlen.
  exact (indexed_fold_pairs
           (fun sum x y => nadd sum (nmul (nsub x mean1) (nsub y mean2)))
           signal1 [] signal2 (Fin 0) Hlen).
Qed.

Lemma pairs_fold_swap (mean1 mean2 : num) :
  forall (signal1 signal2 : list num) (acc : num),
    fold_left (fun sum '(x, y) =>
                 nadd sum (nmul (nsub x mean1) (nsub y mean2)))
      (combine signal1 signal2) acc
    = fold_left (fun sum '(y, x) =>
                   nadd sum (nmul (nsub y mean2) (nsub x mean1)))
        (combine signal2 signal1) acc.
Proof.
  induction signal1 as [|x signal1 IH]; intros signal2 acc.
  - now destruct signal2.
  - destruct signal2 as [|y signal2]; [reflexivity|].
    cbn [combine fold_left]. rewrite (nmul_comm (nsub x mean1)). apply IH.
Qed.

Lemma calculateCorrelation_swap (signal1 signal2 : list num) :
  length signal1 = length signal2 ->
  FeatureExtractor.calculateCorrelation signal1 signal2
  = FeatureExtractor.calculateCorrelation signal2 signal1.
Proof.
  intros Hlen. unfold FeatureExtractor.calculateCorrelation.
  rewrite (crossDeviation_pairs signal1 signal2) by assumption.
  rewrite (crossDeviation_pairs signal2 signal1) by (symmetry; assumption).
  rewrite pairs_fold_swap.
  rewrite (nmul_comm (FeatureExtractor.squaredDeviation signal1 _)).
  reflexivity.
Qed.

(** X10: [calculateCorrelation] is symmetric in its two signals when they
    have the same length, whatever the samples are. *)
Theorem calculateCorrelation_symmetric (signal1 signal2 : list num) :
  length signal1 = length signal2 ->
  FeatureExtractor.calculateCorrelation signal1 signal2
  = FeatureExtractor.calculateCorrelation signal2 signal1.
Proof. apply calculateCorrelation_swap. Qed.

Lemma calculateCorrelation_symmetric_witness :
  FeatureExtractor.calculateCorrelation [Fin 1; Fin 2] [Fin 5; NaN]
  = FeatureExtractor.calculateCorrelation [Fin 5; NaN] [Fin 1; Fin 2].
Proof.
  apply (calculateCorrelation_symmetric [Fin 1; Fin 2] [Fin 5; NaN]).
  reflexivity.
Defined.

Lemma Rsum_constant (xs : list R) (c : R) :
  (forall x, In x xs -> x = c) -> Rsum xs = c * INR (length xs).
Proof.
  induction xs as [|x xs IH]; intros Hc.
  - simpl. lra.
  - change (Rsum (x :: xs)) with (x + Rsum xs).
    rewrite IH by (intros y Hy; apply Hc; now right).
    rewrite (Hc x) by now left.
    cbn [length]. rewrite S_INR. lra.
Qed.

Lemma nmul_zeroOrNaN_l (a v : num) : zeroOrNaN a -> zeroOrNaN (nmul a v).
Proof. intros [-> | ->]; [apply nmul_zero_l|now right]. Qed.

Lemma nmul_zeroOrNaN_r (a v : num) : zeroOrNaN a -> zeroOrNaN (nmul v a).
Proof.
  intros [-> | ->]; [apply nmul_zero_r|]. right. now destruct v.
Qed.

Lemma nsub_zeroOrNaN (a b : num) :
  zeroOrNaN a -> zeroOrNaN b -> zeroOrNaN (nsub a b).
Proof.
  intros [-> | ->] [-> | ->]; unfold nsub; simpl; try (now right).
  left. f_equal. lra.
Qed.

Lemma npow2_zeroOrNaN (a : num) : zeroOrNaN a -> zeroOrNaN (npow a 2).
Proof.
  intros [-> | ->].
  - left. rewrite npow2_Fin. f_equal. lra.
  - right. apply npow2_NaN.
Qed.

Lemma nsqrt_zeroOrNaN (a : num) : zeroOrNaN a -> zeroOrNaN (nsqrt a).
Proof.
  intros [-> | ->]; [|now right].
  left. rewrite nsqrt_Fin by lra. now rewrite sqrt_0.
Qed.

Lemma sum_zeros (n : nat) : forall acc, zeroOrNaN acc ->
  zeroOrNaN (fold_left nadd (repeat (Fin 0) n) acc).
Proof.
  induction n as [|n IH]; intros acc Hacc; simpl; [assumption|].
  apply IH. apply nadd_zeroOrNaN; [assumption|now left].
Qed.

(** The mean of a series of zeros is 0, or [NaN] when the series is empty. *)
Lemma mean_zeros (n : nat) :
  zeroOrNaN (ndiv (sum (repeat (Fin 0) n)) (ofNat (length (repeat (Fin 0) n)))).
Proof.
  unfold sum. destruct (sum_zeros n (Fin 0) (or_introl eq_refl)) as [-> | ->];
    [|now right].
  unfold ofNat. simpl.
  destruct (Req_dec_T (INR (length (repeat (Fin 0) n))) 0) as [_|Hne].
  - right. unfold sgn. now decide_reals.
  - left. f_equal. unfold Rdiv. lra.
Qed.

Lemma at_zeros (n i : nat) : zeroOrNaN (at_ (repeat (Fin 0) n) i).
Proof.
  unfold at_. destruct (nth_in_or_default i (repeat (Fin 0) n) NaN) as [Hin|Hd].
  - left. now apply repeat_spec in Hin.
  - right. exact Hd.
Qed.

Lemma squaredDeviation_zeros (n : nat) (mean : num) :
  zeroOrNaN mean ->
  zeroOrNaN (FeatureExtractor.squaredDeviation (repeat (Fin 0) n) mean).
Proof.
  intros Hmean. unfold FeatureExtractor.squaredDeviation.
  assert (H : forall acc, zeroOrNaN acc ->
            zeroOrNaN
              (fold_left (fun sum x => nadd sum (npow (nsub x mean) 2))
                 (repeat (Fin 0) n) acc)).
  { induction n as [|n IH]; intros acc Hacc; cbn [fold_left repeat];
      [assumption|].
    apply IH. apply nadd_zeroOrNaN; [assumption|].
    apply npow2_zeroOrNaN. apply nsub_zeroOrNaN; [now left|assumption]. }
  apply H. now left.
Qed.

Lemma crossDeviation_zeros_l (n : nat) (signal2 : list num) (mean1 mean2 : num) :
  zeroOrNaN mean1 ->
  zeroOrNaN
    (FeatureExtractor.crossDeviation (repeat (Fin 0) n) signal2 mean1 mean2).
Proof.
  intros Hmean. unfold FeatureExtractor.crossDeviation.
  generalize (length (repeat (Fin 0) n)). intros len.
  assert (H : forall start acc, zeroOrNaN acc ->
            zeroOrNaN
              (fold_left
                 (fun sum '(x, i) =>
                    nadd sum (nmul (nsub x mean1) (nsub (at_ signal2 i) mean2)))
                 (combine (repeat (Fin 0) n) (seq start len)) acc)).
  { revert len. induction n as [|n IH]; intros len start acc Hacc.
    - assumption.
    - destruct len as [|len]; [assumption|].
      cbn [repeat seq combine fold_left].
      apply IH. apply nadd_zeroOrNaN; [assumption|].
      apply nmul_zeroOrNaN_l. apply nsub_zeroOrNaN; [now left|assumption]. }
  apply H. now left.
Qed.

Lemma crossDeviation_zeros_r (n : nat) (signal1 : list num) (mean1 mean2 : num) :
  zeroOrNaN mean2 ->
  zeroOrNaN
    (FeatureExtractor.crossDeviation signal1 (repeat (Fin 0) n) mean1 mean2).
Proof.
  intros Hmean. unfold FeatureExtractor.crossDeviation.
  generalize (length signal1). intros len.
  assert (H : forall start acc, zeroOrNaN acc ->
            zeroOrNaN
              (fold_left
                 (fun sum '(x, i) =>
                    nadd sum
                      (nmul (nsub x mean1)
                         (nsub (at_ (repeat (Fin 0) n) i) mean2)))
                 (combine signal1 (seq start len)) acc)).
  { revert len. induction signal1 as [|x signal1 IH]; intros len start acc Hacc.
    - assumption.
    - destruct len as [|len]; [assumption|].
      cbn [repeat seq combine fold_left].
      apply IH. apply nadd_zeroOrNaN; [assumption|].
      apply nmul_zeroOrNaN_r. apply nsub_zeroOrNaN; [apply at_zeros|assumption]. }
  apply H. now left.
Qed.

(** X11: the correlation of a series of zeros with any series at all is
    [NaN], in either argument order: every deviation of the zero series is
    0, so the quotient is 0 / 0 (or has a [NaN] operand); nothing is thrown
    and no other value is substituted. *)
Theorem calculateCorrelation_zero_series (n : nat) (signal : list num) :
  FeatureExtractor.calculateCorrelation (repeat (Fin 0) n) signal = NaN /\
  FeatureExtractor.calculateCorrelation signal (repeat (Fin 0) n) = NaN.
Proof.
  unfold FeatureExtractor.calculateCorrelation. split.
  - apply ndiv_zeroOrNaN.
    + apply crossDeviation_zeros_l, mean_zeros.
    + apply nsqrt_zeroOrNaN, nmul_zeroOrNaN_l, squaredDeviation_zeros,
        mean_zeros.
  - apply ndiv_zeroOrNaN.
    + apply crossDeviation_zeros_r, mean_zeros.
    + apply nsqrt_zeroOrNaN, nmul_zeroOrNaN_r, squaredDeviation_zeros,
        mean_zeros.
Qed.

(** X12: whatever the two vectors are, [calculateAngle] returns either
    [NaN] or an angle between 0 and pi: never a negative angle, an angle
    above pi, or an infinity. *)
Theorem calculateAngle_range (vector1 vector2 : list num) :
  FeatureExtractor.calculateAngle vector1 vector2 = NaN \/
  exists theta,
    FeatureExtractor.calculateAngle vector1 vector2 = Fin theta /\
    0 <= theta <= PI.
Proof.
  unfold FeatureExtractor.calculateAngle.
  destruct (ndiv _ _) as [r| | |]; try (now left).
  unfold nacos.
  destruct (Rle_dec (-1) r) as [Hlo|]; [|now left].
  destruct (Rle_dec r 1) as [Hhi|]; [|now left].
  right. exists (acos r). split; [reflexivity|apply acos_bound].
Qed.

(** *** Burg's recursion *)

Lemma update_Forall {A : Type} (P : A -> Prop) (v : A) :
  P v -> forall (a : list A) (i : nat), Forall P a -> Forall P (update i v a).
Proof.
  intros Hv. induction a as [|w a IH]; intros i Ha;
    [destruct i; simpl; constructor|].
  inversion Ha; subst. destruct i as [|i]; simpl.
  - now constructor.
  - constructor; [assumption|]. now apply IH.
Qed.

Lemma update_middle {A : Type} (v w : A) (pre rest : list A) :
  update (length pre) v (pre ++ w :: rest) = (pre ++ v :: rest)%list.
Proof. induction pre as [|u pre IH]; simpl; [reflexivity|]. now rewrite IH. Qed.

Lemma burgStep_few_samples (N : nat) (ar f b : list num) (m : nat) :
  (N <= m + 1)%nat ->
  FeatureExtractor.burgStep N (ar, f, b) m = (update m NaN ar, f, b).
Proof.
  intros HN. unfold FeatureExtractor.burgStep.
  replace (N - (m + 1))%nat with 0%nat by lia.
  cbn [seq fold_left nmul]. f_equal. f_equal. f_equal.
  simpl. unfold sgn. now decide_reals.
Qed.

Lemma burg_short_fold (N : nat) (f b : list num) :
  (N < 2)%nat ->
  forall len start,
    fold_left (FeatureExtractor.burgStep N) (seq start len)
      (repeat NaN start ++ repeat (Fin 0) len, f, b)%list
    = (repeat NaN (start + len), f, b).
Proof.
  intros HN. induction len as [|len IH]; intros start.
  - cbn [seq fold_left repeat]. now rewrite app_nil_r, Nat.add_0_r.
  - cbn [seq fold_left repeat]. rewrite burgStep_few_samples by lia.
    replace start with (length (repeat NaN start)) at 2
      by apply repeat_length.
    rewrite update_middle.
    replace (repeat NaN start ++ NaN :: repeat (Fin 0) len)%list
      with (repeat NaN (S start) ++ repeat (Fin 0) len)%list.
    + rewrite IH. f_equal. f_equal. f_equal. lia.
    + cbn [repeat]. rewrite repeat_cons, <- app_assoc. reflexivity.
Qed.

Lemma burgStep_coefficients (N : nat) (state : list num * list num * list num)
  (m : nat) :
  exists k, fst (fst (FeatureExtractor.burgStep N state m))
            = update m k (fst (fst state)).
Proof.
  destruct state as [[ar f] b]. unfold FeatureExtractor.burgStep.
  destruct (fold_left _ (seq (m + 1) _) (Fin 0, Fin 0)) as [num den].
  destruct (fold_left _ (seq (m + 1) _) (f, b)) as [f' b'].
  eexists. reflexivity.
Qed.

Lemma at_update_other (i j : nat) (v : num) (a : list num) :
  i <> j -> at_ (update i v a) j = at_ a j.
Proof.
  unfold at_. revert i j. induction a as [|w a IH]; intros i j Hij.
  - now destruct i.
  - destruct i as [|i], j as [|j]; simpl; try reflexivity; try lia.
    apply IH. lia.
Qed.

Lemma at_update_same (i : nat) (v : num) (a : list num) :
  (i < length a)%nat -> at_ (update i v a) i = v.
Proof.
  unfold at_. revert i. induction a as [|w a IH]; intros i Hi; simpl in Hi.
  - lia.
  - destruct i as [|i]; simpl; [reflexivity|]. apply IH. lia.
Qed.

Lemma burg_fold_length (N : nat) (ms : list nat) :
  forall state,
    length (fst (fst (fold_left (FeatureExtractor.burgStep N) ms state)))
    = length (fst (fst state)).
Proof.
  induction ms as [|m ms IH]; intros state; cbn [fold_left]; [reflexivity|].
  rewrite IH. destruct (burgStep_coefficients N state m) as [k ->].
  apply length_update.
Qed.

Lemma burg_fold_other (N : nat) (ms : list nat) (m : nat) :
  ~ In m ms ->
  forall state,
    at_ (fst (fst (fold_left (FeatureExtractor.burgStep N) ms state))) m
    = at_ (fst (fst state)) m.
Proof.
  induction ms as [|m' ms IH]; intros Hm state; cbn [fold_left];
    [reflexivity|].
  rewrite IH by (intros Hin; apply Hm; now right).
  destruct (burgStep_coefficients N state m') as [k ->].
  apply at_update_other. intros ->. apply Hm. now left.
Qed.

(** X13: [calculateARCoefficients] returns [order] coefficients for any
    input, and coefficient [m] is [NaN] whenever the series has at most
    [m + 1] samples, because both sums of that order are empty and the
    quotient is 0 / 0; with fewer than two samples every coefficient is
    [NaN]. *)
Theorem calculateARCoefficients_few_samples (data : list num) (order m : nat) :
  let ar := FeatureExtractor.calculateARCoefficients data order in
  length ar = order /\
  ((m < order)%nat -> (length data <= m + 1)%nat -> at_ ar m = NaN) /\
  ((length data < 2)%nat -> ar = repeat NaN order).
Proof.
  intros ar. split; [apply length_calculateARCoefficients|].
  unfold ar, FeatureExtractor.calculateARCoefficients. split.
  - intros Hm Hshort.
    set (N := length data).
    set (initial := (repeat (Fin 0) order, data, data)).
    assert (Hsplit : seq 0 order
                     = (seq 0 m ++ m :: seq (S m) (order - S m))%list).
    { replace order with (m + S (order - S m))%nat at 1 by lia.
      rewrite seq_app. reflexivity. }
    assert (Hat : at_ (fst (fst (fold_left (FeatureExtractor.burgStep N)
                                   (seq 0 order) initial))) m = NaN).
    { rewrite Hsplit, fold_left_app. cbn [fold_left].
      rewrite burg_fold_other
        by (rewrite in_seq; lia).
      pose proof (burg_fold_length N (seq 0 m) initial) as Hlen.
      destruct (fold_left _ (seq 0 m) initial) as [[ar1 f1] b1].
      rewrite burgStep_few_samples by (unfold N; lia).
      cbn [fst] in *. apply at_update_same.
      rewrite Hlen. unfold initial. cbn [fst]. rewrite repeat_length. lia. }
    destruct (fold_left _ (seq 0 order) initial) as [[ar' f'] b'].
    exact Hat.
  - intros Hshort.
    pose proof (burg_short_fold (length data) data data Hshort order 0%nat)
      as Hfold.
    cbn [repeat app Nat.add] in Hfold. rewrite Hfold. reflexivity.
Qed.

Lemma calculateARCoefficients_few_samples_witness :
  at_ (FeatureExtractor.calculateARCoefficients [Fin 7; Fin 1; Fin 4] 4) 2
  = NaN.
Proof.
  destruct (calculateARCoefficients_few_samples [Fin 7; Fin 1; Fin 4] 4 2)
    as [_ [Hat _]].
  apply Hat; simpl; lia.
Defined.

(** *** The statistics of [calculateTimeFeatures] *)

Local Open Scope string_scope.

Lemma statistics_get (data : list num) :
  let features := FeatureExtractor.statistics data in
  let n := ofNat (length data) in
  let mean := ndiv (sum data) n in
  let sortedData := sort data in
  let minVal := Math_min data in
  let range := nsub (Math_max data) minVal in
  let bins :=
    fold_left
      (fun bins val =>
         FeatureExtractor.increment bins
           (nmin2 (nfloor (nmul (ndiv (nsub val minVal) range) (Fin 10)))
                  (Fin 9)))
      data (repeat (Fin 0) 10) in
  obj_get "mean()" features = Some mean /\
  obj_get "std()" features
  = Some (nsqrt (ndiv (FeatureExtractor.squaredDeviation data mean) n)) /\
  obj_get "mad()" features
  = Some (ndiv (sum (map (fun x => nabs (nsub x (at_ sortedData
                                                    (length data / 2))))
                       data)) n) /\
  obj_get "max()" features = Some (Math_max data) /\
  obj_get "min()" features = Some minVal /\
  obj_get "energy()" features
  = Some (ndiv (fold_left (fun a b => nadd a (nmul b b)) data (Fin 0)) n) /\
  obj_get "iqr()" features
  = Some (nsub (at_ sortedData (FeatureExtractor.threeQuarters (length data)))
               (at_ sortedData (FeatureExtractor.quarter (length data)))) /\
  obj_get "entropy()" features
  = Some (nneg (sum (map (fun count =>
                            let p := ndiv count n in
                            if nstrict_eq p (Fin 0) then Fin 0
                            else nmul p (nlog2 p))
                         bins))).
Proof.
  repeat split; reflexivity.
Qed.

Lemma arCoeff_keys (arCoeffs : list num) (key : string) :
  forall start,
    In key (map fst (mapi_from
                       (fun coeff i => ("arCoeff()" ++ toString (i + 1), coeff))
                       start arCoeffs)) ->
    exists rest, key = String "a" rest.
Proof.
  induction arCoeffs as [|coeff arCoeffs IH]; intros start Hin;
    [contradiction|].
  destruct Hin as [<-|Hin].
  - eexists. reflexivity.
  - now apply (IH (S start)).
Qed.

Lemma calculateTimeFeatures_get (data : list num) (key : string) :
  (forall rest, key <> String "a" rest) ->
  obj_get key (FeatureExtractor.calculateTimeFeatures data)
  = obj_get key (FeatureExtractor.statistics data).
Proof.
  intros Hkey. unfold FeatureExtractor.calculateTimeFeatures.
  apply obj_get_obj_assign_other. intros Hin.
  apply arCoeff_keys in Hin. destruct Hin as [rest Hrest].
  exact (Hkey rest Hrest).
Qed.

Local Close Scope string_scope.

Lemma sumprod_Fin (xs : list R) : forall a,
  fold_left (fun a b => nadd a (nmul b b)) (map Fin xs) (Fin a)
  = Fin (a + Rsum (map (fun x => x * x) xs)).
Proof.
  induction xs as [|x xs IH]; intros a.
  - simpl. f_equal. lra.
  - cbn [map fold_left nmul nadd]. rewrite IH. simpl. f_equal. lra.
Qed.

(** X14: on a non-empty window of real samples [min()] and [max()] are
    samples of the window, and every sample lies between them. *)
Theorem calculateTimeFeatures_extremes (xs : list R) :
  xs <> [] ->
  let features := FeatureExtractor.calculateTimeFeatures (map Fin xs) in
  exists mn mx : R,
    obj_get "min()" features = Some (Fin mn) /\
    obj_get "max()" features = Some (Fin mx) /\
    In mn xs /\ In mx xs /\
    (forall x, In x xs -> mn <= x <= mx).
Proof.
  intros Hne features.
  destruct (Math_min_attained xs Hne) as [mn [Hmin [Hmn_in Hmn]]].
  destruct (Math_max_attained xs Hne) as [mx [Hmax [Hmx_in Hmx]]].
  destruct (statistics_get (map Fin xs))
    as [_ [_ [_ [Gmax [Gmin _]]]]].
  exists mn, mx. unfold features.
  rewrite !calculateTimeFeatures_get by (intros rest; discriminate).
  rewrite Gmin, Gmax, Hmin, Hmax.
  repeat split; try reflexivity; try assumption.
  - now apply Hmn.
  - now apply Hmx.
Qed.

Lemma calculateTimeFeatures_extremes_witness :
  exists mn mx : R,
    obj_get "min()" (FeatureExtractor.calculateTimeFeatures (map Fin [1; 3]))
    = Some (Fin mn) /\
    obj_get "max()" (FeatureExtractor.calculateTimeFeatures (map Fin [1; 3]))
    = Some (Fin mx) /\
    mn <= 3 <= mx.
Proof.
  assert (Hne : [1; 3] <> []) by discriminate.
  destruct (calculateTimeFeatures_extremes [1; 3] Hne)
    as [mn [mx [H1 [H2 [_ [_ H3]]]]]].
  exists mn, mx. repeat split; try assumption; apply H3; simpl; auto.
Defined.

Lemma sort_insert_same (c : R) (n : nat) :
  sort_insert (Fin c) (repeat (Fin c) n) = repeat (Fin c) (S n).
Proof.
  destruct n as [|n]; [reflexivity|].
  cbn [repeat sort_insert]. unfold ngt, compareFn, nsub, nlt.
  cbn [nneg nadd]. destruct (Rlt_dec 0 (c + - c)); [lra|reflexivity].
Qed.

Lemma sort_repeat (c : R) (n : nat) :
  sort (repeat (Fin c) n) = repeat (Fin c) n.
Proof.
  induction n as [|n IH]; [reflexivity|].
  cbn [repeat]. unfold sort. cbn [fold_right]. fold (sort (repeat (Fin c) n)).
  rewrite IH. apply sort_insert_same.
Qed.

Lemma Math_min_repeat (c : R) (n : nat) :
  (0 < n)%nat -> Math_min (repeat (Fin c) n) = Fin c.
Proof.
  intros Hn. rewrite <- map_repeat.
  destruct (Math_min_attained (repeat c n)) as [m [Hm [Hin _]]].
  { destruct n; [lia|discriminate]. }
  apply repeat_spec in Hin. now subst m.
Qed.

Lemma Math_max_repeat (c : R) (n : nat) :
  (0 < n)%nat -> Math_max (repeat (Fin c) n) = Fin c.
Proof.
  intros Hn. rewrite <- map_repeat.
  destruct (Math_max_attained (repeat c n)) as [m [Hm [Hin _]]].
  { destruct n; [lia|discriminate]. }
  apply repeat_spec in Hin. now subst m.
Qed.

Lemma Rsum_repeat (c : R) (n : nat) : Rsum (repeat c n) = c * INR n.
Proof.
  rewrite (Rsum_constant (repeat c n) c).
  - now rewrite repeat_length.
  - intros x Hx. now apply repeat_spec in Hx.
Qed.

Lemma fold_left_repeat_fixed {A B : Type} (f : A -> B -> A) (v : B) (a : A)
  (n : nat) :
  f a v = a -> fold_left f (repeat v n) a = a.
Proof.
  intros Hf. induction n as [|n IH]; [reflexivity|].
  cbn [repeat fold_left]. now rewrite Hf.
Qed.

(** X15: on a window whose samples all equal one real value the range is
    zero and the histogram index is 0 / 0; the code does not fail and the
    entropy is not [NaN]: [entropy()], [mad()] and [iqr()] are 0, and
    [min()] and [max()] are the value. *)
Theorem calculateTimeFeatures_constant (c : R) (n : nat) :
  (0 < n)%nat ->
  let features := FeatureExtractor.calculateTimeFeatures (repeat (Fin c) n) in
  obj_get "mad()" features = Some (Fin 0) /\
  obj_get "max()" features = Some (Fin c) /\
  obj_get "min()" features = Some (Fin c) /\
  obj_get "iqr()" features = Some (Fin 0) /\
  obj_get "entropy()" features = Some (Fin 0).
Proof.
  intros Hn features.
  assert (HnR : INR n <> 0) by (apply not_0_INR; lia).
  destruct (statistics_get (repeat (Fin c) n))
    as [_ [_ [Gmad [Gmax [Gmin [_ [Giqr Gentropy]]]]]]].
  unfold features.
  rewrite !calculateTimeFeatures_get by (intros rest; discriminate).
  rewrite Gmad, Gmax, Gmin, Giqr, Gentropy.
  clear Gmad Gmax Gmin Giqr Gentropy.
  rewrite sort_repeat, repeat_length.
  rewrite Math_min_repeat, Math_max_repeat by assumption.
  rewrite !at_repeat
    by (unfold FeatureExtractor.quarter, FeatureExtractor.threeQuarters;
        apply Nat.Div0.div_lt_upper_bound; lia).
  repeat split.
  - rewrite map_repeat. cbn [nsub nneg nadd nabs].
    replace (c + - c) with 0 by lra. rewrite Rabs_R0.
    rewrite <- map_repeat, sum_Fin, Rsum_repeat. unfold ofNat.
    rewrite ndiv_Fin by assumption. do 2 f_equal. now field.
  - cbn [nsub nneg nadd]. do 2 f_equal. lra.
  - rewrite fold_left_repeat_fixed.
    + cbn [repeat map]. unfold ofNat.
      rewrite ndiv_Fin by assumption.
      replace (0 / INR n) with 0 by now field.
      cbn [nstrict_eq]. destruct (Req_dec_T 0 0); [|lra].
      simpl. do 2 f_equal. lra.
    + cbn [nsub nneg nadd]. unfold ndiv.
      destruct (Req_dec_T (c + - c) 0); [|lra].
      replace (sgn (c + - c)) with Zero
        by (unfold sgn; now decide_reals).
      reflexivity.
Qed.

Lemma calculateTimeFeatures_constant_witness :
  obj_get "entropy()"
    (FeatureExtractor.calculateTimeFeatures (repeat (Fin 5) 4))
  = Some (Fin 0).
Proof.
  assert (Hn : (0 < 4)%nat) by lia.
  exact (proj2 (proj2 (proj2 (proj2
           (calculateTimeFeatures_constant 5 4 Hn))))).
Defined.

(** *** Frequency features *)

Lemma fft_even_length (data spectrum : list num) :
  fft data = Ok spectrum -> Nat.even (length spectrum) = true.
Proof.
  unfold fft.
  destruct ((fftSizeOf (length data) <=? 1)%Z
            || negb (isPowerOfTwo (fftSizeOf (length data))));
    [discriminate|].
  intros H. injection H as <-. rewrite length_transform. apply even_double.
Qed.

(** X16: [calculateFrequencyFeatures] throws the [RangeError] of
    [new Array(n / 2)] exactly on arrays of odd length; every spectrum
    returned by [fft] has even length, so on the output of [fft] it
    returns, with the twelve frequency feature names. *)
Theorem calculateFrequencyFeatures_after_fft (fftData : list num) :
  (Nat.even (length fftData) = false ->
   FeatureExtractor.calculateFrequencyFeatures fftData = Err RangeError) /\
  (forall data,
     fft data = Ok fftData ->
     exists features,
       FeatureExtractor.calculateFrequencyFeatures fftData = Ok features /\
       Object_keys features = frequencyFeatureKeys).
Proof.
  split.
  - intros Hodd. unfold FeatureExtractor.calculateFrequencyFeatures.
    now rewrite Hodd.
  - intros data Hrun. apply calculateFrequencyFeatures_keys.
    exact (fft_even_length data fftData Hrun).
Qed.

Lemma calculateFrequencyFeatures_after_fft_witness :
  FeatureExtractor.calculateFrequencyFeatures [Fin 1; Fin 2; Fin 3]
  = Err RangeError.
Proof.
  apply (calculateFrequencyFeatures_after_fft [Fin 1; Fin 2; Fin 3]).
  reflexivity.
Defined.

Lemma magnitudeSpectrum_Fin (xs : list R) :
  FeatureExtractor.magnitudeSpectrum (map Fin xs)
  = map Fin (map (fun i => sqrt (nth (2 * i) xs 0 * nth (2 * i) xs 0
                                 + nth (2 * i + 1) xs 0 * nth (2 * i + 1) xs 0))
               (seq 0 (length xs / 2))).
Proof.
  unfold FeatureExtractor.magnitudeSpectrum. rewrite length_map, map_map.
  apply map_ext_in. intros i Hi. apply in_seq in Hi.
  assert (Hdiv : (2 * (length xs / 2) <= length xs)%nat)
    by (apply Nat.Div0.mul_div_le).
  rewrite !at_map_Fin by lia. rewrite !npow2_Fin. cbn [nadd].
  apply nsqrt_Fin. nra.
Qed.

Ltac num_cases :=
  unfold nmax2, nlt, nstrict_eq in *;
  repeat match goal with
    | H : context [Rlt_dec ?a ?b] |- _ => destruct (Rlt_dec a b)
    | |- context [Rlt_dec ?a ?b] => destruct (Rlt_dec a b)
    | H : context [Req_dec_T ?a ?b] |- _ => destruct (Req_dec_T a b)
    | |- context [Req_dec_T ?a ?b] => destruct (Req_dec_T a b)
    end;
  try congruence; try (exfalso; lra); try (f_equal; lra).

Lemma nmax2_cases (a b : num) :
  a <> NaN -> b <> NaN ->
  nmax2 a b <> NaN /\ (nmax2 a b = a \/ nmax2 a b = b) /\
  nlt (nmax2 a b) a = false /\ nlt (nmax2 a b) b = false.
Proof.
  intros Ha Hb.
  destruct a as [r| | |], b as [s| | |]; try contradiction;
    repeat split; try (now left); try (now right); num_cases;
    try (left; congruence); try (right; congruence).
Qed.

Lemma nlt_false_trans (a b c : num) :
  a <> NaN -> b <> NaN -> c <> NaN ->
  nlt a b = false -> nlt b c = false -> nlt a c = false.
Proof.
  intros Ha Hb Hc Hab Hbc.
  destruct a as [r| | |], b as [s| | |], c as [t| | |]; try contradiction;
    num_cases.
Qed.

Lemma nlt_trichotomy (a b : num) :
  a <> NaN -> b <> NaN ->
  nlt b a = false -> nstrict_eq a b = false -> nlt a b = true.
Proof.
  intros Ha Hb Hba Hne.
  destruct a as [r| | |], b as [s| | |]; try contradiction; num_cases.
Qed.

Lemma nstrict_eq_eq (a b : num) : nstrict_eq a b = true -> a = b.
Proof. destruct a as [r| | |], b as [s| | |]; num_cases. Qed.

Lemma nstrict_eq_refl (a : num) : a <> NaN -> nstrict_eq a a = true.
Proof. intros Ha. destruct a as [r| | |]; try contradiction; num_cases. Qed.

Lemma nlt_NInf_false (x : num) : x <> NaN -> nlt NInf x = false -> x = NInf.
Proof. intros Hx H. destruct x; try contradiction; num_cases. Qed.

(** [Math.max] over numbers none of which is [NaN]. *)
Lemma fold_nmax2_largest (values : list num) :
  Forall (fun v => v <> NaN) values ->
  forall acc, acc <> NaN ->
    let m := fold_left nmax2 values acc in
    m <> NaN /\ (m = acc \/ In m values) /\ nlt m acc = false /\
    forall v, In v values -> nlt m v = false.
Proof.
  induction 1 as [|w values Hw Hvalues IH]; intros acc Hacc; cbn [fold_left].
  - repeat split; try assumption; try (now left).
    + destruct acc; try contradiction; num_cases.
    + intros v [].
  - destruct (nmax2_cases acc w Hacc Hw) as [Hn [Hsel [Hge1 Hge2]]].
    destruct (IH (nmax2 acc w) Hn) as [Hm [Hin [Hge Hall]]].
    cbv zeta. repeat split.
    + assumption.
    + destruct Hin as [->|Hin]; [|right; now right].
      destruct Hsel as [->| ->]; [now left|right; now left].
    + now apply (nlt_false_trans _ (nmax2 acc w) acc).
    + intros v [<-|Hv]; [|now apply Hall].
      now apply (nlt_false_trans _ (nmax2 acc w) w).
Qed.

Lemma Math_max_largest (values : list num) :
  values <> [] ->
  Forall (fun v => v <> NaN) values ->
  Math_max values <> NaN /\ In (Math_max values) values /\
  forall v, In v values -> nlt (Math_max values) v = false.
Proof.
  intros Hne Hvalues. unfold Math_max.
  destruct (fold_nmax2_largest values Hvalues NInf ltac:(discriminate))
    as [Hm [Hin [_ Hall]]].
  repeat split; try assumption.
  destruct Hin as [Heq|Hin]; [|assumption].
  destruct values as [|w values]; [contradiction|].
  rewrite Heq. left.
  apply nlt_NInf_false.
  - now inversion Hvalues.
  - rewrite <- Heq. apply Hall. now left.
Qed.

Lemma indexOfFrom_found (a : list num) (v : num) :
  v <> NaN -> In v a ->
  forall start,
  exists i,
    FeatureExtractor.indexOfFrom v a start = ofNat (start + i) /\
    (i < length a)%nat /\
    at_ a i = v /\
    forall j, (j < i)%nat -> nstrict_eq (at_ a j) v = false.
Proof.
  intros Hv. induction a as [|w a IH]; intros Hin start; [contradiction|].
  cbn [FeatureExtractor.indexOfFrom].
  destruct (nstrict_eq w v) eqn:Heq.
  - exists 0%nat. rewrite Nat.add_0_r. repeat split.
    + simpl. lia.
    + now apply nstrict_eq_eq.
    + intros j Hj. lia.
  - destruct Hin as [->|Hin].
    { rewrite nstrict_eq_refl in Heq by assumption. discriminate. }
    destruct (IH Hin (S start)) as [i [Hrun [Hi [Hnth Hfirst]]]].
    exists (S i). repeat split.
    + rewrite Hrun. f_equal. lia.
    + simpl. lia.
    + exact Hnth.
    + intros [|j] Hj; [exact Heq|]. apply Hfirst. lia.
Qed.

(** The expression [magnitudes.indexOf(Math.max(...magnitudes))]. *)
Lemma indexOf_max (magnitudes : list num) :
  magnitudes <> [] ->
  Forall (fun v => v <> NaN) magnitudes ->
  exists i,
    FeatureExtractor.indexOf magnitudes (Math_max magnitudes) = ofNat i /\
    (i < length magnitudes)%nat /\
    at_ magnitudes i = Math_max magnitudes /\
    (forall j, (j < length magnitudes)%nat ->
               nlt (at_ magnitudes i) (at_ magnitudes j) = false) /\
    (forall j, (j < i)%nat ->
               nlt (at_ magnitudes j) (at_ magnitudes i) = true).
Proof.
  intros Hne Hvalues.
  destruct (Math_max_largest magnitudes Hne Hvalues) as [Hm [Hin Hall]].
  destruct (indexOfFrom_found magnitudes _ Hm Hin 0)
    as [i [Hidx [Hi [Hnth Hfirst]]]].
  exists i. unfold FeatureExtractor.indexOf. rewrite Hnth.
  repeat split; try assumption.
  - intros j Hj. apply Hall. unfold at_. now apply nth_In.
  - intros j Hj.
    assert (Hj' : (j < length magnitudes)%nat) by lia.
    assert (Hnn : at_ magnitudes j <> NaN).
    { rewrite Forall_forall in Hvalues. apply Hvalues.
      unfold at_. now apply nth_In. }
    apply nlt_trichotomy; try assumption.
    + apply Hall. unfold at_. now apply nth_In.
    + now apply Hfirst.
Qed.

(** X17: [magnitudes.indexOf(Math.max(...magnitudes))], the expression
    behind the feature [maxInds], finds the first largest entry of any
    non-empty array of magnitudes without [NaN]: an index inside the
    array, whose entry is the maximum, with no entry above it and every
    earlier entry strictly below.  On a real array of even, non-zero
    length the feature is therefore a bin number below half the length,
    never the -1 of a failed [indexOf]. *)
Theorem maxInds_first_maximum (magnitudes : list num) (xs : list R) :
  (magnitudes <> [] ->
   Forall (fun v => v <> NaN) magnitudes ->
   exists i,
     FeatureExtractor.indexOf magnitudes (Math_max magnitudes) = ofNat i /\
     (i < length magnitudes)%nat /\
     at_ magnitudes i = Math_max magnitudes /\
     (forall j, (j < length magnitudes)%nat ->
                nlt (at_ magnitudes i) (at_ magnitudes j) = false) /\
     (forall j, (j < i)%nat ->
                nlt (at_ magnitudes j) (at_ magnitudes i) = true)) /\
  (Nat.even (length xs) = true ->
   (2 <= length xs)%nat ->
   exists (features : object num) (i : nat),
     FeatureExtractor.calculateFrequencyFeatures (map Fin xs) = Ok features /\
     obj_get "maxInds" features = Some (ofNat i) /\
     (i < length xs / 2)%nat).
Proof.
  split; [apply indexOf_max|].
  intros Heven Hlen.
  pose proof (magnitudeSpectrum_Fin xs) as Hms.
  set (ms := map (fun i => sqrt (nth (2 * i) xs 0 * nth (2 * i) xs 0
                                 + nth (2 * i + 1) xs 0
                                   * nth (2 * i + 1) xs 0))
               (seq 0 (length xs / 2))) in *.
  assert (Hlms : length (map Fin ms) = (length xs / 2)%nat)
    by (unfold ms; now rewrite !length_map, length_seq).
  assert (Hne : map Fin ms <> []).
  { intros Hnil. rewrite Hnil in Hlms. cbn [length] in Hlms.
    assert (1 <= length xs / 2)%nat
      by (apply Nat.div_le_lower_bound; lia).
    lia. }
  assert (Hfin : Forall (fun v => v <> NaN) (map Fin ms)).
  { apply Forall_forall. intros v Hv. apply in_map_iff in Hv.
    destruct Hv as [x [<- _]]. discriminate. }
  destruct (indexOf_max (map Fin ms) Hne Hfin) as [i [Hidx [Hi _]]].
  unfold FeatureExtractor.calculateFrequencyFeatures.
  rewrite length_map, Heven. cbn [negb]. rewrite Hms.
  destruct (fold_left _ (combine _ _) (Fin 0, Fin 0)) as [ws tm].
  eexists. exists i. split; [reflexivity|]. split.
  - rewrite !obj_get_set_neq by discriminate. rewrite obj_get_set_eq.
    f_equal. exact Hidx.
  - now rewrite <- Hlms.
Qed.

Lemma maxInds_first_maximum_witness :
  exists (features : object num) (i : nat),
    FeatureExtractor.calculateFrequencyFeatures (map Fin [3; 4; 0; 1])
    = Ok features /\
    obj_get "maxInds" features = Some (ofNat i) /\
    (i < 2)%nat.
Proof.
  assert (He : Nat.even (length [3; 4; 0; 1]) = true) by reflexivity.
  assert (Hl : (2 <= length [3; 4; 0; 1])%nat) by (simpl; lia).
  destruct (maxInds_first_maximum [] [3; 4; 0; 1]) as [_ Hfeature].
  destruct (Hfeature He Hl) as [features [i [Hrun [Hget Hi]]]].
  exists features, i. repeat split; assumption.
Defined.

(** *** Band energies *)

Lemma obj_set_Forall {V : Type} (P : V -> Prop) (key : string) (v : V) :
  P v ->
  forall o : object V,
    Forall (fun kv => P (snd kv)) o ->
    Forall (fun kv => P (snd kv)) (obj_set key v o).
Proof.
  intros Hv. induction o as [|[k w] o IH]; intros Ho.
  - simpl. now repeat constructor.
  - inversion Ho; subst. cbn [obj_set].
    destruct (String.eqb key k); constructor; auto.
Qed.

Lemma bandsEnergy_fold_Forall (P : num -> Prop) (magnitudes : list num)
  (bandSize : nat) :
  forall (bs : list (nat * nat)) (o : object num),
    (forall bandStart bandEnd, In (bandStart, bandEnd) bs ->
       P (ndiv (fold_left (fun sum mag => nadd sum (npow mag 2))
                  (slice magnitudes (Z.of_nat (bandStart * bandSize))
                     (Z.of_nat (bandEnd * bandSize))) (Fin 0))
               (ofZ (Z.of_nat (bandEnd * bandSize)
                     - Z.of_nat (bandStart * bandSize))))) ->
    Forall (fun kv => P (snd kv)) o ->
    Forall (fun kv => P (snd kv))
      (fold_left
         (fun features '(bandStart, bandEnd) =>
            let start := (bandStart * bandSize)%nat in
            let end_ := (bandEnd * bandSize)%nat in
            let energy :=
              ndiv (fold_left (fun sum mag => nadd sum (npow mag 2))
                      (slice magnitudes (Z.of_nat start) (Z.of_nat end_))
                      (Fin 0))
                   (ofZ (Z.of_nat end_ - Z.of_nat start)) in
            obj_set ("bandsEnergy()-" ++ toString (bandStart + 1) ++ ","
                     ++ toString bandEnd) energy features)
         bs o).
Proof.
  induction bs as [|[bandStart bandEnd] bs IH]; intros o Hband Ho.
  - exact Ho.
  - cbn [fold_left]. apply IH.
    + intros s e Hin. apply Hband. now right.
    + apply obj_set_Forall; [|exact Ho]. apply Hband. now left.
Qed.

Lemma bands_increasing (bandStart bandEnd : nat) :
  In (bandStart, bandEnd) FeatureExtractor.bands ->
  (bandStart < bandEnd)%nat.
Proof.
  unfold FeatureExtractor.bands. intros Hin.
  repeat (destruct Hin as [Heq|Hin];
          [injection Heq as <- <-; lia|]).
  contradiction.
Qed.

Lemma Rsum_squares_total_nonneg (xs : list R) :
  0 <= Rsum (map (fun v => v * v) xs).
Proof. induction xs as [|x xs IH]; simpl; [lra|nra]. Qed.

Lemma sumSquares_nonNegative (values : list num) :
  Forall (fun v => v <> NaN) values ->
  forall acc, nonNegative acc ->
    nonNegative (fold_left (fun sum mag => nadd sum (npow mag 2)) values acc).
Proof.
  induction 1 as [|v values Hv _ IH]; intros acc Hacc; cbn [fold_left].
  - assumption.
  - apply IH. apply nadd_nonNegative; [assumption|].
    now apply npow2_nonNegative.
Qed.

Lemma firstn_Forall {A : Type} (P : A -> Prop) (n : nat) (a : list A) :
  Forall P a -> Forall P (firstn n a).
Proof.
  intros Ha. revert n. induction Ha as [|v a Hv _ IH]; intros [|n];
    cbn [firstn]; constructor; auto.
Qed.

Lemma skipn_Forall {A : Type} (P : A -> Prop) (n : nat) (a : list A) :
  Forall P a -> Forall P (skipn n a).
Proof.
  intros Ha. revert n. induction Ha as [|v a Hv Ha IH]; intros [|n];
    cbn [skipn]; try constructor; auto.
Qed.

Lemma slice_Forall {A : Type} (P : A -> Prop) (a : list A) (i j : Z) :
  Forall P a -> Forall P (slice a i j).
Proof. intros Ha. unfold slice. now apply firstn_Forall, skipn_Forall. Qed.

(** X18: [calculateBandsEnergy] with 64 bands always files the fourteen band
    names.  With fewer than 64 magnitudes the band size is 0, every band
    is empty and every band energy is the quotient 0 / 0, [NaN]; from 64
    magnitudes on, none of them [NaN], every band energy is a non-negative
    number or [+Infinity]. *)
Theorem calculateBandsEnergy_values (magnitudes : list num) :
  let features := FeatureExtractor.calculateBandsEnergy magnitudes 64 in
  Object_keys features = bandKeys /\
  ((length magnitudes < 64)%nat ->
   Forall (fun kv => snd kv = NaN) features) /\
  ((64 <= length magnitudes)%nat ->
   Forall (fun v => v <> NaN) magnitudes ->
   Forall (fun kv => nonNegative (snd kv)) features).
Proof.
  intros features. split; [apply Object_keys_calculateBandsEnergy|].
  unfold features, FeatureExtractor.calculateBandsEnergy. split.
  - intros Hshort.
    replace (length magnitudes / 64)%nat with 0%nat
      by (symmetry; apply Nat.div_small; lia).
    apply (bandsEnergy_fold_Forall (fun v => v = NaN)); [|constructor].
    intros s e _. rewrite !Nat.mul_0_r. unfold slice, ofZ.
    cbn [Z.of_nat Z.sub Z.to_nat firstn fold_left Z.opp Z.add].
    simpl. unfold sgn. now decide_reals.
  - intros Hlong Hvalues.
    assert (Hsize : (1 <= length magnitudes / 64)%nat)
      by (apply Nat.div_le_lower_bound; lia).
    apply (bandsEnergy_fold_Forall nonNegative); [|constructor].
    intros s e Hin. apply bands_increasing in Hin. unfold ofZ.
    assert (Hden : (0 < Z.of_nat (e * (length magnitudes / 64))
                        - Z.of_nat (s * (length magnitudes / 64)))%Z) by nia.
    apply ndiv_nonNegative; [|now apply IZR_lt].
    apply sumSquares_nonNegative; [|apply nonNegative_zero].
    now apply slice_Forall.
Qed.

Lemma calculateBandsEnergy_values_witness :
  Forall (fun kv => snd kv = NaN)
    (FeatureExtractor.calculateBandsEnergy [Fin 1; Fin 2] 64).
Proof.
  apply (calculateBandsEnergy_values [Fin 1; Fin 2]). simpl. lia.
Defined.

(** *** Missing signals *)

Local Open Scope string_scope.

Lemma signalAxis_error (ps : FeatureExtractor.ProcessedSignals)
  (signalType axis : string) (e : error) :
  FeatureExtractor.signalAxis ps signalType axis = Err e -> e = TypeError.
Proof.
  unfold FeatureExtractor.signalAxis.
  destruct (obj_get signalType ps); [discriminate|]. now intros [= <-].
Qed.

Lemma signalArray_error (ps : FeatureExtractor.ProcessedSignals)
  (signalType axis : string) (e : error) :
  FeatureExtractor.signalArray ps signalType axis = Err e -> e = TypeError.
Proof.
  unfold FeatureExtractor.signalArray.
  destruct (FeatureExtractor.signalAxis ps signalType axis) as [[data|]|e']
    eqn:Haxis; cbn [bind].
  - discriminate.
  - now intros [= <-].
  - intros [= <-]. now apply signalAxis_error in Haxis.
Qed.

Lemma signalArray_missing (ps : FeatureExtractor.ProcessedSignals)
  (signalType axis : string) :
  obj_get signalType ps = None \/
  (exists group, obj_get signalType ps = Some group /\
                 obj_get axis group = None) ->
  FeatureExtractor.signalArray ps signalType axis = Err TypeError.
Proof.
  unfold FeatureExtractor.signalArray, FeatureExtractor.signalAxis.
  intros [Hnone|[group [Hsome Hnone]]].
  - now rewrite Hnone.
  - rewrite Hsome. cbn [bind]. now rewrite Hnone.
Qed.

Lemma foldM_error_kind {A T : Type} (f : T -> A -> result T) (e0 : error)
  (a : list A) :
  (forall s v e, f s v = Err e -> e = e0) ->
  forall s e, foldM f a s = Err e -> e = e0.
Proof.
  intros Hf. induction a as [|v a IH]; intros s e; [discriminate|].
  cbn [foldM]. destruct (f s v) as [s'|e'] eqn:Hstep; cbn [bind].
  - apply IH.
  - intros [= <-]. exact (Hf _ _ _ Hstep).
Qed.

Lemma foldM_reaches {A T : Type} (f : T -> A -> result T) (a : list A) :
  forall s s',
    foldM f a s = Ok s' ->
    forall v, In v a -> exists s1 s2, f s1 v = Ok s2.
Proof.
  induction a as [|w a IH]; intros s s' Hrun v Hin; [contradiction|].
  cbn [foldM] in Hrun. destruct (f s w) as [s1|e] eqn:Hstep; cbn [bind] in Hrun;
    [|discriminate].
  destruct Hin as [<-|Hin].
  - now exists s, s1.
  - exact (IH s1 s' Hrun v Hin).
Qed.

Lemma timeAxisStep_error (ps : FeatureExtractor.ProcessedSignals)
  (signalType : string) (state : object num * num) (axis : string) (e : error) :
  FeatureExtractor.timeAxisStep ps signalType state axis = Err e ->
  e = TypeError.
Proof.
  unfold FeatureExtractor.timeAxisStep. destruct state as [features sma].
  destruct (FeatureExtractor.signalAxis ps signalType axis) as [[data|]|e']
    eqn:Haxis; cbn [bind]; try discriminate.
  intros [= <-]. now apply signalAxis_error in Haxis.
Qed.

Lemma timeSignalStep_result (ps : FeatureExtractor.ProcessedSignals)
  (features : object num) (signalType : string) :
  (exists o x y z,
     FeatureExtractor.timeSignalStep ps features signalType = Ok o /\
     FeatureExtractor.signalArray ps signalType "x" = Ok x /\
     FeatureExtractor.signalArray ps signalType "y" = Ok y /\
     FeatureExtractor.signalArray ps signalType "z" = Ok z) \/
  FeatureExtractor.timeSignalStep ps features signalType = Err TypeError.
Proof.
  unfold FeatureExtractor.timeSignalStep.
  destruct (foldM _ ["x"; "y"; "z"] (features, Fin 0))
    as [[features' sma]|e] eqn:Hfold; cbn [bind].
  - destruct (FeatureExtractor.signalArray ps signalType "x") as [x|e]
      eqn:Hx; cbn [bind];
      [|right; now rewrite (signalArray_error _ _ _ _ Hx)].
    destruct (FeatureExtractor.signalArray ps signalType "y") as [y|e]
      eqn:Hy; cbn [bind];
      [|right; now rewrite (signalArray_error _ _ _ _ Hy)].
    destruct (FeatureExtractor.signalArray ps signalType "z") as [z|e]
      eqn:Hz; cbn [bind];
      [|right; now rewrite (signalArray_error _ _ _ _ Hz)].
    left. now exists
      (obj_set (signalType ++ "-correlation()-y,z")
         (FeatureExtractor.calculateCorrelation y z)
         (obj_set (signalType ++ "-correlation()-x,z")
            (FeatureExtractor.calculateCorrelation x z)
            (obj_set (signalType ++ "-correlation()-x,y")
               (FeatureExtractor.calculateCorrelation x y)
               (obj_set (signalType ++ "-sma()")
                  (ndiv sma (ofNat (length x))) features')))), x, y, z.
  - right. f_equal.
    apply (foldM_error_kind _ TypeError _
             (timeAxisStep_error ps signalType) _ _ Hfold).
Qed.

Lemma angleVectors_result (ps : FeatureExtractor.ProcessedSignals) :
  (exists v,
     FeatureExtractor.angleVectors ps = Ok v /\
     forall signalType axis,
       In signalType ["tBodyAcc"; "tGravityAcc"; "tBodyAccJerk"; "tBodyGyro";
                      "tBodyGyroJerk"] ->
       In axis ["x"; "y"; "z"] ->
       exists data, FeatureExtractor.signalArray ps signalType axis = Ok data)
  \/ FeatureExtractor.angleVectors ps = Err TypeError.
Proof.
  unfold FeatureExtractor.angleVectors.
  repeat match goal with
    | |- context [bind (FeatureExtractor.signalArray ps ?s ?a) _] =>
        let H := fresh "H" in
        destruct (FeatureExtractor.signalArray ps s a) eqn:H; cbn [bind];
        [|right; now rewrite (signalArray_error _ _ _ _ H)]
    end.
  left. eexists. split; [reflexivity|].
  intros signalType axis Hs Ha.
  repeat (destruct Hs as [<-|Hs]);
    try contradiction;
    repeat (destruct Ha as [<-|Ha]); try contradiction;
    eexists; eassumption.
Qed.

(** X19: the test [if (processedSignals[signalType][axis])] protects
    nothing: when one of the five time-domain signals, or one of its
    x, y, z arrays, is absent, both [extractFeatures] and
    [extractAngleFeatures] end in a [TypeError]. *)
Theorem missing_axis_TypeError (ps : FeatureExtractor.ProcessedSignals)
  (signalType axis : string) :
  In signalType ["tBodyAcc"; "tGravityAcc"; "tBodyAccJerk"; "tBodyGyro";
                 "tBodyGyroJerk"] ->
  In axis ["x"; "y"; "z"] ->
  obj_get signalType ps = None \/
  (exists group, obj_get signalType ps = Some group /\
                 obj_get axis group = None) ->
  FeatureExtractor.extractFeatures ps = Err TypeError /\
  FeatureExtractor.extractAngleFeatures ps = Err TypeError.
Proof.
  intros Hs Ha Hmissing. apply signalArray_missing in Hmissing.
  split.
  - unfold FeatureExtractor.extractFeatures.
    destruct (foldM (FeatureExtractor.timeSignalStep ps) _ [])
      as [features|e] eqn:Hfold; cbn [bind].
    + exfalso.
      destruct (foldM_reaches _ _ _ _ Hfold signalType Hs) as [s1 [s2 Hstep]].
      destruct (timeSignalStep_result ps s1 signalType)
        as [[o [x [y [z [_ [Hx [Hy Hz]]]]]]]|Herr];
        [|congruence].
      destruct Ha as [<-|[<-|[<-|[]]]]; congruence.
    + f_equal. apply (foldM_error_kind _ TypeError _) in Hfold;
        [assumption|].
      intros s v e' Hstep.
      destruct (timeSignalStep_result ps s v) as [[o [_ [_ [_ [Hok _]]]]]|Herr];
        congruence.
  - unfold FeatureExtractor.extractAngleFeatures.
    destruct (angleVectors_result ps) as [[v [_ Hall]]|Herr].
    + exfalso. destruct (Hall signalType axis Hs Ha) as [data Hdata].
      congruence.
    + now rewrite Herr.
Qed.

Lemma missing_axis_TypeError_witness :
  FeatureExtractor.extractFeatures [("tBodyAcc", [("x", [Fin 1; Fin 2])])]
  = Err TypeError /\
  FeatureExtractor.extractAngleFeatures
    [("tBodyAcc", [("x", [Fin 1; Fin 2])])]
  = Err TypeError.
Proof.
  apply (missing_axis_TypeError [("tBodyAcc", [("x", [Fin 1; Fin 2])])]
           "tBodyAcc" "y").
  - now left.
  - right. now left.
  - right. exists [("x", [Fin 1; Fin 2])]. now split.
Defined.

Local Close Scope string_scope.
(** ** Further properties of [app/(tabs)/index.tsx] *)

(** *** [normalizeFeatures] *)

Lemma keys_set_present (key : string) (keys : list string) :
  In key keys -> keys_set key keys = keys.
Proof.
  intros Hin. unfold keys_set.
  replace (existsb (String.eqb key) keys) with true; [reflexivity|].
  symmetry. apply existsb_exists. exists key. split; [assumption|].
  apply String.eqb_refl.
Qed.

Lemma keys_set_absent (key : string) (keys : list string) :
  ~ In key keys -> keys_set key keys = (keys ++ [key])%list.
Proof.
  intros Hnin. unfold keys_set.
  destruct (existsb (String.eqb key) keys) eqn:Hex; [|reflexivity].
  apply existsb_exists in Hex. destruct Hex as [k [Hk Heq]].
  apply String.eqb_eq in Heq. now subst k.
Qed.

Lemma keys_assign_present (new : list string) :
  forall keys,
    (forall key, In key new -> In key keys) -> keys_assign new keys = keys.
Proof.
  unfold keys_assign. induction new as [|k new IH]; intros keys Hin.
  - reflexivity.
  - cbn [fold_left]. rewrite keys_set_present by (apply Hin; now left).
    apply IH. intros key Hkey. apply Hin. now right.
Qed.

Lemma keys_assign_fresh (new : list string) :
  NoDup new ->
  forall keys,
    (forall key, In key new -> ~ In key keys) ->
    keys_assign new keys = (keys ++ new)%list.
Proof.
  unfold keys_assign. induction 1 as [|k new Hk Hnd IH]; intros keys Hfresh.
  - now rewrite app_nil_r.
  - cbn [fold_left]. rewrite keys_set_absent by (apply Hfresh; now left).
    rewrite IH.
    + now rewrite <- app_assoc.
    + intros key Hkey Hin. apply in_app_or in Hin.
      destruct Hin as [Hin|[<-|[]]].
      * exact (Hfresh key (or_intror Hkey) Hin).
      * contradiction.
Qed.

Lemma Object_keys_fold_set {V : Type} (f : string -> V) (keys : list string) :
  forall o : object V,
    Object_keys (fold_left (fun o key => obj_set key (f key) o) keys o)
    = keys_assign keys (Object_keys o).
Proof.
  unfold keys_assign. induction keys as [|k keys IH]; intros o.
  - reflexivity.
  - cbn [fold_left]. rewrite IH, Object_keys_obj_set. reflexivity.
Qed.

Lemma Object_keys_copy {V : Type} (o : object V) :
  NoDup (Object_keys o) -> Object_keys (obj_assign o []) = Object_keys o.
Proof.
  intros Hnd. rewrite Object_keys_obj_assign.
  rewrite keys_assign_fresh; [reflexivity|assumption|].
  intros key _ [].
Qed.

Lemma normalizeFeatures_same_keys (first : FeatureRow)
  (rest : list FeatureRow) :
  let rows := first :: rest in
  NoDup (Object_keys first) ->
  (forall row, In row rows -> Object_keys row = Object_keys first) ->
  exists out,
    normalizeFeatures rows = Ok out /\
    length out = length rows /\
    Forall (fun normalizedRow => Object_keys normalizedRow = Object_keys first)
      out.
Proof.
  intros rows Hnd Hkeys.
  eexists. split; [apply normalizeFeatures_run|].
  split; [apply length_map|].
  apply Forall_forall. intros normalizedRow Hin.
  apply in_map_iff in Hin. destruct Hin as [row [<- Hrow]].
  rewrite (Object_keys_fold_set
             (fun key => normalizedValue key (first :: rest) row)).
  rewrite Object_keys_copy by (rewrite (Hkeys row Hrow); exact Hnd).
  rewrite (Hkeys row Hrow). apply keys_assign_present. auto.
Qed.

(** X20: [normalizeFeatures] throws a [TypeError] on an empty batch.  On a
    non-empty batch whose rows all carry the key list of the first row
    (no key twice) it returns as many rows as it was given, and every
    normalised row has that same key list in the same order. *)
Theorem normalizeFeatures_shape (first : FeatureRow) (rest : list FeatureRow) :
  let rows := first :: rest in
  NoDup (Object_keys first) ->
  (forall row, In row rows -> Object_keys row = Object_keys first) ->
  normalizeFeatures [] = Err TypeError /\
  exists out,
    normalizeFeatures rows = Ok out /\
    length out = length rows /\
    Forall (fun normalizedRow => Object_keys normalizedRow = Object_keys first)
      out.
Proof.
  intros rows Hnd Hkeys. split; [reflexivity|].
  now apply normalizeFeatures_same_keys.
Qed.

Lemma normalizeFeatures_shape_witness :
  exists out,
    normalizeFeatures [[("a"%string, Fin 1)]; [("a"%string, Fin 3)]] = Ok out /\
    length out = 2%nat.
Proof.
  destruct (normalizeFeatures_shape [("a"%string, Fin 1)]
              [[("a"%string, Fin 3)]])
    as [_ [out [Hrun [Hlen _]]]].
  - repeat constructor. intros [].
  - intros row [<-|[<-|[]]]; reflexivity.
  - exists out. now split.
Defined.

Lemma fold_nmin2_NaN (values : list num) :
  fold_left nmin2 values NaN = NaN.
Proof. induction values as [|v values IH]; [reflexivity|exact IH]. Qed.

Lemma fold_nmax2_NaN (values : list num) :
  fold_left nmax2 values NaN = NaN.
Proof. induction values as [|v values IH]; [reflexivity|exact IH]. Qed.

Lemma nmin2_NaN_r (x : num) : nmin2 x NaN = NaN.
Proof. now destruct x. Qed.

Lemma nmax2_NaN_r (x : num) : nmax2 x NaN = NaN.
Proof. now destruct x. Qed.

Lemma fold_nmin2_poisoned (values : list num) :
  In NaN values -> forall acc, fold_left nmin2 values acc = NaN.
Proof.
  induction values as [|v values IH]; intros Hin acc; [contradiction|].
  cbn [fold_left]. destruct Hin as [->|Hin].
  - rewrite nmin2_NaN_r. apply fold_nmin2_NaN.
  - now apply IH.
Qed.

Lemma fold_nmax2_poisoned (values : list num) :
  In NaN values -> forall acc, fold_left nmax2 values acc = NaN.
Proof.
  induction values as [|v values IH]; intros Hin acc; [contradiction|].
  cbn [fold_left]. destruct Hin as [->|Hin].
  - rewrite nmax2_NaN_r. apply fold_nmax2_NaN.
  - now apply IH.
Qed.

(** X21: one [NaN] spoils a whole column: when a feature is [NaN] (or
    absent) in some row of the batch, [normalizeFeatures] does not fail
    and writes [NaN] for that feature in every normalised row. *)
Theorem normalizeFeatures_NaN_column (first : FeatureRow)
  (rest : list FeatureRow) (key : string) (bad : FeatureRow) :
  let rows := first :: rest in
  In key (Object_keys first) ->
  In bad rows ->
  obj_num key bad = NaN ->
  exists out,
    normalizeFeatures rows = Ok out /\
    length out = length rows /\
    Forall (fun normalizedRow => obj_get key normalizedRow = Some NaN) out.
Proof.
  intros rows Hkey Hbad Hnan.
  eexists. split; [apply normalizeFeatures_run|].
  split; [apply length_map|].
  apply Forall_forall. intros normalizedRow Hin.
  apply in_map_iff in Hin. destruct Hin as [row [<- Hrow]].
  rewrite (obj_get_fold_set
             (fun key => normalizedValue key (first :: rest) row))
    by assumption.
  f_equal. unfold normalizedValue, column.
  assert (Hcol : In NaN (map (obj_num key) (first :: rest))).
  { rewrite <- Hnan. now apply in_map. }
  unfold Math_min, Math_max.
  rewrite fold_nmin2_poisoned, fold_nmax2_poisoned by assumption.
  cbn [nstrict_eq]. unfold rescale.
  destruct (nmul (Fin 2) (nsub (obj_num key row) NaN)); reflexivity.
Qed.

Lemma normalizeFeatures_NaN_column_witness :
  exists out,
    normalizeFeatures [[("a"%string, Fin 1)]; [("a"%string, NaN)]] = Ok out /\
    Forall (fun normalizedRow => obj_get "a" normalizedRow = Some NaN) out.
Proof.
  destruct (normalizeFeatures_NaN_column [("a"%string, Fin 1)]
              [[("a"%string, NaN)]] "a" [("a"%string, NaN)])
    as [out [Hrun [_ Hall]]].
  - now left.
  - right. now left.
  - reflexivity.
  - exists out. now split.
Defined.

(** *** The export order of [saveFeaturesToFile] *)




(** *** The sample buffers *)

Lemma lastn_all {A : Type} (n : nat) (l : list A) :
  (length l <= n)%nat -> lastn n l = l.
Proof.
  intros Hle. unfold lastn.
  replace (length l - n)%nat with 0%nat by lia. reflexivity.
Qed.

Lemma length_lastn {A : Type} (n : nat) (l : list A) :
  length (lastn n l) = Nat.min n (length l).
Proof. unfold lastn. rewrite length_skipn. lia. Qed.

Lemma lastn_app_lastn {A : Type} (n : nat) (a b : list A) :
  lastn n (lastn n a ++ b) = lastn n (a ++ b).
Proof.
  destruct (Nat.le_gt_cases (length a) n) as [Hle|Hgt].
  - now rewrite (lastn_all n a).
  - unfold lastn at 1 3. rewrite !length_app, length_lastn.
    replace (Nat.min n (length a)) with n by lia.
    rewrite skipn_app, length_lastn.
    replace (Nat.min n (length a)) with n by lia.
    rewrite (skipn_app (length a + length b - n)).
    unfold lastn. rewrite skipn_skipn.
    f_equal.
    + f_equal. lia.
    + f_equal. lia.
Qed.

Lemma appendSample_lastn (prevData : list SensorReading.t)
  (sample : SensorReading.t) :
  (length prevData <= App.requiredSamples)%nat ->
  App.appendSample prevData sample
  = lastn App.requiredSamples (prevData ++ [sample]).
Proof.
  intros Hle. unfold App.appendSample. cbv zeta.
  destruct (Nat.ltb_spec App.requiredSamples (length (prevData ++ [sample])))
    as [Hlt|Hge].
  - unfold lastn. rewrite length_app in *. cbn [length] in *.
    replace (length prevData + 1 - App.requiredSamples)%nat with 1%nat by lia.
    reflexivity.
  - now rewrite lastn_all.
Qed.

Lemma appendSample_fold (samples : list SensorReading.t) :
  forall buffer,
    (length buffer <= App.requiredSamples)%nat ->
    fold_left App.appendSample samples buffer
    = lastn App.requiredSamples (buffer ++ samples).
Proof.
  induction samples as [|sample samples IH]; intros buffer Hle.
  - rewrite app_nil_r. now rewrite lastn_all.
  - cbn [fold_left]. rewrite appendSample_lastn by assumption.
    rewrite IH by (rewrite length_lastn; lia).
    rewrite lastn_app_lastn, <- app_assoc. reflexivity.
Qed.

(** X23: the listeners keep a sliding buffer: after any run of sensor
    events the buffer holds the most recent [requiredSamples] = 1664
    samples in arrival order, all of them while fewer have arrived, and
    so never more than 1664. *)
Theorem buffer_holds_latest (samples : list SensorReading.t) :
  App.requiredSamples = 1664%nat /\
  fold_left App.appendSample samples []
  = skipn (length samples - App.requiredSamples) samples /\
  (length (fold_left App.appendSample samples []) <= App.requiredSamples)%nat.
Proof.
  split; [reflexivity|].
  assert (Hfold : fold_left App.appendSample samples []
                  = lastn App.requiredSamples samples).
  { rewrite appendSample_fold by (simpl; lia). reflexivity. }
  split.
  - exact Hfold.
  - rewrite Hfold, length_lastn. lia.
Qed.

Lemma progress_value (updatedData : list SensorReading.t) :
  (length updatedData <= App.requiredSamples)%nat ->
  App.dataCollectionProgress updatedData
  = Fin (INR (length updatedData) / INR App.requiredSamples * 100).
Proof.
  intros Hle. unfold App.dataCollectionProgress, ofNat.
  assert (Hreq : INR App.requiredSamples = 1664).
  { change App.requiredSamples with 1664%nat. simpl. lra. }
  rewrite ndiv_Fin by lra. cbn [nmul]. rewrite nmin2_Fin.
  f_equal. apply Rmin_left.
  apply le_INR in Hle. rewrite Hreq in *.
  unfold Rdiv. lra.
Qed.

(** X24: while the buffer holds at most [requiredSamples] samples the
    progress shown is the fill percentage, between 0 and 100, and it is
    100 exactly when the buffer is full, which is when
    [processMultipleSignals] stops reporting insufficient accelerometer
    data. *)
Theorem dataCollectionProgress_full (updatedData : list SensorReading.t) :
  (length updatedData <= App.requiredSamples)%nat ->
  exists p,
    App.dataCollectionProgress updatedData = Fin p /\
    0 <= p <= 100 /\
    (p = 100 <-> length updatedData = App.requiredSamples) /\
    (p < 100 <->
     forall gyroData,
       App.processMultipleSignals updatedData gyroData = App.InsufficientData).
Proof.
  intros Hle. eexists. split; [now apply progress_value|].
  assert (Hreq : INR App.requiredSamples = 1664).
  { change App.requiredSamples with 1664%nat. simpl. lra. }
  pose proof (pos_INR (length updatedData)) as Hpos.
  pose proof (le_INR _ _ Hle) as HleR. rewrite Hreq in *.
  assert (Hfull : INR (length updatedData) / 1664 * 100 = 100 <->
                  length updatedData = App.requiredSamples).
  { split.
    - intros Heq. apply INR_eq. rewrite Hreq. unfold Rdiv in Heq. lra.
    - intros Heq. rewrite Heq, Hreq. field. }
  split; [unfold Rdiv; lra|]. split; [exact Hfull|].
  split.
  - intros Hlt gyroData. unfold App.processMultipleSignals.
    assert (Hshort : (length updatedData < App.requiredSamples)%nat).
    { destruct (Nat.eq_dec (length updatedData) App.requiredSamples)
        as [Heq|Hneq]; [|lia].
      apply Hfull in Heq. lra. }
    apply Nat.ltb_lt in Hshort. now rewrite Hshort.
  - intros Hguard. specialize (Hguard (repeat
      (SensorReading.mk (Fin 0) (Fin 0) (Fin 0) (Fin 0)) App.requiredSamples)).
    unfold App.processMultipleSignals in Hguard.
    rewrite repeat_length, Nat.ltb_irrefl, orb_false_r in Hguard.
    destruct (Nat.ltb_spec (length updatedData) App.requiredSamples)
      as [Hlt|Hge].
    + apply lt_INR in Hlt. rewrite Hreq in Hlt. unfold Rdiv. lra.
    + exfalso.
      destruct (bind _ _) in Hguard; discriminate.
Qed.

Lemma dataCollectionProgress_full_witness :
  exists p, App.dataCollectionProgress [] = Fin p /\ 0 <= p <= 100.
Proof.
  assert (Hle : (@length SensorReading.t [] <= App.requiredSamples)%nat)
    by (simpl; lia).
  destruct (dataCollectionProgress_full [] Hle) as [p [Hp [Hb _]]].
  exists p. now split.
Defined.

(** *** [processMultipleSignals] *)

Lemma length_slice_window {A : Type} (a : list A) (start size : nat) :
  (start + size <= length a)%nat ->
  length (slice a (Z.of_nat start) (Z.of_nat (start + size))) = size.
Proof.
  intros Hle. unfold slice. rewrite length_firstn, length_skipn. lia.
Qed.

Lemma mapM_Forall {A B : Type} (f : A -> result B) (P : B -> Prop)
  (a : list A) :
  (forall v, In v a -> exists w, f v = Ok w /\ P w) ->
  exists ws, mapM f a = Ok ws /\ length ws = length a /\ Forall P ws.
Proof.
  induction a as [|v a IH]; intros Hf.
  - exists []. repeat split. constructor.
  - destruct (Hf v (or_introl eq_refl)) as [w [Hw HP]].
    destruct IH as [ws [Hws [Hlen Hall]]].
    { intros u Hu. apply Hf. now right. }
    exists (w :: ws). cbn [mapM]. rewrite Hw, Hws. cbn [bind length].
    repeat split; [now rewrite Hlen|now constructor].
Qed.

Lemma window_row_keys (accWindow gyroWindow : list SensorReading.t) :
  length accWindow = 128%nat ->
  length gyroWindow = 128%nat ->
  exists row,
    processSignalWindow accWindow gyroWindow = Ok row /\
    Object_keys row = keys_assign angleKeys (keys_assign extractedKeys []).
Proof.
  intros Hacc Hgyro.
  destruct (processSignalWindow_run accWindow gyroWindow)
    as [acc [gyro [features [angleFeatures
         [_ [_ [_ [Hkeys [_ [_ [Hangle Hrun]]]]]]]]]]].
  - lia.
  - congruence.
  - eexists. split; [exact Hrun|].
    rewrite !Object_keys_obj_assign, Hkeys, Hangle. reflexivity.
Qed.

Lemma feature_list_NoDup : NoDup feature_list.
Proof. apply nodupb_NoDup. vm_compute. reflexivity. Qed.

Lemma canonical_keys_NoDup :
  NoDup (keys_assign angleKeys (keys_assign extractedKeys [])).
Proof.
  eapply Permutation_NoDup; [|apply feature_list_NoDup].
  apply Permutation_sym, same_keys_Permutation, all_keys_canonical.
Qed.

(** X25: [processMultipleSignals] reports insufficient data when either
    buffer holds fewer than 1664 samples.  Otherwise processing throws
    nothing: the 25 windows of 128 samples, 64 apart, are all processed
    and normalised, and the feature table has 25 rows, each with exactly
    the 561 canonical feature names. *)
Theorem processMultipleSignals_outcome (accData gyroData : list SensorReading.t) :
  if (length accData <? App.requiredSamples)%nat
     || (length gyroData <? App.requiredSamples)%nat
  then App.processMultipleSignals accData gyroData = App.InsufficientData
  else
    exists featureTable,
      App.processMultipleSignals accData gyroData
      = App.Generated featureTable /\
      length featureTable = 25%nat /\
      Forall (fun row => Permutation (Object_keys row) feature_list /\
                         length (Object_keys row) = 561%nat)
        featureTable.
Proof.
  unfold App.processMultipleSignals.
  destruct (Nat.ltb_spec (length accData) App.requiredSamples) as [|Hacc];
    [reflexivity|].
  destruct (Nat.ltb_spec (length gyroData) App.requiredSamples) as [|Hgyro];
    [reflexivity|].
  cbn [orb].
  change App.requiredSamples with 1664%nat in *.
  set (keys := keys_assign angleKeys (keys_assign extractedKeys [])).
  destruct (mapM_Forall (App.windowFeatures accData gyroData)
              (fun row => Object_keys row = keys)
              (seq 0 App.targetFeatureSets))
    as [newFeatures [Hmap [Hlen Hkeys]]].
  { intros i Hi. apply in_seq in Hi.
    change App.targetFeatureSets with 25%nat in Hi.
    unfold App.windowFeatures. cbv zeta.
    change App.slideSize with 64%nat. change App.windowSize with 128%nat.
    apply window_row_keys; apply length_slice_window; lia. }
  rewrite Hmap. cbn [bind].
  rewrite length_seq in Hlen. change App.targetFeatureSets with 25%nat in Hlen.
  destruct newFeatures as [|first rest]; [discriminate|].
  assert (Hfirst : Object_keys first = keys)
    by (inversion Hkeys; assumption).
  destruct (normalizeFeatures_same_keys first rest)
    as [out [Hrun [Hout Hshape]]].
  - rewrite Hfirst. apply canonical_keys_NoDup.
  - intros row Hrow. rewrite Hfirst.
    exact (proj1 (Forall_forall _ _) Hkeys row Hrow).
  - rewrite Hrun. exists out. split; [reflexivity|].
    split; [congruence|].
    eapply Forall_impl; [|exact Hshape].
    intros row Hrow. cbv beta in Hrow. rewrite Hrow, Hfirst.
    assert (Hperm : Permutation keys feature_list)
      by (apply same_keys_Permutation, all_keys_canonical).
    split; [exact Hperm|].
    rewrite (Permutation_length Hperm). apply feature_list_length.
Qed.

(** *** Non-negative time features *)

Lemma sort_insert_ascending (v : R) (l : list R) :
  ascending l ->
  exists l',
    sort_insert (Fin v) (map Fin l) = map Fin l' /\
    ascending l' /\ Permutation l' (v :: l).
Proof.
  induction l as [|w l IH]; intros Hasc.
  - exists [v]. repeat split; [intros y []|reflexivity].
  - destruct Hasc as [Hw Hasc]. cbn [map sort_insert].
    unfold ngt, compareFn, nsub, nlt. cbn [nneg nadd].
    destruct (Rlt_dec 0 (v + - w)) as [Hgt|Hle].
    + destruct (IH Hasc) as [l' [Hl' [Hasc' Hperm]]].
      exists (w :: l'). rewrite Hl'. repeat split.
      * intros y Hy. apply (Permutation_in _ Hperm) in Hy.
        destruct Hy as [<-|Hy]; [lra|now apply Hw].
      * exact Hasc'.
      * etransitivity; [apply perm_skip, Hperm|apply perm_swap].
    + exists (v :: w :: l). repeat split; try assumption; try reflexivity.
      intros y [<-|Hy]; [lra|]. specialize (Hw y Hy). lra.
Qed.

Lemma sort_ascending (xs : list R) :
  exists l',
    sort (map Fin xs) = map Fin l' /\ ascending l' /\ Permutation l' xs.
Proof.
  induction xs as [|x xs IH].
  - exists []. repeat split. constructor.
  - destruct IH as [l [Hl [Hasc Hperm]]].
    destruct (sort_insert_ascending x l Hasc) as [l' [Hl' [Hasc' Hperm']]].
    exists l'. cbn [map]. unfold sort. cbn [fold_right].
    fold (sort (map Fin xs)). rewrite Hl, Hl'.
    repeat split; [assumption|].
    etransitivity; [exact Hperm'|now constructor].
Qed.

Lemma ascending_nth (l : list R) :
  ascending l ->
  forall i j, (i <= j < length l)%nat -> nth i l 0 <= nth j l 0.
Proof.
  induction l as [|x l IH]; intros Hasc i j Hij; [simpl in Hij; lia|].
  destruct Hasc as [Hx Hasc]. destruct i as [|i], j as [|j]; simpl in *.
  - lra.
  - apply Hx. apply nth_In. lia.
  - lia.
  - apply IH; [assumption|lia].
Qed.

Lemma update_overflow {A : Type} (v : A) :
  forall (a : list A) (i : nat), (length a <= i)%nat -> update i v a = a.
Proof.
  induction a as [|w a IH]; intros i Hi; destruct i as [|i]; simpl in *;
    try reflexivity; try lia.
  f_equal. apply IH. lia.
Qed.

Lemma update_map_Fin (v : R) :
  forall (cs : list R) (i : nat),
    update i (Fin v) (map Fin cs) = map Fin (update i v cs).
Proof.
  induction cs as [|c cs IH]; intros i; destruct i as [|i]; simpl;
    try reflexivity.
  f_equal. apply IH.
Qed.

Lemma Rsum_update (v : R) :
  forall (cs : list R) (i : nat),
    (i < length cs)%nat ->
    Rsum (update i v cs) = Rsum cs - nth i cs 0 + v.
Proof.
  induction cs as [|c cs IH]; intros i Hi; [simpl in Hi; lia|].
  destruct i as [|i]; simpl in *.
  - lra.
  - rewrite IH by lia. unfold Rsum. lra.
Qed.

Lemma increment_counts (bins : list num) (k : nat) (binIdx : num) :
  countsInvariant bins k ->
  countsInvariant (FeatureExtractor.increment bins binIdx) (S k).
Proof.
  intros [cs [-> [Hpos Hsum]]]. unfold countsInvariant. rewrite S_INR.
  unfold FeatureExtractor.increment.
  destruct (FeatureExtractor.toIndex binIdx) as [i|];
    [|exists cs; repeat split; [assumption|lra]].
  destruct (Nat.lt_ge_cases i (length cs)) as [Hi|Hi].
  - rewrite at_map_Fin by assumption. cbn [nadd]. rewrite update_map_Fin.
    eexists. split; [reflexivity|].
    assert (Hc : 0 <= nth i cs 0).
    { rewrite Forall_forall in Hpos. apply Hpos. now apply nth_In. }
    split.
    + apply update_Forall; [lra|assumption].
    + rewrite Rsum_update by assumption. lra.
  - rewrite update_overflow by (now rewrite length_map).
    exists cs. repeat split; [assumption|lra].
Qed.

Lemma histogram_counts (binOf : num -> num) (data : list num) :
  forall bins k,
    countsInvariant bins k ->
    countsInvariant
      (fold_left (fun bins val => FeatureExtractor.increment bins (binOf val))
         data bins)
      (k + length data).
Proof.
  induction data as [|val data IH]; intros bins k Hinv.
  - now rewrite Nat.add_0_r.
  - cbn [fold_left length].
    replace (k + S (length data))%nat with (S k + length data)%nat by lia.
    apply IH. now apply increment_counts.
Qed.

Lemma Rsum_nonneg (cs : list R) :
  Forall (fun c => 0 <= c) cs -> 0 <= Rsum cs.
Proof.
  unfold Rsum. induction 1 as [|c cs Hc Hcs IH]; simpl; lra.
Qed.

Lemma count_le_total (cs : list R) (c : R) :
  Forall (fun c => 0 <= c) cs -> In c cs -> c <= Rsum cs.
Proof.
  induction 1 as [|d cs Hd Hcs IH]; intros Hin; [contradiction|].
  pose proof (Rsum_nonneg cs Hcs) as Hrest.
  unfold Rsum in *. simpl. destruct Hin as [<-|Hin]; [lra|].
  specialize (IH Hin). lra.
Qed.

Lemma entropy_term (c n : R) :
  0 <= c <= n -> 0 < n ->
  exists t,
    (if nstrict_eq (ndiv (Fin c) (Fin n)) (Fin 0) then Fin 0
     else nmul (ndiv (Fin c) (Fin n)) (nlog2 (ndiv (Fin c) (Fin n))))
    = Fin t /\
    t <= 0.
Proof.
  intros Hc Hn. rewrite ndiv_Fin by lra. cbn [nstrict_eq].
  destruct (Req_dec_T (c / n) 0) as [Hz|Hnz].
  - exists 0. split; [reflexivity|lra].
  - assert (Hp : 0 < c / n <= 1).
    { split.
      - assert (0 <= c / n)
          by (apply Rmult_le_pos; [lra|left; now apply Rinv_0_lt_compat]).
        lra.
      - apply Rmult_le_reg_r with (r := n); [assumption|].
        unfold Rdiv. rewrite Rmult_assoc, Rinv_l by lra. lra. }
    unfold nlog2, sgn. destruct (Rlt_dec 0 (c / n)); [|lra].
    cbn [nmul]. eexists. split; [reflexivity|].
    assert (Hln : ln (c / n) <= 0).
    { destruct (Req_dec_T (c / n) 1) as [->|Hne].
      - rewrite ln_1. lra.
      - left. rewrite <- ln_1. apply ln_increasing; lra. }
    assert (Hln2 : 0 < ln 2).
    { rewrite <- ln_1. apply ln_increasing; lra. }
    assert (Hq : ln (c / n) / ln 2 <= 0).
    { unfold Rdiv.
      replace 0 with (0 * / ln 2) by ring.
      apply Rmult_le_compat_r; [left; now apply Rinv_0_lt_compat|lra]. }
    nra.
Qed.

Lemma entropy_terms (cs : list R) (n : R) :
  (forall c, In c cs -> 0 <= c <= n) -> 0 < n ->
  exists ts,
    map (fun count =>
           if nstrict_eq (ndiv count (Fin n)) (Fin 0) then Fin 0
           else nmul (ndiv count (Fin n)) (nlog2 (ndiv count (Fin n))))
      (map Fin cs) = map Fin ts /\
    Rsum ts <= 0.
Proof.
  intros Hc Hn. induction cs as [|c cs IH].
  - exists []. split; [reflexivity|simpl; lra].
  - destruct IH as [ts [Hts Hsum]].
    { intros d Hd. apply Hc. now right. }
    destruct (entropy_term c n (Hc c (or_introl eq_refl)) Hn) as [t [Ht Hle]].
    exists (t :: ts). cbn [map]. rewrite Ht, Hts.
    split; [reflexivity|]. unfold Rsum in *. simpl. lra.
Qed.

Lemma Rsum_abs_nonneg (m : R) (xs : list R) :
  0 <= Rsum (map (fun x => Rabs (x + - m)) xs).
Proof.
  unfold Rsum. induction xs as [|x xs IH]; simpl; [lra|].
  pose proof (Rabs_pos (x + - m)). lra.
Qed.

Lemma length_nonzero {A : Type} (l : list A) : l <> [] -> 0 < INR (length l).
Proof.
  intros Hne. destruct l as [|v l]; [contradiction|].
  apply lt_0_INR. simpl. lia.
Qed.

(** The entropy of any non-empty window. *)
Lemma entropy_nonnegative (data : list num) :
  data <> [] ->
  exists entropy : R,
    obj_get "entropy()" (FeatureExtractor.calculateTimeFeatures data)
    = Some (Fin entropy) /\
    0 <= entropy.
Proof.
  intros Hne.
  pose proof (length_nonzero data Hne) as Hnpos.
  destruct (statistics_get data) as [_ [_ [_ [_ [_ [_ [_ Gentropy]]]]]]].
  rewrite calculateTimeFeatures_get by (intros rest; discriminate).
  rewrite Gentropy. clear Gentropy.
  pose proof (histogram_counts
                (fun val =>
                   nmin2 (nfloor (nmul (ndiv (nsub val (Math_min data))
                                          (nsub (Math_max data)
                                             (Math_min data)))
                                    (Fin 10)))
                         (Fin 9))
                data (repeat (Fin 0) 10) 0) as Hhist.
  destruct Hhist as [cs [Hbins [Hpos Htotal]]].
  { exists (repeat 0 10). repeat split.
    - repeat constructor; lra.
    - simpl. lra. }
  rewrite Hbins. clear Hbins.
  rewrite Nat.add_0_l in Htotal.
  destruct (entropy_terms cs (INR (length data))) as [ts [Hts Hsum]].
  { intros c Hc. split.
    - rewrite Forall_forall in Hpos. now apply Hpos.
    - pose proof (count_le_total cs c Hpos Hc). lra. }
  { assumption. }
  unfold ofNat. cbv zeta. rewrite Hts, sum_Fin. cbn [nneg].
  eexists. split; [reflexivity|lra].
Qed.

(** X27: the entropy feature of any non-empty window is a finite,
    non-negative number, never [NaN], whatever the samples are (equal
    samples, whose histogram index is 0 / 0, and [NaN] samples
    included).  On a non-empty window of real samples [std()], [mad()],
    [energy()] and [iqr()] are each a non-negative number or
    [+Infinity], never negative and never [NaN]. *)
Theorem calculateTimeFeatures_nonnegative (data : list num) (xs : list R) :
  (data <> [] ->
   exists entropy : R,
     obj_get "entropy()" (FeatureExtractor.calculateTimeFeatures data)
     = Some (Fin entropy) /\
     0 <= entropy) /\
  (xs <> [] ->
   let features := FeatureExtractor.calculateTimeFeatures (map Fin xs) in
   exists std mad energy iqr : num,
     obj_get "std()" features = Some std /\ nonNegative std /\
     obj_get "mad()" features = Some mad /\ nonNegative mad /\
     obj_get "energy()" features = Some energy /\ nonNegative energy /\
     obj_get "iqr()" features = Some iqr /\ nonNegative iqr).
Proof.
  split; [apply entropy_nonnegative|].
  intros Hne features.
  pose proof (length_nonzero xs Hne) as Hnpos.
  assert (Hn : INR (length xs) <> 0) by lra.
  destruct (statistics_get (map Fin xs))
    as [_ [Gstd [Gmad [_ [_ [Genergy [Giqr _]]]]]]].
  destruct (sort_ascending xs) as [sorted [Hsorted [Hasc Hperm]]].
  assert (Hls : length sorted = length xs) by now apply Permutation_length.
  unfold features.
  rewrite !calculateTimeFeatures_get by (intros rest; discriminate).
  rewrite Gstd, Gmad, Genergy, Giqr. clear Gstd Gmad Genergy Giqr.
  rewrite Hsorted, length_map.
  assert (Hlen : (0 < length xs)%nat)
    by (destruct xs; [contradiction|simpl; lia]).
  assert (Hhalf : (length xs / 2 < length xs)%nat)
    by (apply Nat.div_lt; lia).
  assert (Hq1 : (FeatureExtractor.quarter (length xs) < length xs)%nat)
    by (unfold FeatureExtractor.quarter; apply Nat.div_lt; lia).
  assert (Hq3 : (FeatureExtractor.threeQuarters (length xs) < length xs)%nat)
    by (unfold FeatureExtractor.threeQuarters;
        apply Nat.Div0.div_lt_upper_bound; lia).
  assert (Hq13 : (FeatureExtractor.quarter (length xs)
                  <= FeatureExtractor.threeQuarters (length xs))%nat).
  { unfold FeatureExtractor.quarter, FeatureExtractor.threeQuarters.
    apply Nat.Div0.div_le_mono. lia. }
  rewrite !at_map_Fin by lia.
  rewrite sum_Fin, sumprod_Fin, Rplus_0_l. unfold ofNat.
  rewrite !ndiv_Fin by assumption.
  rewrite squaredDeviation_Fin, ndiv_Fin by assumption.
  assert (Hvar : 0 <= devSquares xs (Rsum xs / INR (length xs))
                      / INR (length xs)).
  { apply Rmult_le_pos; [apply Rsum_squares_nonneg|].
    left. now apply Rinv_0_lt_compat. }
  rewrite nsqrt_Fin by assumption.
  set (m := nth (length xs / 2) sorted 0).
  assert (Hmad : map (fun x => nabs (nsub x (Fin m))) (map Fin xs)
                 = map Fin (map (fun x => Rabs (x + - m)) xs)).
  { rewrite !map_map. reflexivity. }
  rewrite Hmad, sum_Fin, ndiv_Fin by assumption.
  cbn [nsub nneg nadd].
  do 4 eexists.
  split; [reflexivity|]. split.
  { apply nonNegative_Fin, sqrt_pos. }
  split; [reflexivity|]. split.
  { apply nonNegative_Fin.
    apply Rmult_le_pos; [|left; now apply Rinv_0_lt_compat].
    apply Rsum_abs_nonneg. }
  split; [reflexivity|]. split.
  { apply nonNegative_Fin.
    apply Rmult_le_pos; [|left; now apply Rinv_0_lt_compat].
    apply Rsum_squares_total_nonneg. }
  split; [reflexivity|].
  apply nonNegative_Fin.
  pose proof (ascending_nth sorted Hasc
                (FeatureExtractor.quarter (length xs))
                (FeatureExtractor.threeQuarters (length xs))
                ltac:(lia)).
  lra.
Qed.

Lemma calculateTimeFeatures_nonnegative_witness :
  exists entropy : R,
    obj_get "entropy()" (FeatureExtractor.calculateTimeFeatures [Fin 1; NaN])
    = Some (Fin entropy) /\
    0 <= entropy.
Proof.
  destruct (calculateTimeFeatures_nonnegative [Fin 1; NaN] []) as [Hentropy _].
  apply Hentropy. discriminate.
Defined.

(** *** [maxInds] on a spectrum with [NaN] *)

Lemma indexOfFrom_NaN (a : list num) :
  forall i, FeatureExtractor.indexOfFrom NaN a i = Fin (-1).
Proof.
  induction a as [|w a IH]; intros i; [reflexivity|].
  cbn [FeatureExtractor.indexOfFrom].
  replace (nstrict_eq w NaN) with false by now destruct w.
  apply IH.
Qed.

Lemma magnitudeSpectrum_NaN (fftData : list num) (i : nat) :
  Nat.even (length fftData) = true ->
  (i < length fftData)%nat ->
  at_ fftData i = NaN ->
  In NaN (FeatureExtractor.magnitudeSpectrum fftData).
Proof.
  intros Heven Hi Hnan. unfold FeatureExtractor.magnitudeSpectrum.
  apply in_map_iff. exists (i / 2)%nat.
  assert (Hlen : length fftData = (2 * (length fftData / 2))%nat).
  { apply Nat.even_spec in Heven. destruct Heven as [k Hk].
    rewrite Hk. replace (2 * k / 2)%nat with k; [reflexivity|].
    rewrite Nat.mul_comm. symmetry. apply Nat.div_mul. lia. }
  assert (Hhalf : (i / 2 < length fftData / 2)%nat)
    by (apply Nat.Div0.div_lt_upper_bound; lia).
  split; [|apply in_seq; lia].
  pose proof (Nat.div_mod_eq i 2) as Hdiv.
  assert (Hmod : (i mod 2 < 2)%nat) by (apply Nat.mod_upper_bound; lia).
  destruct (i mod 2)%nat as [|[|r]] eqn:Hr; [| |lia].
  - replace (2 * (i / 2))%nat with i by lia.
    rewrite Hnan, npow2_NaN. reflexivity.
  - replace (2 * (i / 2) + 1)%nat with i by lia.
    rewrite Hnan, npow2_NaN, nadd_NaN_r. reflexivity.
Qed.

(** X28: when an array of even length holds a [NaN], the largest magnitude
    is [NaN], [indexOf] cannot find it, and the feature [maxInds] is the
    failure value -1 rather than a bin number. *)
Theorem maxInds_not_found (fftData : list num) (i : nat) :
  Nat.even (length fftData) = true ->
  (i < length fftData)%nat ->
  at_ fftData i = NaN ->
  exists features,
    FeatureExtractor.calculateFrequencyFeatures fftData = Ok features /\
    obj_get "maxInds" features = Some (Fin (-1)).
Proof.
  intros Heven Hi Hnan.
  pose proof (magnitudeSpectrum_NaN fftData i Heven Hi Hnan) as Hin.
  unfold FeatureExtractor.calculateFrequencyFeatures.
  rewrite Heven. cbn [negb].
  destruct (fold_left _ (combine _ _) (Fin 0, Fin 0)) as [ws tm].
  eexists. split; [reflexivity|].
  rewrite !obj_get_set_neq by discriminate. rewrite obj_get_set_eq.
  unfold FeatureExtractor.indexOf, Math_max.
  rewrite fold_nmax2_poisoned by assumption.
  now rewrite indexOfFrom_NaN.
Qed.

Lemma maxInds_not_found_witness :
  exists features,
    FeatureExtractor.calculateFrequencyFeatures [Fin 1; NaN] = Ok features /\
    obj_get "maxInds" features = Some (Fin (-1)).
Proof.
  apply (maxInds_not_found [Fin 1; NaN] 1).
  - reflexivity.
  - simpl. lia.
  - reflexivity.
Defined.
